(** * Nimbus chat front end: the streaming response handler of [useChatState]

    A shallow embedding of the hook [useChatState] (frontend, file
    [hooks/useChatState], carried in [src/frontend/src/pages/Index.tsx]):
    the request gate [processingRef], the chunk loop of [processChat] with
    its line buffer and its repair of malformed lines, the end of a turn,
    [addMessage], [clearChat] and [regenerateMessage].

    The hook is asynchronous: [processChat] suspends at [fetch] and at every
    [reader.read()].  Between two suspensions JavaScript runs to completion,
    so the hook is modelled as a transition system: a [World] (React state,
    the ref, the suspended activation of [processChat], pending timers) and
    one [Event] per resumption or call from the page.

    Of the page that calls the hook ([Chat], [ChatInput], [ChatMessage],
    [ProcessingStepsHandler]) the development embeds what decides which
    items are shown and where: [handleSubmit], [handleSendMessage],
    [renderChatItems] with [renderCitationBadges], the look of a step and
    the choice between markdown and plain text.

    Text is [string] over the 8-bit alphabet, read as the UTF-16 code units
    0000..00FF.  The copies of the history and of the session in local
    storage, scrolling and the console are not part of the world. *)

From Stdlib Require Import Bool Arith NArith ZArith Lia List Ascii String DecimalString.
Import ListNotations.
Open Scope string_scope.
Open Scope nat_scope.
Open Scope list_scope.

(** ** Platform: JavaScript strings *)

Module JS.

Definition dquote : ascii := "034"%char.
Definition newline : ascii := "010"%char.
Definition backslash : ascii := "092"%char.

(** [WhiteSpace] and [LineTerminator] of ECMAScript within the alphabet:
    TAB, LF, VT, FF, CR, SP and NBSP.  [String.prototype.trim] strips them. *)
Definition isWhiteSpace (c : ascii) : bool :=
  let n := nat_of_ascii c in
  (n =? 9) || (n =? 10) || (n =? 11) || (n =? 12) || (n =? 13)
  || (n =? 32) || (n =? 160).

Fixpoint trimStart (s : string) : string :=
  match s with
  | EmptyString => EmptyString
  | String c r => if isWhiteSpace c then trimStart r else s
  end.

Fixpoint trimEnd (s : string) : string :=
  match s with
  | EmptyString => EmptyString
  | String c r =>
      match trimEnd r with
      | EmptyString => if isWhiteSpace c then EmptyString else String c EmptyString
      | r' => String c r'
      end
  end.

(** [s.trim()] *)
Definition trim (s : string) : string := trimEnd (trimStart s).

(** [s.split(sep)] for a one-character separator: never the empty list. *)
Fixpoint split (sep : ascii) (s : string) : list string :=
  match s with
  | EmptyString => [EmptyString]
  | String c r =>
      if Ascii.eqb c sep then EmptyString :: split sep r
      else match split sep r with
           | h :: t => String c h :: t
           | [] => [String c EmptyString]
           end
  end.

(** [s.startsWith(p)] *)
Definition startsWith (p s : string) : bool := String.prefix p s.

(** [s.includes(p)] *)
Fixpoint includes (p s : string) : bool :=
  String.prefix p s ||
  match s with
  | EmptyString => false
  | String _ r => includes p r
  end.

(** [s.indexOf(c)] for a one-character pattern; [None] is JavaScript's -1. *)
Fixpoint indexOf (c : ascii) (s : string) : option nat :=
  match s with
  | EmptyString => None
  | String d r =>
      if Ascii.eqb d c then Some 0
      else match indexOf c r with Some n => Some (S n) | None => None end
  end.

(** [s.substring(a, b)]: the arguments are clamped by the length and swapped
    when [a > b]. *)
Definition substring (a b : nat) (s : string) : string :=
  String.substring (Nat.min a b) (Nat.max a b - Nat.min a b) s.

(** [s.substring(a)] *)
Definition substringFrom (a : nat) (s : string) : string :=
  String.substring a (String.length s - a) s.

Definition isDigit (c : ascii) : bool :=
  let n := nat_of_ascii c in (48 <=? n) && (n <=? 57).

Definition toLower (c : ascii) : ascii :=
  let n := nat_of_ascii c in
  if (65 <=? n) && (n <=? 90) then ascii_of_nat (n + 32) else c.

(** The rest of [s] after the prefix [p], letters compared without case. *)
Fixpoint afterPrefixCI (p s : string) : option string :=
  match p, s with
  | EmptyString, _ => Some s
  | String _ _, EmptyString => None
  | String a p', String b s' =>
      if Ascii.eqb (toLower a) (toLower b) then afterPrefixCI p' s' else None
  end.

Fixpoint takeDigits (s : string) : string :=
  match s with
  | String c r => if isDigit c then String c (takeDigits r) else EmptyString
  | EmptyString => EmptyString
  end.

(** [parseInt(d, 10)] on a string of decimal digits. *)
Definition parseInt (d : string) : nat :=
  fold_left (fun acc c => 10 * acc + (nat_of_ascii c - 48))
            (list_ascii_of_string d) 0.

(** [s.match(/column (\d+)/i)]: the first capture group of the leftmost
    match, [None] when the pattern occurs nowhere. *)
Fixpoint matchColumn (s : string) : option string :=
  let here :=
    match afterPrefixCI "column " s with
    | Some rest =>
        match takeDigits rest with
        | EmptyString => None
        | d => Some d
        end
    | None => None
    end in
  match here with
  | Some d => Some d
  | None =>
      match s with
      | EmptyString => None
      | String _ r => matchColumn r
      end
  end.

(** Decimal numeral of a natural number, as template literals print it. *)
Definition ofNat (n : nat) : string :=
  NilEmpty.string_of_uint (Nat.to_uint n).

End JS.

(** ** Values of type [any] *)

(** What [JSON.parse] returns, and [undefined], which a property read adds.
    A number keeps its lexeme. *)
#[warnings="-register-all"]
Inductive jsval : Type :=
| JUndefined
| JNull
| JBool (b : bool)
| JNum (lexeme : string)
| JStr (s : string)
| JArr (elems : list jsval)
| JObj (props : list (string * jsval)).

(** What a call of [JSON.parse] does: it returns a value or throws a
    [SyntaxError] with a message. *)
Inductive ParseResult : Type :=
| Parsed (data : jsval)
| SyntaxError (message : string).

Module Json.

(** Own property [k] of an object literal read from text: with a repeated
    name the last occurrence holds the value. *)
Fixpoint lookup (k : string) (props : list (string * jsval)) : option jsval :=
  match props with
  | [] => None
  | (k', v) :: rest =>
      match lookup k rest with
      | Some v' => Some v'
      | None => if String.eqb k k' then Some v else None
      end
  end.

(** A lexer or parser step: the value read, the text left and the index
    reached, or what went wrong and where [current] stood. *)
Inductive lex (A : Type) : Type :=
| LOk (a : A) (rest : string) (pos : nat)
| LErr (what : string) (pos : nat).
Arguments LOk {A} a rest pos.
Arguments LErr {A} what pos.

Definition isJSONWhitespace (c : ascii) : bool :=
  let n := nat_of_ascii c in
  (n =? 9) || (n =? 13) || (n =? 10) || (n =? 32).

Fixpoint skipWs (s : string) (pos : nat) : string * nat :=
  match s with
  | String c r => if isJSONWhitespace c then skipWs r (S pos) else (s, pos)
  | EmptyString => (s, pos)
  end.

Definition isHex (c : ascii) : bool :=
  let n := nat_of_ascii c in
  ((48 <=? n) && (n <=? 57)) || ((65 <=? n) && (n <=? 70))
  || ((97 <=? n) && (n <=? 102)).

Definition hexVal (c : ascii) : nat :=
  let n := nat_of_ascii c in
  if n <=? 57 then n - 48 else if n <=? 70 then n - 55 else n - 87.

(** How many of the first four characters are hexadecimal digits, counted
    up to the first that is not. *)
Fixpoint hexRun (k : nat) (s : string) : nat :=
  match k, s with
  | S k', String c r => if isHex c then S (hexRun k' r) else 0
  | _, _ => 0
  end.

Definition simpleEscape (c : ascii) : option ascii :=
  let n := nat_of_ascii c in
  if n =? 34 then Some JS.dquote
  else if n =? 47 then Some "/"%char
  else if n =? 92 then Some JS.backslash
  else if n =? 98 then Some (ascii_of_nat 8)
  else if n =? 102 then Some (ascii_of_nat 12)
  else if n =? 110 then Some (ascii_of_nat 10)
  else if n =? 114 then Some (ascii_of_nat 13)
  else if n =? 116 then Some (ascii_of_nat 9)
  else None.

(** The body of a string literal, [s] standing just after the opening quote
    at index [pos]; [acc] holds the characters read so far. *)
Fixpoint readStringBody (s : string) (pos : nat) (acc : string) : lex string :=
  match s with
  | EmptyString => LErr "unterminated string" pos
  | String c r =>
      if Ascii.eqb c JS.dquote then LOk acc r (S pos)
      else if Ascii.eqb c JS.backslash then
        match r with
        | EmptyString => LErr "unterminated string" (S pos)
        | String e r2 =>
            match simpleEscape e with
            | Some ch => readStringBody r2 (pos + 2) (acc ++ String ch EmptyString)%string
            | None =>
                if Ascii.eqb e "u"%char then
                  match r2 with
                  | String h1 (String h2 (String h3 (String h4 r6))) =>
                      if isHex h1 && isHex h2 && isHex h3 && isHex h4 then
                        let v := ((hexVal h1 * 16 + hexVal h2) * 16 + hexVal h3) * 16
                                 + hexVal h4 in
                        if v <? 256 then
                          readStringBody r6 (pos + 6)
                                         (acc ++ String (ascii_of_nat v) EmptyString)%string
                        else LErr "code unit outside the 8-bit alphabet" (pos + 2)
                      else LErr "bad Unicode escape" (pos + 2 + hexRun 4 r2)
                  | _ => LErr "bad Unicode escape" (pos + 2 + hexRun 4 r2)
                  end
                else LErr "bad escaped character" (S pos)
            end
        end
      else if nat_of_ascii c <=? 31 then
        LErr "bad control character in string literal" pos
      else readStringBody r (S pos) (acc ++ String c EmptyString)%string
  end.

(** A string token; [s] stands just after the opening quote. *)
Definition readString (s : string) (pos : nat) : lex string :=
  match s with
  | EmptyString => LErr "unterminated string literal" pos
  | _ => readStringBody s pos EmptyString
  end.

Fixpoint spanDigits (s : string) (pos : nat) (acc : string) : string * string * nat :=
  match s with
  | String c r =>
      if JS.isDigit c then spanDigits r (S pos) (acc ++ String c EmptyString)%string
      else (acc, s, pos)
  | EmptyString => (acc, s, pos)
  end.

(** A number token; [s] starts with [-] or a digit. *)
Definition readNumber (s : string) (pos : nat) : lex string :=
  let '(sign, s0, p0) :=
    match s with
    | String c r => if Ascii.eqb c "-"%char then ("-", r, S pos) else ("", s, pos)
    | EmptyString => ("", s, pos)
    end in
  match s0 with
  | EmptyString => LErr "no number after minus sign" p0
  | String d r0 =>
      if negb (JS.isDigit d) then LErr "unexpected non-digit" p0
      else
        let '(int, s1, p1) :=
          if Ascii.eqb d "0"%char then ("0", r0, S p0)
          else spanDigits r0 (S p0) (String d EmptyString) in
        let fraction :=
          match s1 with
          | String c r1 =>
              if Ascii.eqb c "."%char then
                match r1 with
                | EmptyString => LErr "missing digits after decimal point" (S p1)
                | String f _ =>
                    if JS.isDigit f then
                      let '(ds, s2, p2) := spanDigits r1 (S p1) "." in LOk ds s2 p2
                    else LErr "unterminated fractional number" (S p1)
                end
              else LOk "" s1 p1
          | EmptyString => LOk "" s1 p1
          end in
        match fraction with
        | LErr w p => LErr w p
        | LOk frac s2 p2 =>
            let exponent :=
              match s2 with
              | String c r2 =>
                  if Ascii.eqb c "e"%char || Ascii.eqb c "E"%char then
                    match r2 with
                    | EmptyString =>
                        LErr "missing digits after exponent indicator" (S p2)
                    | String g r3 =>
                        let '(esign, s3, p3) :=
                          if Ascii.eqb g "+"%char || Ascii.eqb g "-"%char
                          then (String c (String g EmptyString), r3, p2 + 2)
                          else (String c EmptyString, r2, S p2) in
                        match s3 with
                        | EmptyString =>
                            LErr "missing digits after exponent sign" p3
                        | String h _ =>
                            if JS.isDigit h then
                              let '(ds, s4, p4) := spanDigits s3 p3 esign in
                              LOk ds s4 p4
                            else LErr "exponent part is missing a number" p3
                        end
                    end
                  else LOk "" s2 p2
              | EmptyString => LOk "" s2 p2
              end in
            match exponent with
            | LErr w p => LErr w p
            | LOk ex s5 p5 => LOk (sign ++ int ++ frac ++ ex)%string s5 p5
            end
        end
  end.

(** [JSONValue]: skip white space, read one token and the value it starts.
    [parseElements] continues an array after its opening bracket,
    [parseMembers] an object from the opening quote of a property name.
    The fuel bounds the nesting and the number of elements. *)
Fixpoint parseValue (fuel : nat) (s : string) (pos : nat) {struct fuel} : lex jsval :=
  match fuel with
  | O => LErr "too much recursion" pos
  | S f =>
      let '(s1, p1) := skipWs s pos in
      match s1 with
      | EmptyString => LErr "unexpected end of data" p1
      | String c r =>
          if Ascii.eqb c JS.dquote then
            match readString r (S p1) with
            | LOk str r' p' => LOk (JStr str) r' p'
            | LErr w p => LErr w p
            end
          else if Ascii.eqb c "-"%char || JS.isDigit c then
            match readNumber s1 p1 with
            | LOk n r' p' => LOk (JNum n) r' p'
            | LErr w p => LErr w p
            end
          else if Ascii.eqb c "t"%char then
            if String.prefix "true" s1
            then LOk (JBool true) (JS.substringFrom 4 s1) (p1 + 4)
            else LErr "unexpected keyword" p1
          else if Ascii.eqb c "f"%char then
            if String.prefix "false" s1
            then LOk (JBool false) (JS.substringFrom 5 s1) (p1 + 5)
            else LErr "unexpected keyword" p1
          else if Ascii.eqb c "n"%char then
            if String.prefix "null" s1
            then LOk JNull (JS.substringFrom 4 s1) (p1 + 4)
            else LErr "unexpected keyword" p1
          else if Ascii.eqb c "["%char then
            let '(s2, p2) := skipWs r (S p1) in
            match s2 with
            | String d r2 =>
                if Ascii.eqb d "]"%char then LOk (JArr []) r2 (S p2)
                else parseElements f s2 p2 []
            | EmptyString => parseElements f s2 p2 []
            end
          else if Ascii.eqb c "{"%char then
            let '(s2, p2) := skipWs r (S p1) in
            match s2 with
            | EmptyString => LErr "end of data while reading object contents" p2
            | String d r2 =>
                if Ascii.eqb d JS.dquote then parseMembers f s2 p2 []
                else if Ascii.eqb d "}"%char then LOk (JObj []) r2 (S p2)
                else LErr "expected property name or '}'" p2
            end
          else LErr "unexpected character" p1
      end
  end

with parseElements (fuel : nat) (s : string) (pos : nat) (acc : list jsval)
       {struct fuel} : lex jsval :=
  match fuel with
  | O => LErr "too much recursion" pos
  | S f =>
      match parseValue f s pos with
      | LErr w p => LErr w p
      | LOk v r p =>
          let '(s1, p1) := skipWs r p in
          match s1 with
          | EmptyString => LErr "end of data when ',' or ']' was expected" p1
          | String c r1 =>
              if Ascii.eqb c ","%char then parseElements f r1 (S p1) (acc ++ [v])
              else if Ascii.eqb c "]"%char then LOk (JArr (acc ++ [v])) r1 (S p1)
              else LErr "expected ',' or ']' after array element" p1
          end
      end
  end

with parseMembers (fuel : nat) (s : string) (pos : nat)
       (acc : list (string * jsval)) {struct fuel} : lex jsval :=
  match fuel with
  | O => LErr "too much recursion" pos
  | S f =>
      match s with
      | EmptyString => LErr "end of data when property name was expected" pos
      | String _ afterQuote =>
          match readString afterQuote (S pos) with
          | LErr w p => LErr w p
          | LOk name r p =>
              let '(s1, p1) := skipWs r p in
              match s1 with
              | EmptyString =>
                  LErr "end of data after property name when ':' was expected" p1
              | String c r1 =>
                  if negb (Ascii.eqb c ":"%char)
                  then LErr "expected ':' after property name in object" p1
                  else
                    match parseValue f r1 (S p1) with
                    | LErr w p' => LErr w p'
                    | LOk v r2 p2 =>
                        let '(s3, p3) := skipWs r2 p2 in
                        match s3 with
                        | EmptyString =>
                            LErr "end of data after property value in object" p3
                        | String d r3 =>
                            if Ascii.eqb d "}"%char
                            then LOk (JObj (acc ++ [(name, v)])) r3 (S p3)
                            else if Ascii.eqb d ","%char then
                              let '(s4, p4) := skipWs r3 (S p3) in
                              match s4 with
                              | EmptyString =>
                                  LErr "end of data when property name was expected" p4
                              | String e _ =>
                                  if Ascii.eqb e JS.dquote
                                  then parseMembers f s4 p4 (acc ++ [(name, v)])
                                  else LErr "expected double-quoted property name" p4
                              end
                            else
                              LErr "expected ',' or '}' after property value in object" p3
                        end
                    end
              end
          end
      end
  end.

(** Line and column of index [pos] in [s], both from 1; LF, CR and CR LF
    each end a line. *)
Fixpoint textPosition (s : string) (pos row col : nat) : nat * nat :=
  match pos, s with
  | S p, String c r =>
      if Ascii.eqb c JS.newline then textPosition r p (S row) 1
      else if Ascii.eqb c (ascii_of_nat 13) then
        match p, r with
        | S p', String d r' =>
            if Ascii.eqb d JS.newline then textPosition r' p' (S row) 1
            else textPosition r p (S row) 1
        | _, _ => textPosition r p (S row) 1
        end
      else textPosition r p row (S col)
  | _, _ => (row, col)
  end.

Definition errorMessage (s what : string) (pos : nat) : string :=
  let '(row, col) := textPosition s pos 1 1 in
  ("JSON.parse: " ++ what ++ " at line " ++ JS.ofNat row
   ++ " column " ++ JS.ofNat col ++ " of the JSON data")%string.

(** [JSON.parse(text)] with the diagnostics of the engine the hook's repair
    code is written against: the message names what went wrong and the line
    and column where the parser stood.  The grammar is that of ECMA-404; an
    escape [\uXXXX] above 00FF has no character in the 8-bit alphabet and is
    reported as an error of its own. *)
Definition parse (text : string) : ParseResult :=
  match parseValue (2 * String.length text + 2) text 0 with
  | LErr what pos => SyntaxError (errorMessage text what pos)
  | LOk v rest pos =>
      match skipWs rest pos with
      | (EmptyString, _) => Parsed v
      | (_, p) =>
          SyntaxError
            (errorMessage text "unexpected non-whitespace character after JSON data" p)
      end
  end.

(** Test inputs are written with an apostrophe for the double quote and a
    dollar sign for the line feed. *)
Fixpoint wire (s : string) : string :=
  match s with
  | EmptyString => EmptyString
  | String c r =>
      String (if Ascii.eqb c "'"%char then JS.dquote
              else if Ascii.eqb c "$"%char then JS.newline else c)
             (wire r)
  end.

End Json.

(** ** Reading values of type [any] *)

(** [v.k] for the property names this hook reads ([type], [message],
    [session_id], [response], [citation_array]): an own property of an
    object read from JSON, [undefined] on every other value but [null]
    (whose property reads throw; the callers check for it first). *)
Definition getProp (k : string) (v : jsval) : jsval :=
  match v with
  | JObj props =>
      match Json.lookup k props with
      | Some x => x
      | None => JUndefined
      end
  | _ => JUndefined
  end.

(** [v === s] for a string constant [s] *)
Definition strictEqStr (v : jsval) (s : string) : bool :=
  match v with
  | JStr t => String.eqb t s
  | _ => false
  end.

Module Num.

Fixpoint digitsValue (s : string) (acc : N) : N :=
  match s with
  | String c r =>
      if JS.isDigit c then digitsValue r (10 * acc + N.of_nat (nat_of_ascii c - 48))%N
      else digitsValue r acc
  | EmptyString => acc
  end.

(** Splits a lexeme at its exponent mark. *)
Fixpoint splitExp (s : string) : string * option string :=
  match s with
  | EmptyString => (EmptyString, None)
  | String c r =>
      if Ascii.eqb c "e"%char || Ascii.eqb c "E"%char then (EmptyString, Some r)
      else let '(m, e) := splitExp r in (String c m, e)
  end.

Fixpoint fractionDigits (s : string) : nat :=
  match s with
  | EmptyString => 0
  | String c r => if Ascii.eqb c "."%char then String.length r else fractionDigits r
  end.

(** Whether the double a JSON number denotes is zero: its digits are all
    zero, or its value is at most 2^-1075 and rounds to zero. *)
Definition isZero (lexeme : string) : bool :=
  let '(mant, ex) := splitExp lexeme in
  let m := Z.of_N (digitsValue mant 0) in
  let e :=
    match ex with
    | None => 0%Z
    | Some x =>
        let v := Z.of_N (digitsValue x 0) in
        if JS.startsWith "-" x then (- v)%Z else v
    end in
  let scale := (e - Z.of_nat (fractionDigits mant))%Z in
  (m =? 0)%Z || ((scale <? 0)%Z && (m * 2 ^ 1075 <=? 10 ^ (- scale))%Z).

Definition isNegative (lexeme : string) : bool := JS.startsWith "-" lexeme.

(** Whether the double a JSON number denotes is above zero. *)
Definition isPositive (lexeme : string) : bool :=
  negb (isZero lexeme) && negb (isNegative lexeme).

Fixpoint allOf (p : ascii -> bool) (s : string) : bool :=
  match s with
  | EmptyString => true
  | String c r => p c && allOf p r
  end.

(** Splits a mantissa at its decimal point. *)
Fixpoint splitDot (s : string) : string * option string :=
  match s with
  | EmptyString => (EmptyString, None)
  | String c r =>
      if Ascii.eqb c "."%char then (EmptyString, Some r)
      else let '(w, f) := splitDot r in (String c w, f)
  end.

(** [StrUnsignedDecimalLiteral] other than [Infinity]: digits with an
    optional point, at least one digit before or behind it, and an optional
    exponent of digits with an optional sign. *)
Definition isDecimalLiteral (s : string) : bool :=
  let '(mant, ex) := splitExp s in
  let '(whole, frac) := splitDot mant in
  allOf JS.isDigit whole
  && match frac with
     | None => negb (String.eqb whole "")
     | Some f =>
         allOf JS.isDigit f && negb (String.eqb whole "" && String.eqb f "")
     end
  && match ex with
     | None => true
     | Some x =>
         let d :=
           match x with
           | String c r =>
               if Ascii.eqb c "+"%char || Ascii.eqb c "-"%char then r else x
           | EmptyString => x
           end in
         allOf JS.isDigit d && negb (String.eqb d "")
     end.

Definition inRange (lo hi : nat) (c : ascii) : bool :=
  let n := nat_of_ascii c in (lo <=? n) && (n <=? hi).

Definition isHexDigit (c : ascii) : bool :=
  JS.isDigit c || inRange 97 102 c || inRange 65 70 c.

(** [NonDecimalIntegerLiteral]: the digits its prefix [0x], [0o] or [0b]
    (in either case) admits, and the text behind the prefix. *)
Definition nonDecimal (s : string) : option ((ascii -> bool) * string) :=
  match s with
  | String z (String k r) =>
      if negb (Ascii.eqb z "0"%char) then None
      else if Ascii.eqb k "x"%char || Ascii.eqb k "X"%char then Some (isHexDigit, r)
      else if Ascii.eqb k "o"%char || Ascii.eqb k "O"%char then Some (inRange 48 55, r)
      else if Ascii.eqb k "b"%char || Ascii.eqb k "B"%char then Some (inRange 48 49, r)
      else None
  | _ => None
  end.

(** [s > 0] for a string [s], which [StringToNumber] converts: white space
    around the literal is dropped, the empty text is zero, a text that is
    no numeric literal is [NaN], which is above nothing; a sign goes with a
    decimal literal only. *)
Definition stringAbove0 (s : string) : bool :=
  let t := JS.trim s in
  match nonDecimal t with
  | Some (digit, r) =>
      negb (String.eqb r "") && allOf digit r
      && negb (allOf (Ascii.eqb "0"%char) r)
  | None =>
      let unsigned :=
        match t with
        | String c r =>
            if Ascii.eqb c "-"%char then None
            else if Ascii.eqb c "+"%char then Some r
            else Some t
        | EmptyString => Some t
        end in
      match unsigned with
      | None => false
      | Some u =>
          String.eqb u "Infinity" || (isDecimalLiteral u && negb (isZero u))
      end
  end.

End Num.

(** [ToBoolean] *)
Definition truthy (v : jsval) : bool :=
  match v with
  | JUndefined | JNull => false
  | JBool b => b
  | JNum n => negb (Num.isZero n)
  | JStr s => negb (String.eqb s "")
  | JArr _ | JObj _ => true
  end.

(** Whether [ToPrimitive] finds a primitive value for [v].  An object read
    from JSON has no callable property of its own, so an own [toString]
    shadows the inherited method and the conversion throws a [TypeError];
    an array is joined, which converts its elements in turn. *)
Fixpoint convertible (v : jsval) : bool :=
  match v with
  | JObj props =>
      match Json.lookup "toString" props with
      | Some _ => false
      | None => true
      end
  | JArr l => forallb convertible l
  | _ => true
  end.

(** [Number(String(v)) > 0] for a convertible [v] that is no boolean: a
    number prints as a text that reads back as itself, an array of one
    element prints as that element does, and every other text ([null] and
    [undefined] in an array print as nothing, several elements are joined
    by commas, an object prints as [[object Object]]) is zero or [NaN]. *)
Fixpoint textAbove0 (v : jsval) : bool :=
  match v with
  | JNum n => Num.isPositive n
  | JStr s => Num.stringAbove0 s
  | JArr [e] => textAbove0 e
  | _ => false
  end.

(** [v > 0] for a convertible [v] *)
Definition above0 (v : jsval) : bool :=
  match v with
  | JBool b => b
  | _ => textAbove0 v
  end.

(** [v.length > 0]; [None] when the comparison throws.  A string and an
    array have their length; on an object [length] is an own property,
    which the comparison converts to a number; other values have no
    [length] and [undefined > 0] is false. *)
Definition lengthPositive (v : jsval) : option bool :=
  match v with
  | JStr s => Some (0 <? String.length s)
  | JArr l => Some (0 <? List.length l)
  | JObj _ =>
      let length := getProp "length" v in
      if convertible length then Some (above0 length) else None
  | _ => Some false
  end.

(** [content.includes('```')]: a substring test on a string, a membership
    test on an array; every other value has no such method and the call
    throws a [TypeError] ([None]). *)
Definition includesFence (content : jsval) : option bool :=
  match content with
  | JStr s => Some (JS.includes "```" s)
  | JArr l => Some (existsb (fun x => strictEqStr x "```") l)
  | _ => None
  end.

(** ** The hook's data *)

Inductive Sender : Type := user | bot.

Inductive MessageType : Type := text | code | markdown | canvas | image.

Definition Sender_eqb (a b : Sender) : bool :=
  match a, b with
  | user, user | bot, bot => true
  | _, _ => false
  end.

Definition MessageType_eqb (a b : MessageType) : bool :=
  match a, b with
  | text, text | code, code | markdown, markdown | canvas, canvas
  | image, image => true
  | _, _ => false
  end.

Module FileObject.
Record t : Type := { id : string; name : string; type : string; url : string }.
End FileObject.

Module ProcessingStep.
(** [message] is whatever the frame carried. *)
Record t : Type :=
  { message : jsval; collapsed : option bool; completed : option bool }.
End ProcessingStep.

Module Message.
(** The fields filled from a frame ([content], [hasCitations], [citations])
    hold what the frame carried. *)
Record t : Type :=
  { id : string;
    sender : Sender;
    timestamp : Z;
    content : jsval;
    type : MessageType;
    files : option (list FileObject.t);
    hasCode : bool;
    hasCitations : jsval;
    processingSteps : option (list ProcessingStep.t);
    citations : jsval }.
End Message.

Module ChatState.
Record t : Type :=
  { messages : list Message.t;
    isTyping : bool;
    files : list FileObject.t;
    canvasContent : option string;
    currentSession : jsval;
    processingSteps : list ProcessingStep.t }.
End ChatState.

(** What [generateId()] and [Date.now()] return in one call of the hook. *)
Record Fresh : Type := { newId : string; now : Z }.

(** A thrown value, as far as the handlers look at it. *)
Record Exn : Type := { instanceofSyntaxError : bool; message : string }.

(** The body handed to [fetch] before [JSON.stringify]. *)
Record RequestBody : Type := { user_query : jsval; session_id : option jsval }.

(** The two call sites of [JSON.parse] in the chunk loop, with the text
    passed: the line itself and the repaired line. *)
Inductive Call : Type :=
| StrictParse (line : string)
| RepairParse (fixedLine : string).

(** The locals of the chunk loop that outlive one chunk, next to the
    variables of the [for] loop. *)
Record Loop : Type :=
  { isComplete : bool;
    responseData : jsval;
    collectedSteps : list ProcessingStep.t;
    currentBuffer : string }.

(** Where the activation of [processChat] is suspended: at [fetch], or at
    [reader.read()] with [collectedSteps] and [buffer]. *)
Inductive Phase : Type :=
| AwaitingResponse
| Reading (collected : list ProcessingStep.t) (buffer : string).

(** A suspended activation: [snap] is the [state] its closure captured. *)
Record Activation : Type := { snap : ChatState.t; phase : Phase }.

Module Deferred.
(** The closure handed to [setTimeout]. *)
Record t : Type :=
  { responseData : jsval;
    hasCitations : jsval;
    collectedSteps : list ProcessingStep.t }.
End Deferred.

Record World : Type :=
  { state : ChatState.t;
    processingRef : bool;
    active : option Activation;
    timers : list Deferred.t;
    sent : list RequestBody;
    parses : list Call }.

Inductive Event : Type :=
| CallAddMessage (fr : Fresh) (content : string) (sender : Sender)
    (type : MessageType) (files : option (list FileObject.t))
    (hasCitations : jsval) (steps : option (list ProcessingStep.t))
    (citations : jsval)
| CallProcessChat (query : string)
| CallRegenerate (messageId : string)
| CallClear
| CallAddFile (fr : Fresh) (name type url : string)
| CallRemoveFile (fileId : string)
| CallToggleCanvas (content : string)
| CallClearCanvas
| FetchRejected (fr : Fresh) (err : Exn)
| FetchResolved (fr : Fresh) (ok : bool) (status : nat) (hasBody : bool)
| ReadChunk (fr : Fresh) (chunk : string)
| ReadDone (fr : Fresh)
| ReadRejected (fr : Fresh) (err : Exn)
| TimerFired (fr : Fresh).

(** ** The updaters handed to [setState] *)

Module Update.
Import ChatState.

Definition startTyping (prev : t) : t :=
  {| messages := messages prev; isTyping := true; files := files prev;
     canvasContent := canvasContent prev; currentSession := currentSession prev;
     processingSteps := [] |}.

Definition pushStep (step : ProcessingStep.t) (prev : t) : t :=
  {| messages := messages prev; isTyping := isTyping prev; files := files prev;
     canvasContent := canvasContent prev; currentSession := currentSession prev;
     processingSteps := processingSteps prev ++ [step] |}.

Definition saveSession (session : jsval) (prev : t) : t :=
  {| messages := messages prev; isTyping := isTyping prev; files := files prev;
     canvasContent := canvasContent prev; currentSession := session;
     processingSteps := processingSteps prev |}.

Definition stopTyping (prev : t) : t :=
  {| messages := messages prev; isTyping := false; files := files prev;
     canvasContent := canvasContent prev; currentSession := currentSession prev;
     processingSteps := processingSteps prev |}.

(** [[...prev.processingSteps.slice(0, -1), { ...finalStep }]] *)
Definition replaceLastStep (finalStep : ProcessingStep.t) (prev : t) : t :=
  {| messages := messages prev; isTyping := isTyping prev; files := files prev;
     canvasContent := canvasContent prev; currentSession := currentSession prev;
     processingSteps := removelast (processingSteps prev) ++ [finalStep] |}.

Definition clearSteps (prev : t) : t :=
  {| messages := messages prev; isTyping := isTyping prev; files := files prev;
     canvasContent := canvasContent prev; currentSession := currentSession prev;
     processingSteps := [] |}.

Definition stopTypingClearSteps (prev : t) : t :=
  {| messages := messages prev; isTyping := false; files := files prev;
     canvasContent := canvasContent prev; currentSession := currentSession prev;
     processingSteps := [] |}.

Definition appendMessage (newMessage : Message.t) (prev : t) : t :=
  {| messages := messages prev ++ [newMessage]; isTyping := isTyping prev;
     files := []; canvasContent := canvasContent prev;
     currentSession := currentSession prev;
     processingSteps := processingSteps prev |}.

Definition truncateMessages (updatedMessages : list Message.t) (prev : t) : t :=
  {| messages := updatedMessages; isTyping := isTyping prev; files := files prev;
     canvasContent := canvasContent prev; currentSession := currentSession prev;
     processingSteps := [] |}.

Definition cleared : t :=
  {| messages := []; isTyping := false; files := []; canvasContent := None;
     currentSession := JUndefined; processingSteps := [] |}.

Definition pushFile (f : FileObject.t) (prev : t) : t :=
  {| messages := messages prev; isTyping := isTyping prev;
     files := files prev ++ [f]; canvasContent := canvasContent prev;
     currentSession := currentSession prev;
     processingSteps := processingSteps prev |}.

Definition dropFile (fileId : string) (prev : t) : t :=
  {| messages := messages prev; isTyping := isTyping prev;
     files := filter (fun f => negb (String.eqb (FileObject.id f) fileId)) (files prev);
     canvasContent := canvasContent prev; currentSession := currentSession prev;
     processingSteps := processingSteps prev |}.

Definition setCanvas (c : option string) (prev : t) : t :=
  {| messages := messages prev; isTyping := isTyping prev; files := files prev;
     canvasContent := c; currentSession := currentSession prev;
     processingSteps := processingSteps prev |}.

End Update.

(** [setState] on the world: the updater is applied to the current state. *)
Definition setState (f : ChatState.t -> ChatState.t) (w : World) : World :=
  {| state := f (state w); processingRef := processingRef w; active := active w;
     timers := timers w; sent := sent w; parses := parses w |}.

(** ** The hook *)

(** The four texts a failed turn shows ([processChat], the outer [catch]). *)
Module Text.
Definition generic : string :=
  "Sorry, there was an error processing your request. Please try again.".
Definition badData : string :=
  "Sorry, there was an error processing the response data. This might be due to a temporary issue with our servers. Please try again in a moment.".
Definition incomplete : string :=
  "We didn't receive a complete response from our servers. This might be due to a timeout or connection issue. Please try a shorter query or try again later.".
Definition unreachable : string :=
  "Sorry, we couldn't reach our servers. Please check your internet connection and try again.".
Definition emptyBody : string :=
  "We received an empty response from our servers. Please try again.".
End Text.

(** The errors [processChat] throws itself. *)
Definition requestFailed (status : nat) : Exn :=
  {| instanceofSyntaxError := false;
     message := ("API request failed with status " ++ JS.ofNat status)%string |}.
Definition bodyIsNull : Exn :=
  {| instanceofSyntaxError := false; message := "Response body is null" |}.
Definition noCompleteResponse : Exn :=
  {| instanceofSyntaxError := false;
     message := "No complete response received from API" |}.

(** The [TypeError] of a comparison whose operand has no primitive value.
    The wording is the engine's, as those of [JSON.parse] are; it is no
    [SyntaxError] and names none of the errors the outer [catch] tells
    apart. *)
Definition notPrimitive : Exn :=
  {| instanceofSyntaxError := false;
     message := "can't convert responseData.citation_array.length to number" |}.

(** [error.message && error.message.includes(p)] *)
Definition messageIncludes (p : string) (error : Exn) : bool :=
  negb (String.eqb (message error) "") && JS.includes p (message error).

(** The text chosen in the outer [catch] of [processChat]. *)
Definition errorMessageFor (error : Exn) : string :=
  if instanceofSyntaxError error && JS.includes "JSON" (message error)
  then Text.badData
  else if messageIncludes "No complete response received" error then Text.incomplete
  else if messageIncludes "API request failed" error then Text.unreachable
  else if messageIncludes "Response body is null" error then Text.emptyBody
  else Text.generic.

(** [sanitizeLine]: a line that does not start with an opening brace is cut
    down to its first opening brace, when it has one. *)
Definition sanitizeLine (rawLine : string) : string :=
  if negb (JS.startsWith "{" rawLine) then
    match JS.indexOf "{"%char rawLine with
    | Some jsonStart => JS.substringFrom jsonStart rawLine
    | None => rawLine
    end
  else rawLine.

(** The repaired line the inner [catch] tries, from the line and the
    message of the [SyntaxError]: a closing quote appended for an
    unterminated string, two characters cut out at the reported column for
    an unexpected character. *)
Definition repairCandidate (line msg : string) : option string :=
  if JS.includes "column" msg then
    match JS.matchColumn msg with
    | Some digits =>
        let columnPos := JS.parseInt digits in
        if JS.includes "unterminated string" msg then
          Some (line ++ String JS.dquote EmptyString)%string
        else if JS.includes "unexpected character" msg then
          if (0 <? columnPos) && (columnPos <? String.length line) then
            Some (JS.substring 0 (Nat.max 0 (columnPos - 1)) line
                  ++ JS.substringFrom (Nat.min (String.length line) (columnPos + 1)) line)%string
          else None
        else None
    | None => None
    end
  else None.

(** [data.type === "processing_step" || data.type === "complete"], after
    the repair; on [null] the read throws and the repair is given up. *)
Definition recognized (data : jsval) : bool :=
  match data with
  | JNull => false
  | _ => strictEqStr (getProp "type" data) "processing_step"
         || strictEqStr (getProp "type" data) "complete"
  end.

Definition newStep (data : jsval) : ProcessingStep.t :=
  {| ProcessingStep.message := getProp "message" data;
     ProcessingStep.collapsed := Some false;
     ProcessingStep.completed := None |}.

Definition setBuffer (line : string) (l : Loop) : Loop :=
  {| isComplete := isComplete l; responseData := responseData l;
     collectedSteps := collectedSteps l; currentBuffer := line |}.

(** The [try] block after [JSON.parse] returned [data]; [None] when
    [data.type] throws, which it does on [null].  [snap] is the state the
    closure captured: the session is saved when the frame carries one and
    [snap] has none. *)
Definition dispatch (snap : ChatState.t) (data : jsval) (l : Loop)
    (st : ChatState.t) : option (Loop * ChatState.t) :=
  match data with
  | JNull => None
  | _ =>
      if strictEqStr (getProp "type" data) "processing_step" then
        let step := newStep data in
        Some ({| isComplete := isComplete l; responseData := responseData l;
                 collectedSteps := collectedSteps l ++ [step];
                 currentBuffer := currentBuffer l |},
              Update.pushStep step st)
      else if strictEqStr (getProp "type" data) "complete" then
        Some ({| isComplete := true; responseData := data;
                 collectedSteps := collectedSteps l;
                 currentBuffer := currentBuffer l |},
              if truthy (getProp "session_id" data)
                 && negb (truthy (ChatState.currentSession snap))
              then Update.saveSession (getProp "session_id" data) st
              else st)
      else Some (l, st)
  end.

Section Hook.

(** The platform's [JSON.parse]. *)
Variable JSON_parse : string -> ParseResult.

(** What the [try] block of a line throws: a [SyntaxError] of [JSON.parse]
    with its message, or the [TypeError] of reading [type] on [null]. *)
Inductive Thrown : Type :=
| ThrownSyntaxError (message : string)
| ThrownTypeError.

(** The [try] block on a line: parse, then dispatch. *)
Definition tryBlock (snap : ChatState.t) (line : string) (l : Loop)
    (st : ChatState.t) : (Loop * ChatState.t) + Thrown :=
  match JSON_parse line with
  | Parsed data =>
      match dispatch snap data l st with
      | Some r => inl r
      | None => inr ThrownTypeError
      end
  | SyntaxError msg => inr (ThrownSyntaxError msg)
  end.

(** How the [catch] block leaves the loop: the line becomes the buffer (it
    was the last of the chunk), the loop goes on with the next line, or it
    runs again on the repaired line ([lines[i] = fixedLine; i--]). *)
Inductive Next : Type :=
| Buffer
| Continue
| Reprocess (fixedLine : string).

(** The [catch] block of a line, with the calls of [JSON.parse] it makes. *)
Definition catchBlock (isLast : bool) (line : string) (error : Thrown)
    : Next * list Call :=
  if isLast then (Buffer, [])
  else
    match error with
    | ThrownSyntaxError msg =>
        match repairCandidate line msg with
        | Some fixedLine =>
            (match JSON_parse fixedLine with
             | Parsed data => if recognized data then Reprocess fixedLine else Continue
             | SyntaxError _ => Continue
             end,
             [RepairParse fixedLine])
        | None => (Continue, [])
        end
    | ThrownTypeError => (Continue, [])
    end.

(** [i === lines.length - 1] for the line at the head of [lines[i..]] *)
Definition isLastLine (rest : list string) : bool :=
  match rest with
  | [] => true
  | _ :: _ => false
  end.

(** The [for] loop over the lines of one chunk, from index [i] on: [lines]
    is [lines[i..]].  Every turn of the loop costs one unit of fuel; [tr]
    collects the calls of [JSON.parse]. *)
Fixpoint forLines (fuel : nat) (snap : ChatState.t) (lines : list string)
    (l : Loop) (st : ChatState.t) (tr : list Call) {struct fuel}
    : option (Loop * ChatState.t * list Call) :=
  match fuel with
  | O => None
  | S fuel' =>
      match lines with
      | [] => Some (l, st, tr)
      | raw :: rest =>
          if String.eqb (JS.trim raw) "" then forLines fuel' snap rest l st tr
          else
            let line := sanitizeLine (JS.trim raw) in
            match tryBlock snap line l st with
            | inl (l', st') =>
                forLines fuel' snap rest l' st' (tr ++ [StrictParse line])
            | inr error =>
                match catchBlock (isLastLine rest) line error with
                | (Buffer, calls) =>
                    forLines fuel' snap rest (setBuffer line l) st
                             (tr ++ StrictParse line :: calls)
                | (Continue, calls) =>
                    forLines fuel' snap rest l st (tr ++ StrictParse line :: calls)
                | (Reprocess fixedLine, calls) =>
                    forLines fuel' snap (fixedLine :: rest) l st
                             (tr ++ StrictParse line :: calls)
                end
            end
      end
  end.

(** The lines of a chunk, the buffered text put before the first. *)
Definition chunkLines (buffer chunk : string) : list string :=
  let lines := JS.split JS.newline chunk in
  if 0 <? String.length buffer then
    match lines with
    | first :: others => (buffer ++ first)%string :: others
    | [] => [buffer]
    end
  else lines.

(** One turn of the [while] loop on a chunk. *)
Definition processChunk (fuel : nat) (snap : ChatState.t)
    (collected : list ProcessingStep.t) (buffer chunk : string)
    (st : ChatState.t) (tr : list Call)
    : option (Loop * ChatState.t * list Call) :=
  forLines fuel snap (chunkLines buffer chunk)
           {| isComplete := false; responseData := JNull;
              collectedSteps := collected; currentBuffer := "" |}
           st tr.

(** [collectedSteps[collectedSteps.length - 1]] *)
Fixpoint lastStep (steps : list ProcessingStep.t) : option ProcessingStep.t :=
  match steps with
  | [] => None
  | [s] => Some s
  | _ :: rest => lastStep rest
  end.

(** [finalStep.completed = true] *)
Definition complete (finalStep : ProcessingStep.t) : ProcessingStep.t :=
  {| ProcessingStep.message := ProcessingStep.message finalStep;
     ProcessingStep.collapsed := ProcessingStep.collapsed finalStep;
     ProcessingStep.completed := Some true |}.

(** [collectedSteps] after that assignment: the array holds the step object
    itself, so its last entry is the one marked.  The same object ends the
    state's list while that list is not empty; the updater that follows
    puts a copy of it there. *)
Fixpoint markFinal (steps : list ProcessingStep.t) : list ProcessingStep.t :=
  match steps with
  | [] => []
  | [s] => [complete s]
  | s :: rest => s :: markFinal rest
  end.

(** [responseData.citation_array && responseData.citation_array.length > 0];
    [None] when the comparison throws. *)
Definition hasCitationsOf (responseData : jsval) : option jsval :=
  let citation_array := getProp "citation_array" responseData in
  if truthy citation_array then
    match lengthPositive citation_array with
    | Some b => Some (JBool b)
    | None => None
    end
  else Some citation_array.

(** [requestBody]: the query, and the session of the captured state when
    it has one. *)
Definition requestOf (snap : ChatState.t) (query : jsval) : RequestBody :=
  {| user_query := query;
     session_id :=
       if truthy (ChatState.currentSession snap)
       then Some (ChatState.currentSession snap) else None |}.

(** [processChat] up to [fetch]: the gate, the typing indicator, the
    request.  [snap] is the state of the render whose closure is called. *)
Definition processChat (snap : ChatState.t) (query : jsval) (w : World) : World :=
  if processingRef w then w
  else
    {| state := Update.startTyping (state w);
       processingRef := true;
       active := Some {| snap := snap; phase := AwaitingResponse |};
       timers := timers w;
       sent := sent w ++ [requestOf snap query];
       parses := parses w |}.

(** The message [addMessage] builds; a missing [hasCitations] defaults to
    [false]. *)
Definition newMessage (fr : Fresh) (content : jsval) (hasCode : bool)
    (sender : Sender) (type : MessageType)
    (files : option (list FileObject.t)) (hasCitations : jsval)
    (steps : option (list ProcessingStep.t)) (citations : jsval) : Message.t :=
  {| Message.id := newId fr;
     Message.sender := sender;
     Message.timestamp := now fr;
     Message.content := content;
     Message.type := type;
     Message.files := files;
     Message.hasCode := hasCode;
     Message.hasCitations :=
       match hasCitations with JUndefined => JBool false | h => h end;
     Message.processingSteps := steps;
     Message.citations := citations |}.

(** [addMessage]; [None] when building the message throws (a content that
    is neither a string nor an array). *)
Definition addMessage (fr : Fresh) (snap : ChatState.t) (content : jsval)
    (sender : Sender) (type : MessageType)
    (files : option (list FileObject.t)) (hasCitations : jsval)
    (steps : option (list ProcessingStep.t)) (citations : jsval)
    (w : World) : option World :=
  match includesFence content with
  | None => None
  | Some hasCode =>
      let w1 :=
        setState
          (Update.appendMessage
             (newMessage fr content hasCode sender type files hasCitations steps
                         citations)) w in
      Some (if Sender_eqb sender user && MessageType_eqb type text
               && negb (processingRef w1)
            then processChat snap content w1
            else w1)
  end.

(** The outer [catch] and the [finally] of [processChat]. *)
Definition failTurn (fr : Fresh) (snap : ChatState.t) (error : Exn) (w : World)
    : World :=
  let w1 := setState Update.stopTypingClearSteps w in
  let w2 :=
    match addMessage fr snap (JStr (errorMessageFor error)) bot markdown None
                     (JBool false) None JUndefined w1 with
    | Some w' => w'
    | None => w1
    end in
  {| state := state w2; processingRef := false; active := None;
     timers := timers w2; sent := sent w2; parses := parses w2 |}.

(** After the [while] loop, with a [responseData] and its [hasCitations]:
    the last step is marked and shown, the timer is set, and the [finally]
    opens the gate. *)
Definition finishTurn (hasCitations : jsval) (l : Loop) (w : World) : World :=
  let w1 :=
    match lastStep (collectedSteps l) with
    | None => w
    | Some finalStep => setState (Update.replaceLastStep (complete finalStep)) w
    end in
  {| state := state w1; processingRef := false; active := None;
     timers := timers w1 ++
               [{| Deferred.responseData := responseData l;
                   Deferred.hasCitations := hasCitations;
                   Deferred.collectedSteps := markFinal (collectedSteps l) |}];
     sent := sent w1; parses := parses w1 |}.

(** The code after the [while] loop, reached when a terminal frame was read
    or the reader reported the end: the typing indicator goes off, then the
    turn finishes, or throws: for want of a response, or in the comparison
    that computes [hasCitations]. *)
Definition afterLoop (fr : Fresh) (snap : ChatState.t) (l : Loop) (w : World)
    : World :=
  let w1 := setState Update.stopTyping w in
  if truthy (responseData l) then
    match hasCitationsOf (responseData l) with
    | Some hasCitations => finishTurn hasCitations l w1
    | None => failTurn fr snap notPrimitive w1
    end
  else failTurn fr snap noCompleteResponse w1.

(** The callback of [setTimeout]: the progress list is cleared and the
    answer appended; when [addMessage] throws, the list stays cleared.  The
    message is the bot's, so the state of the closure is not read. *)
Definition fireTimer (fr : Fresh) (d : Deferred.t) (w : World) : World :=
  let w1 := setState Update.clearSteps w in
  let h := Deferred.hasCitations d in
  match addMessage fr (state w1) (getProp "response" (Deferred.responseData d))
                   bot markdown None h (Some (Deferred.collectedSteps d))
                   (if truthy h
                    then getProp "citation_array" (Deferred.responseData d)
                    else JUndefined) w1 with
  | Some w' => w'
  | None => w1
  end.

(** [messages.findIndex(msg => msg.id === messageId)], counting from [i];
    [None] is JavaScript's -1. *)
Fixpoint findIndexFrom (i : nat) (messageId : string) (ms : list Message.t)
    : option nat :=
  match ms with
  | [] => None
  | m :: rest =>
      if String.eqb (Message.id m) messageId then Some i
      else findIndexFrom (S i) messageId rest
  end.

Definition findIndex (messageId : string) (ms : list Message.t) : option nat :=
  findIndexFrom 0 messageId ms.

(** [regenerateMessage], called from a render of the current state. *)
Definition regenerateMessage (messageId : string) (w : World) : World :=
  let st := state w in
  match findIndex messageId (ChatState.messages st) with
  | None => w
  | Some messageIndex =>
      match nth_error (ChatState.messages st) messageIndex with
      | None => w
      | Some messageToRegenerate =>
          if negb (Sender_eqb (Message.sender messageToRegenerate) user) then w
          else
            let updatedMessages := firstn (messageIndex + 1) (ChatState.messages st) in
            processChat st (Message.content messageToRegenerate)
                        (setState (Update.truncateMessages updatedMessages) w)
      end
  end.

(** [clearChat] *)
Definition clearChat (w : World) : World := setState (fun _ => Update.cleared) w.

Definition setActive (a : option Activation) (w : World) : World :=
  {| state := state w; processingRef := processingRef w; active := a;
     timers := timers w; sent := sent w; parses := parses w |}.

(** One event.  A call from the page runs the closures of the render of the
    current state; a resumption runs the suspended activation.  An event
    that finds nothing to resume changes nothing.  [None]: the chunk loop
    ran out of fuel. *)
Definition step (fuel : nat) (w : World) (e : Event) : option World :=
  match e with
  | CallAddMessage fr content sender type files hasCitations steps citations =>
      addMessage fr (state w) (JStr content) sender type files hasCitations
                 steps citations w
  | CallProcessChat query => Some (processChat (state w) (JStr query) w)
  | CallRegenerate messageId => Some (regenerateMessage messageId w)
  | CallClear => Some (clearChat w)
  | CallAddFile fr name type url =>
      Some (setState (Update.pushFile
                        {| FileObject.id := newId fr; FileObject.name := name;
                           FileObject.type := type; FileObject.url := url |}) w)
  | CallRemoveFile fileId => Some (setState (Update.dropFile fileId) w)
  | CallToggleCanvas content => Some (setState (Update.setCanvas (Some content)) w)
  | CallClearCanvas => Some (setState (Update.setCanvas None) w)
  | FetchRejected fr err =>
      match active w with
      | Some {| snap := snap; phase := AwaitingResponse |} =>
          Some (failTurn fr snap err w)
      | _ => Some w
      end
  | FetchResolved fr ok status hasBody =>
      match active w with
      | Some {| snap := snap; phase := AwaitingResponse |} =>
          if negb ok then Some (failTurn fr snap (requestFailed status) w)
          else if negb hasBody then Some (failTurn fr snap bodyIsNull w)
          else Some (setActive (Some {| snap := snap; phase := Reading [] "" |}) w)
      | _ => Some w
      end
  | ReadChunk fr chunk =>
      match active w with
      | Some {| snap := snap; phase := Reading collected buffer |} =>
          match processChunk fuel snap collected buffer chunk (state w) (parses w) with
          | None => None
          | Some (l, st, tr) =>
              let w1 :=
                {| state := st; processingRef := processingRef w;
                   active := active w; timers := timers w; sent := sent w;
                   parses := tr |} in
              if isComplete l then Some (afterLoop fr snap l w1)
              else
                Some (setActive
                        (Some {| snap := snap;
                                 phase := Reading (collectedSteps l) (currentBuffer l) |})
                        w1)
          end
      | _ => Some w
      end
  | ReadDone fr =>
      match active w with
      | Some {| snap := snap; phase := Reading collected buffer |} =>
          Some (afterLoop fr snap
                  {| isComplete := false; responseData := JNull;
                     collectedSteps := collected; currentBuffer := buffer |} w)
      | _ => Some w
      end
  | ReadRejected fr err =>
      match active w with
      | Some {| snap := snap; phase := Reading _ _ |} => Some (failTurn fr snap err w)
      | _ => Some w
      end
  | TimerFired fr =>
      match timers w with
      | [] => Some w
      | d :: later =>
          Some (fireTimer fr d
                  {| state := state w; processingRef := processingRef w;
                     active := active w; timers := later; sent := sent w;
                     parses := parses w |})
      end
  end.

(** A run of events. *)
Fixpoint run (fuel : nat) (w : World) (es : list Event) : option World :=
  match es with
  | [] => Some w
  | e :: rest =>
      match step fuel w e with
      | Some w' => run fuel w' rest
      | None => None
      end
  end.

End Hook.

(** The hook before the first call, with nothing in local storage. *)
Definition initial : World :=
  {| state := Update.cleared; processingRef := false; active := None;
     timers := []; sent := []; parses := [] |}.

(** ** The page *)

(** [handleSendMessage] of the page ([Chat] and [Index]): the text goes to
    [addMessage] as the user's, with a copy of the queued files when there
    are any.  The closure is the one of the current render. *)
Definition handleSendMessage (fr : Fresh) (message : string) (w : World)
    : option World :=
  addMessage fr (state w) (JStr message) user text
             (match ChatState.files (state w) with
              | [] => None
              | queued => Some queued
              end)
             JUndefined None JUndefined w.

(** [handleSubmit] of [ChatInput]: a draft with something besides white
    space goes to [onSendMessage] as it stands and the box is emptied; any
    other draft stays where it is.  The result is what is sent, if anything,
    and the draft afterwards. *)
Module ChatInput.

Definition handleSubmit (message : string) : option string * string :=
  if negb (String.eqb (JS.trim message) "") then (Some message, ""%string)
  else (None, message).

End ChatInput.

(** The send button of the page: [handleSubmit] with [handleSendMessage]
    for [onSendMessage]. *)
Definition submitDraft (fr : Fresh) (draft : string) (w : World)
    : option (World * string) :=
  match ChatInput.handleSubmit draft with
  | (Some message, draft') =>
      match handleSendMessage fr message w with
      | Some w' => Some (w', draft')
      | None => None
      end
  | (None, draft') => Some (w, draft')
  end.

(** How [ProcessingStepsHandler] draws a step: green with a check mark,
    blue and pulsing, or grey. *)
Inductive Look : Type := Checked | Streamed | Plain.

(** The body of [steps.map] in [ProcessingStepsHandler]. *)
Definition stepLook (isStreaming : bool) (count index : nat)
    (step : ProcessingStep.t) : Look :=
  let completed :=
    match ProcessingStep.completed step with
    | Some b => b
    | None => false
    end in
  let isLastStep := index =? count - 1 in
  let isStreamed := isStreaming && isLastStep && negb completed in
  let isCompleted := completed || false in
  if isCompleted then Checked else if isStreamed then Streamed else Plain.

Fixpoint looksFrom (isStreaming : bool) (count index : nat)
    (steps : list ProcessingStep.t) : list Look :=
  match steps with
  | [] => []
  | step :: rest =>
      stepLook isStreaming count index step
      :: looksFrom isStreaming count (S index) rest
  end.

(** A value React takes as a child: a string or a number is drawn as
    text, [null], [undefined] and the booleans as nothing, an array as its
    elements; an object read from JSON is refused, and rendering throws. *)
Fixpoint validChild (v : jsval) : bool :=
  match v with
  | JObj _ => false
  | JArr l => forallb validChild l
  | _ => true
  end.

(** Every [step.message] can stand in its paragraph. *)
Definition drawable (steps : list ProcessingStep.t) : bool :=
  forallb (fun step => validChild (ProcessingStep.message step)) steps.

(** The looks of the steps of an open panel, in their order; [None] when
    rendering the panel throws.  A collapsed panel draws its heading and
    no step. *)
Definition stepLooks (isStreaming : bool) (steps : list ProcessingStep.t)
    : option (list Look) :=
  if drawable steps
  then Some (looksFrom isStreaming (List.length steps) 0 steps)
  else None.

(** What [renderCitationBadges] returns: [null], or the block of sources
    with one button for each citation, labelled with its [company_name];
    when [citations] is falsy that value stands in the place of the
    buttons. *)
Inductive Badges : Type :=
| NoSources
| SourcesWithout (citations : jsval)
| Sources (labels : list jsval).

(** [citation.company_name] for every citation; reading it on [null] or
    [undefined] throws ([None]). *)
Fixpoint companyNames (citations : list jsval) : option (list jsval) :=
  match citations with
  | [] => Some []
  | JNull :: _ | JUndefined :: _ => None
  | citation :: rest =>
      match companyNames rest with
      | Some names => Some (getProp "company_name" citation :: names)
      | None => None
      end
  end.

(** [renderCitationBadges]; [None] when it throws: [citations] is truthy
    and has no [map] to call, or one of the citations is [null]. *)
Definition renderCitationBadges (message : Message.t) : option Badges :=
  if negb (truthy (Message.hasCitations message)) then Some NoSources
  else if negb (truthy (Message.citations message))
  then Some (SourcesWithout (Message.citations message))
  else
    match Message.citations message with
    | JArr citations =>
        match companyNames citations with
        | Some names => Some (Sources names)
        | None => None
        end
    | _ => None
    end.

(** The elements [renderChatItems] collects, each with its [key]. *)
Inductive Item : Type :=
| ChatMessageItem (key : string) (message : Message.t)
| CitationsItem (key : string) (badges : Badges)
| StepsItem (key : string) (steps : list ProcessingStep.t)
    (collapsed isStreaming : bool).

Definition senderName (s : Sender) : string :=
  match s with
  | user => "user"
  | bot => "bot"
  end.

(** [items.splice(start, 0, item)]: a [start] beyond the end is the end. *)
Definition splice (start : nat) (item : Item) (items : list Item) : list Item :=
  firstn start items ++ item :: skipn start items.

(** [messageMap.get(id)]: the value set last for the key. *)
Fixpoint mapGet (id : string) (messageMap : list (string * nat)) : option nat :=
  match messageMap with
  | [] => None
  | (k, v) :: older => if String.eqb k id then Some v else mapGet id older
  end.

(** The variables of [renderChatItems] that its first loop fills;
    [messageMap] holds the entries set, the newest first. *)
Record FirstLoop : Type :=
  { items : list Item;
    messageMap : list (string * nat);
    lastUserMessageIndex : option nat;
    lastMessageIsBot : bool }.

(** The body of [state.messages.forEach]; [None] when rendering the badges
    throws. *)
Definition pushMessage (acc : FirstLoop) (message : Message.t)
    : option FirstLoop :=
  let isUser := Sender_eqb (Message.sender message) user in
  let lastUser :=
    if isUser then Some (List.length (items acc)) else lastUserMessageIndex acc in
  let items1 :=
    items acc
    ++ [ChatMessageItem (senderName (Message.sender message) ++ "-"
                         ++ Message.id message) message] in
  let map1 := (Message.id message, List.length items1 - 1) :: messageMap acc in
  if negb isUser && truthy (Message.hasCitations message) then
    match renderCitationBadges message with
    | Some badges =>
        Some {| items := items1
                         ++ [CitationsItem ("citations-" ++ Message.id message) badges];
                messageMap := map1;
                lastUserMessageIndex := lastUser;
                lastMessageIsBot := negb isUser |}
    | None => None
    end
  else
    Some {| items := items1; messageMap := map1;
            lastUserMessageIndex := lastUser;
            lastMessageIsBot := negb isUser |}.

Fixpoint firstLoop (acc : FirstLoop) (messages : list Message.t)
    : option FirstLoop :=
  match messages with
  | [] => Some acc
  | message :: rest =>
      match pushMessage acc message with
      | Some acc' => firstLoop acc' rest
      | None => None
      end
  end.

(** [j] after [let j = i - 1; while (j >= 0 && messages[j].sender !== 'user')
    j--]; [None] is -1.  The loop runs below [i], an index of the list, so
    every [messages[j]] it reads is there. *)
Fixpoint lastUserBefore (messages : list Message.t) (i : nat) : option nat :=
  match i with
  | O => None
  | S j =>
      match nth_error messages j with
      | Some message =>
          if Sender_eqb (Message.sender message) user then Some j
          else lastUserBefore messages j
      | None => lastUserBefore messages j
      end
  end.

(** [message.processingSteps && message.processingSteps.length > 0] *)
Definition hasSteps (message : Message.t) : bool :=
  match Message.processingSteps message with
  | Some (_ :: _) => true
  | _ => false
  end.

Definition stepsOf (message : Message.t) : list ProcessingStep.t :=
  match Message.processingSteps message with
  | Some steps => steps
  | None => []
  end.

(** The panel of the steps attached to a message of the history. *)
Definition attachedPanel (message : Message.t) : Item :=
  StepsItem ("steps-" ++ Message.id message) (stepsOf message) true false.

(** The second loop of [renderChatItems], from index [i] on; [rest] is
    [messages[i..]].  The result is [items] and [insertedCount].  The
    message at [j] is there whenever [j] is found, and the panel is left
    out when the map has no place for its id ([userPos !== undefined]). *)
Fixpoint insertPanels (messages : list Message.t)
    (messageMap : list (string * nat)) (i : nat) (rest : list Message.t)
    (items : list Item) (insertedCount : nat) : list Item * nat :=
  match rest with
  | [] => (items, insertedCount)
  | message :: rest' =>
      let skip :=
        insertPanels messages messageMap (S i) rest' items insertedCount in
      if negb (Sender_eqb (Message.sender message) user) && hasSteps message
         && (0 <? i)
      then
        match lastUserBefore messages i with
        | Some j =>
            match nth_error messages j with
            | Some userMessage =>
                match mapGet (Message.id userMessage) messageMap with
                | Some userPos =>
                    insertPanels messages messageMap (S i) rest'
                                 (splice (userPos + 1 + insertedCount)
                                         (attachedPanel message) items)
                                 (S insertedCount)
                | None => skip
                end
            | None => skip
            end
        | None => skip
        end
      else skip
  end.

(** The panel of the turn in flight. *)
Definition currentPanel (st : ChatState.t) : Item :=
  StepsItem "current-processing-steps" (ChatState.processingSteps st) false true.

(** [renderChatItems] of the page [Chat], on the state of the render. *)
Definition renderChatItems (st : ChatState.t) : option (list Item) :=
  let hasPendingSteps := 0 <? List.length (ChatState.processingSteps st) in
  match firstLoop {| items := []; messageMap := [];
                     lastUserMessageIndex := None; lastMessageIsBot := false |}
                  (ChatState.messages st) with
  | None => None
  | Some first =>
      let '(items1, insertedCount) :=
        insertPanels (ChatState.messages st) (messageMap first) 0
                     (ChatState.messages st) (items first) 0 in
      Some
        match lastUserMessageIndex first with
        | Some lastUser =>
            if hasPendingSteps && negb (lastMessageIsBot first)
            then splice (lastUser + 1 + insertedCount) (currentPanel st) items1
            else items1
        | None => items1
        end
  end.

(** How [ChatMessage] draws the content of a message: through the markdown
    renderer, or as plain text with its white space kept. *)
Inductive Rendering : Type := Markdown | PlainText.

(** [renderContent] of [ChatMessage] *)
Definition renderContent (message : Message.t) : Rendering :=
  match Message.type message with
  | code | markdown | canvas => Markdown
  | text | image => PlainText
  end.

(** ** Concrete runs *)

(** Streams and worlds the examples below evaluate, with [Json.parse] for
    [JSON.parse]. *)
Module Scenario.

Definition fresh (id : string) : Fresh := {| newId := id; now := 0%Z |}.

(** The page sends a text message. *)
Definition send (id content : string) : Event :=
  CallAddMessage (fresh id) content user text None JUndefined None JUndefined.

Definition resolved : Event := FetchResolved (fresh "e") true 200 true.

Definition chunk (text : string) : Event := ReadChunk (fresh "e") (Json.wire text).

Definition done : Event := ReadDone (fresh "e").

Definition timer (id : string) : Event := TimerFired (fresh id).

Definition world (es : list Event) : World :=
  match run Json.parse 9 initial es with
  | Some w => w
  | None => initial
  end.

Definition searching : string :=
  "{'type':'processing_step','message':'Searching'}".
Definition readingDocs : string :=
  "{'type':'processing_step','message':'Reading docs'}".
Definition answer : string :=
  "{'type':'complete','response':'Here is the answer','session_id':'abc123'}".

(** A frame whose last string lacks its closing quote. *)
Definition missingQuote : string :=
  "{'type':'processing_step','message':'Searching}".

Definition ok : string := "{'type':'complete','response':'ok'}".


(** The first turn is submitted and the response has arrived. *)
Definition reading : World := Eval vm_compute in world [send "u1" "hi"; resolved].

(** Two progress frames have been read. *)
Definition twoSteps : World :=
  Eval vm_compute in
    world [send "u1" "hi"; resolved; chunk (searching ++ "$" ++ readingDocs ++ "$")].

(** The first turn has ended with the answer and the token [abc123]. *)
Definition answered : World :=
  Eval vm_compute in
    world [send "u1" "hi"; resolved;
           chunk (searching ++ "$" ++ readingDocs ++ "$" ++ answer ++ "$");
           timer "b1"].

End Scenario.

(** Further streams and worlds for the examples. *)
Module Cases.

(** A terminal frame with one citation. *)
Definition cited : string :=
  "{'type':'complete','response':'ok','citation_array':[{'company_name':'Acme','content':'c','link':'l'}]}".

(** A terminal frame whose citations are a string. *)
Definition wrongCitations : string :=
  "{'type':'complete','response':'ok','citation_array':'x'}".

(** A terminal frame without a response. *)
Definition noText : string := "{'type':'complete'}".

(** A terminal frame whose citations are an object with a text for their
    [length]. *)
Definition lengthAsText : string :=
  "{'type':'complete','response':'ok','citation_array':{'length':'2'}}".

(** A terminal frame whose citations are an object with a [length] that
    has no primitive value. *)
Definition unmeasurable : string :=
  "{'type':'complete','response':'ok','citation_array':{'length':{'toString':1}}}".

(** A progress frame whose message is an object. *)
Definition objectMessage : string :=
  "{'type':'processing_step','message':{'a':1}}".

Definition stream : string :=
  (Scenario.searching ++ "$" ++ Scenario.readingDocs ++ "$"
   ++ Scenario.answer ++ "$")%string.

Definition addFile (id name : string) : Event :=
  CallAddFile (Scenario.fresh id) name "text/plain" "blob:1".

(** The first message is sent; [fetch] has not answered. *)
Definition awaiting : World :=
  Eval vm_compute in Scenario.world [Scenario.send "u1" "hi"].

(** The terminal frame has been read; the timer of the answer is pending. *)
Definition finished : World :=
  Eval vm_compute in
    Scenario.world [Scenario.send "u1" "hi"; Scenario.resolved;
                    Scenario.chunk stream].

(** The same with a terminal frame that has no response. *)
Definition finishedWithoutText : World :=
  Eval vm_compute in
    Scenario.world [Scenario.send "u1" "hi"; Scenario.resolved;
                    Scenario.chunk (noText ++ "$")].

(** The same with citations that are a string. *)
Definition finishedWithWrongCitations : World :=
  Eval vm_compute in
    Scenario.world [Scenario.send "u1" "hi"; Scenario.resolved;
                    Scenario.chunk (wrongCitations ++ "$")].

(** The same with citations whose length cannot be measured. *)
Definition failedOnCitations : World :=
  Eval vm_compute in
    Scenario.world [Scenario.send "u1" "hi"; Scenario.resolved;
                    Scenario.chunk (unmeasurable ++ "$")].

(** A progress frame whose message is an object has been read. *)
Definition objectStep : World :=
  Eval vm_compute in
    Scenario.world [Scenario.send "u1" "hi"; Scenario.resolved;
                    Scenario.chunk (objectMessage ++ "$")].

(** A file is queued while the first turn reads its stream. *)
Definition readingWithFile : World :=
  Eval vm_compute in
    Scenario.world [Scenario.send "u1" "hi"; Scenario.resolved;
                    addFile "f1" "notes.txt"].

End Cases.

(** ** The vocabulary of the properties *)

(** The line made [JSON.parse] throw, or read as [null], on which the read of
    [type] throws. *)
Definition throws (JSON_parse : string -> ParseResult) (line : string) : Prop :=
  match JSON_parse line with
  | Parsed JNull => True
  | Parsed _ => False
  | SyntaxError _ => True
  end.


Definition fresh (s : ProcessingStep.t) : Prop :=
  ProcessingStep.completed s = None.



(** The resumptions of the activation and the timer. *)
Definition turnEvent (e : Event) : bool :=
  match e with
  | FetchRejected _ _ | FetchResolved _ _ _ _ | ReadChunk _ _ | ReadDone _
  | ReadRejected _ _ | TimerFired _ => true
  | _ => false
  end.

(** The state holds the token [t], and so does the state captured by the
    activation in flight, when there is one. *)
Definition holdsToken (t : jsval) (w : World) : Prop :=
  ChatState.currentSession (state w) = t
  /\ forall a, active w = Some a -> ChatState.currentSession (snap a) = t.

(** The event is a call of [clearChat]. *)
Definition isClear (e : Event) : bool :=
  match e with
  | CallClear => true
  | _ => false
  end.

(** What the history shows: the content of every message and the steps
    attached to it. *)
Definition shown (w : World) : list (jsval * option (list ProcessingStep.t)) :=
  map (fun m => (Message.content m, Message.processingSteps m))
      (ChatState.messages (state w)).


(** The world with other calls recorded. *)
Definition withParses (tr : list Call) (w : World) : World :=
  {| state := state w; processingRef := processingRef w; active := active w;
     timers := timers w; sent := sent w; parses := tr |}.

(** [rest] is what a reader leaves of [s]: [s] ends with it. *)
Definition leaves (s rest : string) : Prop :=
  exists read, s = (read ++ rest)%string.

(** A turn is suspended at [fetch] or at a read of the stream. *)
Definition inFlight (w : World) : bool :=
  match active w with
  | Some _ => true
  | None => false
  end.

(** Turns of the [for] loop that are enough for the lines of a chunk: one
    for every line, one more for every character a repair can cut away, and
    one to leave the loop. *)
Definition loopFuel (lines : list string) : nat :=
  S (fold_right (fun raw n => S (String.length raw) + n) 0 lines).

(** The events that take nothing out of the history: all but [clearChat]
    and [regenerateMessage]. *)
Definition keepsHistory (e : Event) : bool :=
  match e with
  | CallClear | CallRegenerate _ => false
  | _ => true
  end.

(** The messages among the items, in the order of the items. *)
Definition messagesOf (its : list Item) : list Message.t :=
  flat_map (fun it => match it with
                      | ChatMessageItem _ message => [message]
                      | _ => []
                      end) its.

(** The item is a panel of steps shown as streaming. *)
Definition isLive (it : Item) : bool :=
  match it with
  | StepsItem _ _ _ isStreaming => isStreaming
  | _ => false
  end.

(** The items of one message: the message itself and, for a message of the
    bot that has citations, their badges. *)
Definition blockOf (message : Message.t) : list Item :=
  ChatMessageItem (senderName (Message.sender message) ++ "-" ++ Message.id message)
                  message
  :: (if negb (Sender_eqb (Message.sender message) user)
         && truthy (Message.hasCitations message)
      then match renderCitationBadges message with
           | Some badges =>
               [CitationsItem ("citations-" ++ Message.id message) badges]
           | None => []
           end
      else []).

(** The panels of the messages at the head of [messages] that are not the
    user's, as far as they have steps. *)
Fixpoint panelsOfRun (messages : list Message.t) : list Item :=
  match messages with
  | [] => []
  | message :: rest =>
      if Sender_eqb (Message.sender message) user then []
      else (if hasSteps message then [attachedPanel message] else [])
           ++ panelsOfRun rest
  end.

(** The history laid out: every message with its block, and behind a
    message of the user the panels of the answers that follow it, up to the
    user's next message. *)
Fixpoint layout (messages : list Message.t) : list Item :=
  match messages with
  | [] => []
  | message :: rest =>
      blockOf message
      ++ (if Sender_eqb (Message.sender message) user then panelsOfRun rest else [])
      ++ layout rest
  end.

(** The calls of [addMessage] the page makes are those of
    [handleSendMessage]: the user's text, with neither steps nor citations. *)
Definition fromPage (e : Event) : bool :=
  match e with
  | CallAddMessage _ _ sender type _ JUndefined None JUndefined =>
      Sender_eqb sender user && MessageType_eqb type text
  | CallAddMessage _ _ _ _ _ _ _ _ => false
  | _ => true
  end.

(** Steps as a finished turn leaves them: collected without a flag, the
    last of them then marked. *)
Definition markedLast (steps : list ProcessingStep.t) : Prop :=
  exists collected, Forall fresh collected /\ steps = markFinal collected.

(** What holds of the steps the hook keeps, wherever they are.  Those
    attached to a message and those held by a timer are marked at the end.
    The progress list is empty until the stream is read; while it is read,
    the list is the end of what the activation has collected, no step of
    which is marked; with no turn in flight the list is marked at the end. *)
Definition stepsKept (w : World) : Prop :=
  (forall m steps,
      In m (ChatState.messages (state w)) ->
      Message.processingSteps m = Some steps -> markedLast steps)
  /\ Forall (fun d => markedLast (Deferred.collectedSteps d)) (timers w)
  /\ match active w with
     | None => markedLast (ChatState.processingSteps (state w))
     | Some {| phase := AwaitingResponse |} =>
         ChatState.processingSteps (state w) = []
     | Some {| phase := Reading collected _ |} =>
         Forall fresh collected
         /\ exists earlier,
              collected = earlier ++ ChatState.processingSteps (state w)
     end.

(** The type the hook gives the messages of each sender. *)
Definition typedBySender (m : Message.t) : Prop :=
  Message.type m = match Message.sender m with
                   | user => text
                   | bot => markdown
                   end.

(** ** What the chunk loop keeps *)

Section LoopFacts.

Variable JSON_parse : string -> ParseResult.

Lemma dispatch_None snap data l st :
  dispatch snap data l st = None -> data = JNull.
Proof.
  destruct data; cbn; try discriminate; try reflexivity;
    repeat match goal with |- context [if ?b then _ else _] => destruct b end;
    discriminate.
Qed.

Lemma tryBlock_throws snap line l st error :
  tryBlock JSON_parse snap line l st = inr error -> throws JSON_parse line.
Proof.
  unfold tryBlock, throws. destruct (JSON_parse line) as [data|msg]; [|easy].
  destruct (dispatch snap data l st) eqn:E; [discriminate|].
  apply dispatch_None in E. now subst.
Qed.

Lemma catchBlock_Buffer isLast line error calls :
  catchBlock JSON_parse isLast line error = (Buffer, calls) ->
  isLast = true /\ calls = [].
Proof.
  unfold catchBlock. destruct isLast; [intros [= <-]; auto|].
  destruct error as [msg|]; [|discriminate].
  destruct (repairCandidate line msg); [|discriminate].
  destruct (JSON_parse _) as [data|]; [destruct (recognized data)|]; discriminate.
Qed.

Lemma catchBlock_calls isLast line error :
  List.length (snd (catchBlock JSON_parse isLast line error)) <= 1.
Proof.
  unfold catchBlock. destruct isLast; cbn; [lia|].
  destruct error as [msg|]; cbn; [|lia].
  destruct (repairCandidate line msg); cbn; lia.
Qed.

Lemma isLastLine_app pre (x : string) post :
  isLastLine (pre ++ x :: post) = false \/ (pre = [] /\ post = []).
Proof. destruct pre, post; cbn; auto. Qed.

(** The calls made so far only grow: the loop's result does not depend on
    them. *)
Lemma forLines_trace fuel : forall snap lines l st tr,
  forLines JSON_parse fuel snap lines l st tr =
  match forLines JSON_parse fuel snap lines l st [] with
  | Some (l', st', d) => Some (l', st', tr ++ d)
  | None => None
  end.
Proof.
  induction fuel as [|fuel IH]; intros; cbn [forLines]; [reflexivity|].
  destruct lines as [|raw rest]; [now rewrite app_nil_r|].
  destruct (String.eqb _ _); [apply IH|].
  destruct (tryBlock _ _ _ _ _) as [[l' st']|error].
  - rewrite IH, (IH _ _ _ _ ([] ++ _)).
    destruct (forLines _ _ _ _ _ _ []) as [[[? ?] ?]|]; [|reflexivity].
    now rewrite app_assoc.
  - destruct (catchBlock _ _ _ _) as [[| |fixedLine] calls];
      rewrite IH, (IH _ _ _ _ ([] ++ _));
      (destruct (forLines _ _ _ _ _ _ []) as [[[? ?] ?]|]; [|reflexivity]);
      now rewrite app_assoc.
Qed.

(** More fuel changes nothing once the loop has ended. *)
Lemma forLines_fuel fuel : forall snap lines l st tr r,
  forLines JSON_parse fuel snap lines l st tr = Some r ->
  forLines JSON_parse (S fuel) snap lines l st tr = Some r.
Proof.
  induction fuel as [|fuel IH]; intros snap lines l st tr r H; [discriminate|].
  cbn [forLines] in H. remember (S fuel) as n. cbn [forLines]. subst n.
  destruct lines as [|raw rest]; [exact H|].
  destruct (String.eqb _ _); [now apply IH|].
  destruct (tryBlock _ _ _ _ _) as [[l' st']|error]; [now apply IH|].
  destruct (catchBlock _ _ _ _) as [[| |fixedLine] calls]; now apply IH.
Qed.

Lemma forLines_fuel_le fuel fuel' snap lines l st tr r :
  fuel <= fuel' ->
  forLines JSON_parse fuel snap lines l st tr = Some r ->
  forLines JSON_parse fuel' snap lines l st tr = Some r.
Proof.
  intros Hle H. induction Hle; [exact H|]. now apply forLines_fuel.
Qed.

(** What one dispatched frame does to the loop and to the state. *)
Lemma dispatch_effect snap data l st l' st' :
  dispatch snap data l st = Some (l', st') ->
  currentBuffer l' = currentBuffer l
  /\ ChatState.messages st' = ChatState.messages st
  /\ ChatState.isTyping st' = ChatState.isTyping st
  /\ ChatState.files st' = ChatState.files st
  /\ ChatState.canvasContent st' = ChatState.canvasContent st
  /\ (truthy (ChatState.currentSession snap) = true ->
      ChatState.currentSession st' = ChatState.currentSession st)
  /\ (exists new,
        collectedSteps l' = collectedSteps l ++ new
        /\ ChatState.processingSteps st' = ChatState.processingSteps st ++ new
        /\ Forall fresh new)
  /\ ((isComplete l = true -> truthy (responseData l) = true) ->
      isComplete l' = true -> truthy (responseData l') = true).
Proof.
  unfold dispatch. intros H.
  assert (Hn : forall A (x y : A), (match data with JNull => x | _ => y end) =
                                  if (match data with JNull => true | _ => false end)
                                  then x else y) by (intros; now destruct data).
  rewrite Hn in H. clear Hn.
  destruct (match data with JNull => true | _ => false end) eqn:Hnull; [discriminate|].
  destruct (strictEqStr (getProp "type" data) "processing_step").
  { injection H as <- <-. cbn. repeat split; auto.
    exists [newStep data]. repeat split; auto. constructor; [reflexivity|constructor]. }
  destruct (strictEqStr (getProp "type" data) "complete") eqn:Hc.
  { injection H as <- <-. cbn.
    assert (Ht : truthy data = true).
    { destruct data; cbn in Hc; try discriminate. reflexivity. }
    destruct (truthy (getProp "session_id" data));
      destruct (truthy (ChatState.currentSession snap)); cbn;
      repeat split; auto; try discriminate;
      exists []; rewrite ?app_nil_r; repeat split; auto. }
  injection H as <- <-. repeat split; auto.
  exists []. rewrite ?app_nil_r. repeat split; auto.
Qed.




(** What a chunk does: the buffer at its end, the steps it collects, the
    fields of the state it leaves alone. *)
Lemma forLines_effect fuel : forall snap lines l st tr l' st' tr',
  forLines JSON_parse fuel snap lines l st tr = Some (l', st', tr') ->
  (currentBuffer l' = currentBuffer l
   \/ ((exists before, tr' = before ++ [StrictParse (currentBuffer l')])
       /\ throws JSON_parse (currentBuffer l')))
  /\ ChatState.messages st' = ChatState.messages st
  /\ ChatState.isTyping st' = ChatState.isTyping st
  /\ ChatState.files st' = ChatState.files st
  /\ ChatState.canvasContent st' = ChatState.canvasContent st
  /\ (truthy (ChatState.currentSession snap) = true ->
      ChatState.currentSession st' = ChatState.currentSession st)
  /\ (exists new,
        collectedSteps l' = collectedSteps l ++ new
        /\ ChatState.processingSteps st' = ChatState.processingSteps st ++ new
        /\ Forall fresh new)
  /\ ((isComplete l = true -> truthy (responseData l) = true) ->
      isComplete l' = true -> truthy (responseData l') = true).
Proof.
  induction fuel as [|fuel IH]; intros snap lines l st tr l' st' tr' H;
    [discriminate|].
  cbn [forLines] in H.
  destruct lines as [|raw rest].
  { injection H as <- <- <-. repeat split; auto.
    exists []. rewrite !app_nil_r. repeat split; auto. }
  destruct (String.eqb _ _); [now apply IH in H|].
  destruct (tryBlock _ _ _ _ _) as [[l1 st1]|error] eqn:Htry.
  - apply IH in H.
    unfold tryBlock in Htry.
    destruct (JSON_parse _) as [data|]; [|discriminate].
    destruct (dispatch snap data l st) as [[l2 st2]|] eqn:Hd; [|discriminate].
    injection Htry as -> ->.
    apply dispatch_effect in Hd.
    destruct Hd as (Hb & Hm & Ht & Hf & Hc & Hs & (new1 & Hn1 & Hp1 & Hfr1) & Hcomp).
    destruct H as (Hb' & Hm' & Ht' & Hf' & Hc' & Hs' & (new2 & Hn2 & Hp2 & Hfr2) & Hcomp').
    split; [destruct Hb' as [E|E]; [left; congruence|right; exact E]|].
    repeat split; try congruence.
    + intros Htr. rewrite Hs', Hs; auto.
    + exists (new1 ++ new2). rewrite Hn2, Hn1, Hp2, Hp1, !app_assoc.
      repeat split; auto. apply Forall_app; auto.
    + auto.
  - destruct (catchBlock _ _ _ _) as [[| |fixedLine] calls] eqn:Hcatch.
    + apply catchBlock_Buffer in Hcatch. destruct Hcatch as [Hlast ->].
      destruct rest; [|discriminate].
      destruct fuel; [discriminate|]. cbn in H. injection H as <- <- <-.
      repeat split; auto.
      * right. split; [now exists tr|]. cbn. eapply tryBlock_throws; eauto.
      * exists []. rewrite !app_nil_r. repeat split; auto.
    + now apply IH in H.
    + now apply IH in H.
Qed.

End LoopFacts.

(** ** The texts of a failed turn *)

Lemma includes_ofNat (c : ascii) (p : string) (n : nat) :
  JS.isDigit c = false -> JS.includes (String c p) (JS.ofNat n) = false.
Proof.
  intros Hc. unfold JS.ofNat. generalize (Nat.to_uint n) as u.
  assert (Hd : forall d s, JS.isDigit d = true ->
                           String.prefix (String c p) (String d s) = false).
  { intros d s Hd. cbn. destruct (ascii_dec c d); [congruence|reflexivity]. }
  induction u; cbn [NilEmpty.string_of_uint JS.includes];
    [reflexivity| rewrite Hd, IHu by reflexivity; reflexivity ..].
Qed.

Lemma errorMessageFor_requestFailed (status : nat) :
  errorMessageFor (requestFailed status) = Text.unreachable.
Proof.
  unfold errorMessageFor, messageIncludes, requestFailed. cbn.
  now rewrite includes_ofNat.
Qed.

(** ** Calls from the page *)

Lemma failTurn_keeps fr snap error w :
  ChatState.currentSession (state (failTurn fr snap error w))
  = ChatState.currentSession (state w)
  /\ sent (failTurn fr snap error w) = sent w
  /\ active (failTurn fr snap error w) = None.
Proof. unfold failTurn, addMessage. cbn. auto. Qed.

Lemma finishTurn_keeps h l w :
  ChatState.currentSession (state (finishTurn h l w))
  = ChatState.currentSession (state w)
  /\ sent (finishTurn h l w) = sent w
  /\ active (finishTurn h l w) = None.
Proof. unfold finishTurn. destruct (lastStep _); cbn; auto. Qed.

Lemma afterLoop_keeps fr snap l w :
  ChatState.currentSession (state (afterLoop fr snap l w))
  = ChatState.currentSession (state w)
  /\ sent (afterLoop fr snap l w) = sent w
  /\ active (afterLoop fr snap l w) = None.
Proof.
  unfold afterLoop. destruct (truthy _); [destruct (hasCitationsOf _) as [h|]|].
  - destruct (finishTurn_keeps h l (setState Update.stopTyping w)) as (A & B & C).
    now rewrite A, B, C.
  - destruct (failTurn_keeps fr snap notPrimitive
                             (setState Update.stopTyping w)) as (A & B & C).
    now rewrite A, B, C.
  - destruct (failTurn_keeps fr snap noCompleteResponse
                             (setState Update.stopTyping w)) as (A & B & C).
    now rewrite A, B, C.
Qed.

(** C10. Appending a message sends a request exactly when the sender is the
    user, the type is text and the gate is open; it then sends one request,
    for the content appended.  In every other case nothing is sent and the
    gate and the suspended activation stay as they were.  Nothing is sent
    either when the timer appends the bot's answer or when a turn that
    failed appends its error text. *)
Theorem C10_append_sends_only_user_text_when_idle
    (JSON_parse : string -> ParseResult) (fuel : nat) (w : World) (fr : Fresh)
    (content : string) (sender : Sender) (type : MessageType)
    (files : option (list FileObject.t)) (hasCitations : jsval)
    (steps : option (list ProcessingStep.t)) (citations : jsval) :
  (exists w',
      step JSON_parse fuel w
           (CallAddMessage fr content sender type files hasCitations steps citations)
      = Some w'
      /\ ChatState.messages (state w') =
         ChatState.messages (state w)
         ++ [newMessage fr (JStr content) (JS.includes "```" content) sender type
                        files hasCitations steps citations]
      /\ if Sender_eqb sender user && MessageType_eqb type text
            && negb (processingRef w)
         then sent w' = sent w ++ [requestOf (state w) (JStr content)]
              /\ processingRef w' = true
         else sent w' = sent w /\ processingRef w' = processingRef w
              /\ active w' = active w)
  /\ (exists w'',
         step JSON_parse fuel w (TimerFired fr) = Some w''
         /\ sent w'' = sent w /\ processingRef w'' = processingRef w
         /\ active w'' = active w)
  /\ (exists w'', step JSON_parse fuel w (ReadDone fr) = Some w'' /\ sent w'' = sent w)
  /\ (forall error,
        exists w'',
          step JSON_parse fuel w (FetchRejected fr error) = Some w''
          /\ sent w'' = sent w).
Proof.
  split; [|split; [|split]].
  - cbn. unfold addMessage, processChat, setState. cbn.
    destruct (Sender_eqb sender user && MessageType_eqb type text); cbn;
      [destruct (processingRef w); cbn|]; eexists; repeat split; reflexivity.
  - cbn. destruct (timers w) as [|d later]; [eauto|].
    eexists. split; [reflexivity|].
    unfold fireTimer, addMessage. cbn.
    destruct (includesFence _); cbn; auto.
  - cbn [step]. destruct (active w) as [[snap [|c b]]|]; eauto;
      eexists; (split; [reflexivity|]); apply afterLoop_keeps.
  - intros error. cbn [step]. destruct (active w) as [[snap [|c b]]|]; eauto;
      eexists; (split; [reflexivity|]); apply failTurn_keeps.
Qed.

(** C4. When the reader reports the end while the turn is still reading,
    whatever steps were collected, one bot message is appended: the text
    for an incomplete stream, which differs from the texts for a failed
    request, an empty body and a rejected fetch; it carries no steps, the
    history before it is as it was, the typing indicator is off, the
    progress list is empty, no timer is set and the gate is open. *)
Theorem C4_stream_end_without_terminal_frame
    (JSON_parse : string -> ParseResult) (fuel : nat) (w : World) (fr : Fresh)
    (snap : ChatState.t) (collected : list ProcessingStep.t) (buffer : string) :
  active w = Some {| snap := snap; phase := Reading collected buffer |} ->
  exists w' m,
    step JSON_parse fuel w (ReadDone fr) = Some w'
    /\ ChatState.messages (state w') = ChatState.messages (state w) ++ [m]
    /\ Message.sender m = bot
    /\ Message.content m = JStr Text.incomplete
    /\ Message.processingSteps m = None
    /\ ChatState.isTyping (state w') = false
    /\ ChatState.processingSteps (state w') = []
    /\ timers w' = timers w
    /\ sent w' = sent w
    /\ processingRef w' = false
    /\ active w' = None
    /\ Text.incomplete <> Text.generic
    /\ Text.incomplete <> Text.unreachable
    /\ Text.incomplete <> Text.emptyBody
    /\ errorMessageFor bodyIsNull = Text.emptyBody
    /\ (forall status, errorMessageFor (requestFailed status) = Text.unreachable)
    /\ errorMessageFor {| instanceofSyntaxError := false;
                          message := "Failed to fetch" |} = Text.generic.
Proof.
  intros Hactive. cbn. rewrite Hactive.
  unfold afterLoop. cbn.
  eexists. eexists. split; [reflexivity|]. cbn.
  repeat split; try reflexivity; try discriminate.
  apply errorMessageFor_requestFailed.
Qed.

Lemma findIndexFrom_Some i messageId ms k :
  findIndexFrom i messageId ms = Some k ->
  i <= k /\ exists m, nth_error ms (k - i) = Some m /\ Message.id m = messageId.
Proof.
  revert i. induction ms as [|m0 rest IH]; intros i H; [discriminate|].
  cbn in H. destruct (String.eqb (Message.id m0) messageId) eqn:E.
  - injection H as <-. split; [lia|]. exists m0. rewrite Nat.sub_diag.
    split; [reflexivity|]. now apply String.eqb_eq.
  - apply IH in H. destruct H as (Hle & m & Hn & Hid). split; [lia|].
    exists m. split; [|exact Hid].
    replace (k - i) with (S (k - S i)) by lia. exact Hn.
Qed.

Lemma firstn_succ_nth {A} (l : list A) k x :
  nth_error l k = Some x -> firstn (k + 1) l = firstn k l ++ [x].
Proof.
  revert k. induction l as [|a l IH]; intros [|k] H; try discriminate.
  - injection H as ->. reflexivity.
  - cbn. f_equal. now apply IH.
Qed.

(** C9 (amended). [regenerateMessage] looks the id up.  When no message has
    it, or the first that has it is the bot's, nothing changes.  When it is
    a user message and no turn is in flight, the history is cut to end with
    that message, the progress list is emptied, and one request is sent,
    for that message's content: a new turn, which is the only thing that
    follows the cut. *)
Theorem C9_regenerate_when_idle
    (JSON_parse : string -> ParseResult) (fuel : nat) (w : World)
    (messageId : string) :
  match findIndex messageId (ChatState.messages (state w)) with
  | None => step JSON_parse fuel w (CallRegenerate messageId) = Some w
  | Some k =>
      exists m,
        nth_error (ChatState.messages (state w)) k = Some m
        /\ Message.id m = messageId
        /\ match Message.sender m with
           | bot => step JSON_parse fuel w (CallRegenerate messageId) = Some w
           | user =>
               processingRef w = false ->
               exists w',
                 step JSON_parse fuel w (CallRegenerate messageId) = Some w'
                 /\ ChatState.messages (state w') =
                    firstn k (ChatState.messages (state w)) ++ [m]
                 /\ ChatState.processingSteps (state w') = []
                 /\ ChatState.isTyping (state w') = true
                 /\ sent w' = sent w ++ [requestOf (state w) (Message.content m)]
                 /\ processingRef w' = true
                 /\ active w' = Some {| snap := state w; phase := AwaitingResponse |}
           end
  end.
Proof.
  cbn. unfold regenerateMessage.
  destruct (findIndex messageId (ChatState.messages (state w))) as [k|] eqn:Hk;
    [|reflexivity].
  apply findIndexFrom_Some in Hk. destruct Hk as (_ & m & Hn & Hid).
  rewrite Nat.sub_0_r in Hn. exists m. rewrite Hn.
  split; [reflexivity|]. split; [exact Hid|].
  destruct (Message.sender m); cbn; [|reflexivity].
  intros Hidle. unfold processChat, setState. cbn. rewrite Hidle.
  eexists. split; [reflexivity|]. cbn.
  rewrite (firstn_succ_nth _ _ _ Hn). repeat split; reflexivity.
Qed.

(** ** A submission while a turn is in flight *)













(** ** The end of the stream *)

(** C5 (amended). When a chunk leaves text in the buffer, that text is the
    last thing the chunk handed to [JSON.parse], and the call threw.  When
    the reader then reports the end, the loop parses nothing more: the
    buffered text is dropped and the turn fails for want of a terminal
    frame. *)
Theorem C5_buffer_dropped_at_stream_end
    (JSON_parse : string -> ParseResult) (fuel : nat) (w w1 : World)
    (fr fr' : Fresh) (chunk : string) (snap : ChatState.t)
    (collected : list ProcessingStep.t) (buffer : string) :
  step JSON_parse fuel w (ReadChunk fr chunk) = Some w1 ->
  active w1 = Some {| snap := snap; phase := Reading collected buffer |} ->
  buffer <> "" ->
  (exists before, parses w1 = before ++ [StrictParse buffer])
  /\ throws JSON_parse buffer
  /\ exists w2 m,
       step JSON_parse fuel w1 (ReadDone fr') = Some w2
       /\ parses w2 = parses w1
       /\ active w2 = None
       /\ timers w2 = timers w1
       /\ ChatState.messages (state w2) = ChatState.messages (state w1) ++ [m]
       /\ Message.content m = JStr Text.incomplete.
Proof.
  intros Hstep Hactive Hbuffer.
  assert (Hdone : exists w2 m,
             step JSON_parse fuel w1 (ReadDone fr') = Some w2
             /\ parses w2 = parses w1 /\ active w2 = None
             /\ timers w2 = timers w1
             /\ ChatState.messages (state w2) = ChatState.messages (state w1) ++ [m]
             /\ Message.content m = JStr Text.incomplete).
  { cbn [step]. rewrite Hactive. unfold afterLoop. cbn.
    eexists. eexists. repeat split; reflexivity. }
  cbn [step] in Hstep.
  destruct (active w) as [[snap0 [|collected0 buffer0]]|] eqn:Hw.
  - injection Hstep as <-. congruence.
  - destruct (processChunk _ _ _ _ _ _ _ _) as [[[l st] tr]|] eqn:E; [|discriminate].
    destruct (isComplete l).
    + injection Hstep as <-. exfalso. revert Hactive.
      match goal with |- context [afterLoop ?a ?b ?c ?d] =>
        rewrite (proj2 (proj2 (afterLoop_keeps a b c d))) end.
      discriminate.
    + injection Hstep as <-. cbn in Hactive. injection Hactive as <- <- <-.
      apply forLines_effect in E. destruct E as ([E|[E1 E2]] & _).
      * cbn in E. contradiction.
      * cbn. auto.
  - injection Hstep as <-. congruence.
Qed.

(** ** The session token *)

Lemma processChat_holdsToken t snap query w :
  truthy t = true -> ChatState.currentSession snap = t -> holdsToken t w ->
  holdsToken t (processChat snap query w)
  /\ exists new, sent (processChat snap query w) = sent w ++ new
                 /\ Forall (fun r => session_id r = Some t) new.
Proof.
  intros Ht Hsnap [Hs Ha]. unfold processChat.
  destruct (processingRef w).
  - split; [now split|]. exists []. now rewrite app_nil_r.
  - cbn. split.
    + split; [exact Hs|]. intros a [= <-]. exact Hsnap.
    + eexists. split; [reflexivity|]. constructor; [|constructor].
      unfold requestOf. cbn. now rewrite Hsnap, Ht.
Qed.

(** Closes a case of [step_holdsToken] in which the token, the requests and
    the captured state are kept. *)
Ltac kept Hsame :=
  first
    [ solve [apply Hsame; auto]
    | match goal with
      | |- context [failTurn ?a ?b ?c ?d] =>
          let A := fresh in let B := fresh in let C := fresh in
          destruct (failTurn_keeps a b c d) as (A & B & C);
          apply Hsame; auto; congruence
      | |- context [afterLoop ?a ?b ?c ?d] =>
          let A := fresh in let B := fresh in let C := fresh in
          destruct (afterLoop_keeps a b c d) as (A & B & C);
          apply Hsame; auto; congruence
      end ].

Lemma step_holdsToken JSON_parse fuel t w e w' :
  truthy t = true -> holdsToken t w -> isClear e = false ->
  step JSON_parse fuel w e = Some w' ->
  holdsToken t w'
  /\ exists new, sent w' = sent w ++ new
                 /\ Forall (fun r => session_id r = Some t) new.
Proof.
  intros Ht Hold Hclear Hstep.
  assert (Hsame : forall v, ChatState.currentSession (state v) = t ->
                            sent v = sent w ->
                            (active v = None \/ active v = active w
                             \/ exists a p, active w = Some a
                                  /\ active v = Some {| snap := snap a; phase := p |}) ->
                            holdsToken t v
                            /\ exists new, sent v = sent w ++ new
                                 /\ Forall (fun r => session_id r = Some t) new).
  { intros v Hv Hsent Hact. split.
    - split; [exact Hv|]. intros a Ha.
      destruct Hact as [Hn|[Hn|(a0 & p & Hw & Hn)]].
      + congruence.
      + apply (proj2 Hold). congruence.
      + rewrite Hn in Ha. injection Ha as <-. cbn. now apply (proj2 Hold).
    - exists []. rewrite app_nil_r. auto. }
  destruct Hold as [Hs Ha].
  destruct e; try discriminate; cbn [step] in Hstep.
  - (* addMessage *)
    unfold addMessage in Hstep. cbn [includesFence] in Hstep.
    injection Hstep as <-.
    set (w1 := setState _ w).
    destruct (_ && _ && _).
    + assert (H1 : holdsToken t w1) by (split; [exact Hs|exact Ha]).
      apply (processChat_holdsToken t (state w) (JStr content) w1 Ht Hs) in H1.
      exact H1.
    + apply Hsame; auto.
  - injection Hstep as <-. apply processChat_holdsToken; auto. now split.
  - (* regenerate *)
    injection Hstep as <-. unfold regenerateMessage.
    destruct (findIndex _ _); [|apply Hsame; auto].
    destruct (nth_error _ _) as [m|]; [|apply Hsame; auto].
    destruct (negb _); [apply Hsame; auto|].
    set (w1 := setState _ w).
    assert (H1 : holdsToken t w1) by (split; [exact Hs|exact Ha]).
    apply (processChat_holdsToken t (state w) (Message.content m) w1 Ht Hs) in H1.
    exact H1.
  - injection Hstep as <-. apply Hsame; auto.
  - injection Hstep as <-. apply Hsame; auto.
  - injection Hstep as <-. apply Hsame; auto.
  - injection Hstep as <-. apply Hsame; auto.
  - destruct (active w) as [[snap0 [|c b]]|] eqn:Hw; injection Hstep as <-;
      kept Hsame.
  - destruct (active w) as [[snap0 [|c b]]|] eqn:Hw;
      try (injection Hstep as <-; kept Hsame).
    destruct ok; cbn [negb] in Hstep; [destruct hasBody; cbn [negb] in Hstep|];
      injection Hstep as <-; try kept Hsame.
    apply Hsame; auto. right. right.
    exists {| snap := snap0; phase := AwaitingResponse |}.
    eexists. split; reflexivity.
  - destruct (active w) as [[snap0 [|c b]]|] eqn:Hw;
      try (injection Hstep as <-; kept Hsame).
    destruct (processChunk _ _ _ _ _ _ _ _) as [[[l st] tr]|] eqn:E; [|discriminate].
    apply forLines_effect in E. destruct E as (_ & _ & _ & _ & _ & Hkeep & _).
    assert (Hst : ChatState.currentSession st = t).
    { rewrite Hkeep; [exact Hs|]. pose proof (Ha _ eq_refl) as Hsnap.
      cbn in Hsnap. now rewrite Hsnap. }
    destruct (isComplete l); injection Hstep as <-.
    + match goal with |- context [afterLoop ?a ?b ?c ?d] =>
        destruct (afterLoop_keeps a b c d) as (A & B & C) end.
      apply Hsame; auto. rewrite A. exact Hst.
    + apply Hsame; auto. right. right.
      exists {| snap := snap0; phase := Reading c b |}. eexists.
      split; reflexivity.
  - destruct (active w) as [[snap0 [|c b]]|] eqn:Hw; injection Hstep as <-;
      kept Hsame.
  - destruct (active w) as [[snap0 [|c b]]|] eqn:Hw; injection Hstep as <-;
      kept Hsame.
  - destruct (timers w) as [|d later]; injection Hstep as <-;
      [apply Hsame; now auto|].
    unfold fireTimer, addMessage.
    destruct (includesFence _); apply Hsame; auto.
Qed.

(** Once the state holds a session token, and the activation in flight (if
    any) captured it too, no event other than [clearChat] changes it,
    whatever frames arrive and whatever turns follow, and every request
    sent from then on carries it as [session_id].  A complete frame with a
    truthy [session_id] saves it when the state captured at submission has
    no session. *)
Theorem session_token_is_kept
    (JSON_parse : string -> ParseResult) (fuel : nat) (t : jsval)
    (w w' : World) (es : list Event) :
  truthy t = true ->
  holdsToken t w ->
  forallb (fun e => negb (isClear e)) es = true ->
  run JSON_parse fuel w es = Some w' ->
  holdsToken t w'
  /\ (exists new, sent w' = sent w ++ new
                  /\ Forall (fun r => session_id r = Some t) new)
  /\ (forall snap data l st,
        truthy (ChatState.currentSession snap) = false ->
        strictEqStr (getProp "type" data) "complete" = true ->
        truthy (getProp "session_id" data) = true ->
        exists l',
          dispatch snap data l st
          = Some (l', Update.saveSession (getProp "session_id" data) st)
          /\ responseData l' = data /\ isComplete l' = true).
Proof.
  intros Ht Hold Hes Hrun.
  split; [|split].
  - revert w Hold Hrun. induction es as [|e es IH]; intros w Hold Hrun.
    + injection Hrun as <-. exact Hold.
    + cbn in Hes. apply andb_prop in Hes. destruct Hes as [He Hes].
      cbn [run] in Hrun.
      destruct (step JSON_parse fuel w e) as [w1|] eqn:E; [|discriminate].
      apply (step_holdsToken _ _ t) in E; auto;
        [|now destruct (isClear e)].
      apply (IH Hes w1); [apply E|exact Hrun].
  - revert w Hold Hrun. induction es as [|e es IH]; intros w Hold Hrun.
    + injection Hrun as <-. exists []. now rewrite app_nil_r.
    + cbn in Hes. apply andb_prop in Hes. destruct Hes as [He Hes].
      cbn [run] in Hrun.
      destruct (step JSON_parse fuel w e) as [w1|] eqn:E; [|discriminate].
      apply (step_holdsToken _ _ t) in E; auto;
        [|now destruct (isClear e)].
      destruct E as (H1 & new1 & Hs1 & Hf1).
      destruct (IH Hes w1 H1 Hrun) as (new2 & Hs2 & Hf2).
      exists (new1 ++ new2). rewrite Hs2, Hs1, app_assoc. split; [reflexivity|].
      apply Forall_app; auto.
  - intros snap data l st Hsnap Htype Hsid.
    unfold dispatch.
    assert (Hobj : exists props, data = JObj props).
    { destruct data; cbn in Htype; try discriminate. eauto. }
    destruct Hobj as [props ->].
    destruct (strictEqStr (getProp "type" (JObj props)) "processing_step") eqn:Hp.
    { exfalso. destruct (getProp "type" (JObj props)); try discriminate.
      cbn in Hp, Htype. apply String.eqb_eq in Hp, Htype. congruence. }
    rewrite Htype, Hsid, Hsnap. cbn. eauto.
Qed.

(** ** The terminal frame *)

Lemma markFinal_snoc before final :
  markFinal (before ++ [final]) = before ++ [complete final].
Proof.
  induction before as [|s rest IH]; [reflexivity|].
  cbn [app markFinal]. rewrite IH.
  destruct (rest ++ [final]) eqn:E; [|reflexivity].
  now destruct rest.
Qed.

Lemma finishTurn_effect h l w :
  ChatState.messages (state (finishTurn h l w)) = ChatState.messages (state w)
  /\ ChatState.isTyping (state (finishTurn h l w)) = ChatState.isTyping (state w)
  /\ processingRef (finishTurn h l w) = false
  /\ timers (finishTurn h l w) =
     timers w ++ [{| Deferred.responseData := responseData l;
                     Deferred.hasCitations := h;
                     Deferred.collectedSteps := markFinal (collectedSteps l) |}].
Proof. unfold finishTurn. destruct (lastStep _); cbn; auto. Qed.

Lemma failTurn_effect fr snap error w :
  processingRef (failTurn fr snap error w) = false
  /\ ChatState.isTyping (state (failTurn fr snap error w)) = false
  /\ timers (failTurn fr snap error w) = timers w
  /\ ChatState.messages (state (failTurn fr snap error w))
     = ChatState.messages (state w)
       ++ [newMessage fr (JStr (errorMessageFor error)) false bot markdown None
                      (JBool false) None JUndefined].
Proof.
  unfold failTurn, addMessage. cbn [includesFence].
  assert (H : JS.includes "```" (errorMessageFor error) = false).
  { unfold errorMessageFor.
    repeat match goal with |- context [if ?b then _ else _] => destruct b end;
      reflexivity. }
  rewrite H. cbn. auto.
Qed.

(** C8 (amended). When a chunk brings the terminal frame, the turn ends:
    the gate opens and the typing indicator goes off.  The steps collected
    by the chunk are new ones without a [completed] flag; of the collected
    list only the last step is marked completed, the steps before it stay
    as they were collected, in their order.  When the timer fires, one bot
    message with the frame's response is appended, carrying that list, and
    the progress list is emptied.  The timer is set once [hasCitations] is
    computed; when the comparison [citation_array.length > 0] throws on the
    frame, no timer is set and the turn ends with an error text. *)
Theorem C8_terminal_frame_marks_last_step
    (JSON_parse : string -> ParseResult) (fuel : nat) (w : World)
    (fr fr' : Fresh) (chunk : string) (snap : ChatState.t)
    (collected : list ProcessingStep.t) (buffer : string)
    (l : Loop) (st : ChatState.t) (tr : list Call) :
  active w = Some {| snap := snap; phase := Reading collected buffer |} ->
  timers w = [] ->
  processChunk JSON_parse fuel snap collected buffer chunk (state w) (parses w)
  = Some (l, st, tr) ->
  isComplete l = true ->
  exists w1,
    step JSON_parse fuel w (ReadChunk fr chunk) = Some w1
    /\ processingRef w1 = false
    /\ active w1 = None
    /\ ChatState.isTyping (state w1) = false
    /\ ChatState.currentSession (state w1) = ChatState.currentSession st
    /\ (exists new, collectedSteps l = collected ++ new /\ Forall fresh new)
    /\ (forall before final,
          collectedSteps l = before ++ [final] ->
          markFinal (collectedSteps l) = before ++ [complete final])
    /\ (collectedSteps l = [] -> markFinal (collectedSteps l) = [])
    /\ forall response hasCitations,
         getProp "response" (responseData l) = JStr response ->
         hasCitationsOf (responseData l) = Some hasCitations ->
         exists w2 m,
           step JSON_parse fuel w1 (TimerFired fr') = Some w2
           /\ ChatState.messages (state w2) = ChatState.messages (state w) ++ [m]
           /\ Message.sender m = bot
           /\ Message.content m = JStr response
           /\ Message.processingSteps m = Some (markFinal (collectedSteps l))
           /\ ChatState.processingSteps (state w2) = []
           /\ ChatState.isTyping (state w2) = false
           /\ sent w2 = sent w.
Proof.
  intros Hactive Htimers Hchunk Hcomplete.
  cbn [step]. rewrite Hactive, Hchunk, Hcomplete.
  eexists. split; [reflexivity|].
  pose proof Hchunk as Heff. apply forLines_effect in Heff.
  destruct Heff as (_ & Hm & _ & _ & _ & _ & (new & Hnew & _ & Hfresh) & Htruthy).
  cbn in Htruthy, Hnew.
  assert (Hdata : truthy (responseData l) = true)
    by (apply Htruthy; [discriminate|exact Hcomplete]).
  match goal with |- context [afterLoop ?a ?b ?c ?d] =>
    destruct (afterLoop_keeps a b c d) as (As & Asent & Aa);
    assert (Agate : processingRef (afterLoop a b c d) = false
                    /\ ChatState.isTyping (state (afterLoop a b c d)) = false)
  end.
  { unfold afterLoop. rewrite Hdata.
    destruct (hasCitationsOf _) as [h|].
    - unfold finishTurn. now destruct (lastStep _).
    - match goal with |- context [failTurn ?a ?b ?c ?d] =>
        destruct (failTurn_effect a b c d) as (F1 & F2 & _) end.
      now split. }
  destruct Agate as [Ag At].
  repeat split; auto.
  - eauto.
  - intros before final ->. apply markFinal_snoc.
  - intros ->. reflexivity.
  - intros response hasCitations Hresponse Hcitations.
    unfold afterLoop. rewrite Hdata, Hcitations.
    set (v := setState Update.stopTyping _).
    destruct (finishTurn_effect hasCitations l v) as (Fm & Ft & Fp & Ftimers).
    cbn [step]. rewrite Ftimers. subst v. cbn [timers setState]. rewrite Htimers.
    cbn [app]. unfold fireTimer, addMessage. cbn [Deferred.responseData].
    rewrite Hresponse. cbn [includesFence].
    eexists. eexists. split; [reflexivity|]. cbn.
    unfold finishTurn. destruct (lastStep _); cbn; rewrite Hm; repeat split; reflexivity.
Qed.

(** ** A frame that fails strict parsing *)


(** ** A frame split over two chunks *)

Lemma split_nonempty c s : JS.split c s <> [].
Proof.
  destruct s as [|x s]; cbn; [discriminate|].
  destruct (Ascii.eqb x c); [discriminate|].
  destruct (JS.split c s); discriminate.
Qed.

(** The lines of two texts joined: the last line of the first and the first
    line of the second become one line. *)
Lemma split_app c a b :
  JS.split c (a ++ b) =
  removelast (JS.split c a)
  ++ (last (JS.split c a) "" ++ hd "" (JS.split c b))%string :: tl (JS.split c b).
Proof.
  induction a as [|x a IH].
  - cbn. pose proof (split_nonempty c b). now destruct (JS.split c b).
  - cbn [String.append JS.split]. destruct (Ascii.eqb x c).
    + rewrite IH. pose proof (split_nonempty c a).
      destruct (JS.split c a) as [|h t]; [contradiction|]. reflexivity.
    + rewrite IH. pose proof (split_nonempty c a).
      destruct (JS.split c a) as [|h [|h' t]]; [contradiction| |]; reflexivity.
Qed.

(** The loop on a list of lines that is followed by more lines: where it
    stands when it reaches them.  It has not touched the buffer, it would go
    on from there in the same way with other lines in their place, and when
    it has read no terminal frame it holds the response it started with. *)
Lemma forLines_prefix JSON_parse fuel : forall snap xs zs l st tr r,
  zs <> [] ->
  forLines JSON_parse fuel snap (xs ++ zs) l st tr = Some r ->
  exists lx stx trx f,
    forLines JSON_parse f snap zs lx stx trx = Some r
    /\ currentBuffer lx = currentBuffer l
    /\ (isComplete lx = false ->
        isComplete l = false /\ responseData lx = responseData l)
    /\ forall zs' fuel' r',
         zs' <> [] ->
         forLines JSON_parse fuel' snap zs' lx stx trx = Some r' ->
         forLines JSON_parse (fuel + fuel') snap (xs ++ zs') l st tr = Some r'.
Proof.
  induction fuel as [|fuel IH]; intros snap xs zs l st tr r Hzs Hrun;
    [discriminate|].
  assert (Hlast : forall (p q : list string), q <> [] -> isLastLine (p ++ q) = false).
  { intros p q Hq. destruct p, q; cbn; congruence. }
  destruct xs as [|raw xs].
  - exists l, st, tr, (S fuel).
    split; [exact Hrun|]. split; [reflexivity|]. split; [auto|].
    intros zs' fuel' r' _ H. cbn [app].
    eapply forLines_fuel_le; [|exact H]. lia.
  - cbn [app] in Hrun. cbn [forLines] in Hrun.
    destruct (String.eqb (JS.trim raw) "") eqn:Hblank.
    + destruct (IH _ _ _ _ _ _ _ Hzs Hrun) as (lx & stx & trx & f & H1 & H2 & H3 & H4).
      exists lx, stx, trx, f.
      split; [exact H1|]. split; [exact H2|]. split; [exact H3|].
      intros zs' fuel' r' Hzs' H. cbn [app Nat.add forLines]. rewrite Hblank.
      now apply H4.
    + destruct (tryBlock JSON_parse snap _ l st) as [[l1 st1]|error] eqn:Htry.
      * destruct (IH _ _ _ _ _ _ _ Hzs Hrun) as (lx & stx & trx & f & H1 & H2 & H3 & H4).
        assert (Hd : currentBuffer l1 = currentBuffer l
                     /\ (isComplete l1 = false ->
                         isComplete l = false /\ responseData l1 = responseData l)).
        { unfold tryBlock in Htry. destruct (JSON_parse _) as [data|]; [|discriminate].
          destruct (dispatch snap data l st) as [[l2 st2]|] eqn:Hd; [|discriminate].
          injection Htry as -> ->. split; [now apply dispatch_effect in Hd|].
          unfold dispatch in Hd. destruct data; try discriminate;
            repeat match type of Hd with
                   | context [if ?b then _ else _] => destruct b
                   end; injection Hd as <- <-; cbn; auto; discriminate. }
        destruct Hd as [Hb Hc].
        exists lx, stx, trx, f.
        split; [exact H1|]. split; [congruence|]. split.
        -- intros E. destruct (H3 E) as [E1 E2]. destruct (Hc E1).
           split; congruence.
        -- intros zs' fuel' r' Hzs' H. cbn [app Nat.add forLines].
           rewrite Hblank, Htry. now apply H4.
      * rewrite (Hlast xs zs Hzs) in Hrun.
        destruct (catchBlock JSON_parse false _ error)
          as [[| |fixedLine] calls] eqn:Hcatch.
        -- apply catchBlock_Buffer in Hcatch. destruct Hcatch; discriminate.
        -- destruct (IH _ _ _ _ _ _ _ Hzs Hrun)
             as (lx & stx & trx & f & H1 & H2 & H3 & H4).
           exists lx, stx, trx, f.
           split; [exact H1|]. split; [exact H2|]. split; [exact H3|].
           intros zs' fuel' r' Hzs' H. cbn [app Nat.add forLines].
           rewrite Hblank, Htry, (Hlast xs zs' Hzs'), Hcatch. now apply H4.
        -- destruct (IH snap (fixedLine :: xs) _ _ _ _ _ Hzs Hrun)
             as (lx & stx & trx & f & H1 & H2 & H3 & H4).
           exists lx, stx, trx, f.
           split; [exact H1|]. split; [exact H2|]. split; [exact H3|].
           intros zs' fuel' r' Hzs' H. cbn [app Nat.add forLines].
           rewrite Hblank, Htry, (Hlast xs zs' Hzs'), Hcatch.
           now apply (H4 zs' fuel' r').
Qed.

(** The chunk loop on two lists of lines, the second starting with the line
    the first has left in the buffer: when that line went into the buffer
    as it stood, the two runs end as one run on the lines joined. *)
Lemma lines_rejoined JSON_parse fuel1 fuel2 snap xs p q ys collected st tr
    l1 st1 tr1 l2 st2 tr2 :
  forLines JSON_parse fuel1 snap (xs ++ [p])
           {| isComplete := false; responseData := JNull;
              collectedSteps := collected; currentBuffer := "" |} st tr
  = Some (l1, st1, tr1) ->
  isComplete l1 = false ->
  currentBuffer l1 = p ->
  p <> "" ->
  forLines JSON_parse fuel2 snap ((p ++ q)%string :: ys)
           {| isComplete := false; responseData := JNull;
              collectedSteps := collectedSteps l1; currentBuffer := "" |} st1 tr1
  = Some (l2, st2, tr2) ->
  exists tr',
    forLines JSON_parse (fuel1 + fuel2) snap (xs ++ (p ++ q)%string :: ys)
             {| isComplete := false; responseData := JNull;
                collectedSteps := collected; currentBuffer := "" |} st tr
    = Some (l2, st2, tr').
Proof.
  intros Hrun1 Hopen Hbuffer Hp Hrun2.
  apply forLines_prefix in Hrun1; [|discriminate].
  destruct Hrun1 as (lx & stx & trx & f & H1 & H2 & H3 & H4). cbn in H2, H3.
  assert (Hx : l1 = setBuffer p lx /\ st1 = stx).
  { destruct f as [|f]; [discriminate|]. cbn [forLines] in H1.
    destruct (String.eqb (JS.trim p) "").
    { destruct f; [discriminate|]. cbn in H1. injection H1 as <- <- <-.
      congruence. }
    destruct (tryBlock JSON_parse snap _ lx stx) as [[l' st']|error] eqn:Htry.
    { destruct f; [discriminate|]. cbn in H1. injection H1 as <- <- <-.
      unfold tryBlock in Htry. destruct (JSON_parse _) as [data|]; [|discriminate].
      destruct (dispatch snap data lx stx) as [[l3 st3]|] eqn:Hd; [|discriminate].
      injection Htry as -> ->. apply dispatch_effect in Hd.
      destruct Hd as (Hb & _). congruence. }
    cbn [isLastLine catchBlock] in H1.
    destruct f; [discriminate|]. cbn in H1. injection H1 as <- <- <-.
    cbn in Hbuffer. rewrite Hbuffer. auto. }
  destruct Hx as [-> ->]. cbn in Hopen, Hrun2.
  destruct (H3 Hopen) as [_ Hnull].
  assert (Hlx : lx = {| isComplete := false; responseData := JNull;
                        collectedSteps := collectedSteps lx; currentBuffer := "" |}).
  { destruct lx; cbn in *. congruence. }
  rewrite <- Hlx in Hrun2.
  rewrite forLines_trace in Hrun2.
  destruct (forLines JSON_parse fuel2 snap _ lx stx []) as [[[l' st'] d]|] eqn:E;
    [|discriminate].
  injection Hrun2 as <- <- <-.
  exists (trx ++ d). apply H4; [discriminate|].
  rewrite forLines_trace, E. reflexivity.
Qed.

Lemma afterLoop_withParses fr snap l st pr a a' tm se tr tr' :
  afterLoop fr snap l
            {| state := st; processingRef := pr; active := a;
               timers := tm; sent := se; parses := tr' |}
  = withParses tr'
      (afterLoop fr snap l
                 {| state := st; processingRef := pr; active := a';
                    timers := tm; sent := se; parses := tr |}).
Proof.
  unfold afterLoop, finishTurn, failTurn, addMessage. cbn.
  destruct (truthy (responseData l));
    [destruct (hasCitationsOf _); [destruct (lastStep _)|]|]; reflexivity.
Qed.

(** A chunk boundary inside a line is healed when the text that went into
    the buffer is the raw tail of the chunk (nothing trimmed, nothing cut):
    reading the two chunks one after the other ends in the same world as
    reading them as one chunk, the recorded calls apart. *)
Theorem split_chunk_rejoined
    (JSON_parse : string -> ParseResult) (fuel : nat) (w w1 w2 : World)
    (fr : Fresh) (chunk1 chunk2 : string) (snap : ChatState.t)
    (collected collected1 : list ProcessingStep.t) :
  let tail := last (JS.split JS.newline chunk1) "" in
  active w = Some {| snap := snap; phase := Reading collected "" |} ->
  step JSON_parse fuel w (ReadChunk fr chunk1) = Some w1 ->
  active w1 = Some {| snap := snap; phase := Reading collected1 tail |} ->
  tail <> "" ->
  step JSON_parse fuel w1 (ReadChunk fr chunk2) = Some w2 ->
  exists tr,
    step JSON_parse (fuel + fuel) w (ReadChunk fr (chunk1 ++ chunk2))
    = Some (withParses tr w2).
Proof.
  intros tail Hactive Hstep1 Hactive1 Htail Hstep2.
  cbn [step] in Hstep1. rewrite Hactive in Hstep1.
  destruct (processChunk JSON_parse fuel snap collected "" chunk1 (state w) (parses w))
    as [[[l1 st1] tr1]|] eqn:E1; [|discriminate].
  destruct (isComplete l1) eqn:Hopen.
  { injection Hstep1 as <-. exfalso.
    destruct (afterLoop_keeps fr snap l1
                {| state := st1; processingRef := processingRef w;
                   active := Some {| snap := snap; phase := Reading collected "" |};
                   timers := timers w; sent := sent w; parses := tr1 |})
      as (_ & _ & Hnone).
    congruence. }
  injection Hstep1 as <-. cbn in Hactive1. injection Hactive1 as <- Hbuffer.
  cbn [step] in Hstep2. cbn [active setActive] in Hstep2.
  cbn [state parses setActive] in Hstep2.
  destruct (processChunk JSON_parse fuel snap (collectedSteps l1) (currentBuffer l1)
                         chunk2 st1 tr1)
    as [[[l2 st2] tr2]|] eqn:E2; [|discriminate].
  unfold processChunk, chunkLines in E1, E2. cbn [String.length Nat.ltb Nat.leb] in E1.
  rewrite Hbuffer in E2.
  assert (Hlen : (0 <? String.length tail) = true) by (now destruct tail).
  rewrite Hlen in E2.
  pose proof (split_nonempty JS.newline chunk1) as Hne1.
  pose proof (split_nonempty JS.newline chunk2) as Hne2.
  rewrite (app_removelast_last "" Hne1) in E1. fold tail in E1.
  destruct (JS.split JS.newline chunk2) as [|q ys] eqn:Hsplit2; [contradiction|].
  destruct (lines_rejoined JSON_parse fuel fuel snap _ tail q ys collected
                           (state w) (parses w) l1 st1 tr1 l2 st2 tr2
                           E1 Hopen Hbuffer Htail E2) as [tr' Hjoined].
  exists tr'. cbn [step]. rewrite Hactive.
  unfold processChunk, chunkLines. cbn [String.length Nat.ltb Nat.leb].
  rewrite split_app, Hsplit2. cbn [hd tl]. fold tail. rewrite Hjoined.
  destruct (isComplete l2); injection Hstep2 as <-.
  - f_equal. apply afterLoop_withParses.
  - reflexivity.
Qed.

(** ** The closing quote *)

Lemma append_assoc (a b c : string) : ((a ++ b) ++ c = a ++ (b ++ c))%string.
Proof. induction a as [|x a IH]; cbn; [reflexivity|now rewrite IH]. Qed.

Lemma leaves_refl s : leaves s s.
Proof. now exists ""%string. Qed.

Lemma leaves_cons c s rest : leaves s rest -> leaves (String c s) rest.
Proof. intros [read ->]. now exists (String c read). Qed.

Lemma leaves_trans a b c : leaves b c -> leaves a b -> leaves a c.
Proof.
  intros [r2 ->] [r1 ->]. exists (r1 ++ r2)%string. now rewrite append_assoc.
Qed.

Lemma skipWs_leaves s : forall p s' p', Json.skipWs s p = (s', p') -> leaves s s'.
Proof.
  induction s as [|c r IH]; cbn; intros p s' p' H.
  - injection H as <- _. apply leaves_refl.
  - destruct (Json.isJSONWhitespace c).
    + apply leaves_cons. eapply IH, H.
    + injection H as <- _. apply leaves_refl.
Qed.

Lemma spanDigits_leaves s : forall p acc ds s' p',
  Json.spanDigits s p acc = (ds, s', p') -> leaves s s'.
Proof.
  induction s as [|c r IH]; cbn; intros p acc ds s' p' H.
  - injection H as _ <- _. apply leaves_refl.
  - destruct (JS.isDigit c).
    + apply leaves_cons. eapply IH, H.
    + injection H as _ <- _. apply leaves_refl.
Qed.

Lemma substring_all s : String.substring 0 (String.length s) s = s.
Proof. induction s as [|c r IH]; cbn; [reflexivity|now rewrite IH]. Qed.

Lemma substringFrom_leaves n : forall s, leaves s (JS.substringFrom n s).
Proof.
  unfold JS.substringFrom.
  induction n as [|n IH]; intros s.
  - rewrite Nat.sub_0_r, substring_all. apply leaves_refl.
  - destruct s as [|c r]; [apply leaves_refl|].
    cbn. apply leaves_cons, IH.
Qed.

Ltac branches :=
  repeat match goal with
         | H : context [match ?x with _ => _ end] |- _ =>
             destruct x eqn:?; try discriminate
         | H : context [if ?b then _ else _] |- _ =>
             destruct b eqn:?; try discriminate
         end.

Ltac chain :=
  repeat match goal with
         | H : Json.spanDigits _ _ _ = _ |- _ => apply spanDigits_leaves in H
         | H : Json.skipWs _ _ = _ |- _ => apply skipWs_leaves in H
         | H : (_, _) = (_, _) |- _ => injection H as ? ?
         | H : Json.LOk _ _ _ = Json.LOk _ _ _ |- _ => injection H as ? ? ?
         end;
  subst;
  repeat first
    [ apply leaves_refl
    | match goal with
      | H : leaves ?a ?b |- leaves ?a _ =>
          apply (leaves_trans a b); [|exact H]; clear H
      end
    | apply substringFrom_leaves
    | apply leaves_cons ].

Lemma readStringBody_leaves n : forall s, String.length s <= n ->
  forall p acc str rest p',
    Json.readStringBody s p acc = Json.LOk str rest p' -> leaves s rest.
Proof.
  induction n as [|n IH]; intros s Hn p acc str rest p' H.
  - destruct s; [discriminate|cbn in Hn; lia].
  - destruct s as [|c r]; [discriminate|]. cbn [Json.readStringBody] in H.
    cbn in Hn. branches.
    + chain.
    + apply IH in H; [chain|subst; cbn in *; lia].
    + apply IH in H; [chain|subst; cbn in *; lia].
    + apply IH in H; [chain|lia].
Qed.

Lemma readString_leaves s p str rest p' :
  Json.readString s p = Json.LOk str rest p' -> leaves s rest.
Proof.
  unfold Json.readString. destruct s; [discriminate|].
  apply (readStringBody_leaves _ _ (le_n _)).
Qed.

Lemma readNumber_leaves s p n rest p' :
  Json.readNumber s p = Json.LOk n rest p' -> leaves s rest.
Proof.
  unfold Json.readNumber. intros H. branches. all: chain.
Qed.

(** What a value read by [parseValue] leaves of the text: the text ends
    with it, and for an object a closing brace stands just before it. *)
Lemma parse_leaves fuel :
  (forall s p v rest p',
      Json.parseValue fuel s p = Json.LOk v rest p' ->
      leaves s rest /\ forall o, v = JObj o -> leaves s (String "}" rest))
  /\ (forall s p acc v rest p',
         Json.parseElements fuel s p acc = Json.LOk v rest p' ->
         leaves s rest /\ forall o, v <> JObj o)
  /\ (forall s p acc v rest p',
         Json.parseMembers fuel s p acc = Json.LOk v rest p' ->
         leaves s (String "}" rest)).
Proof.
  induction fuel as [|f (IHv & IHe & IHm)];
    [split; [|split]; intros; discriminate|].
  split; [|split].
  - intros s p v rest p' H. cbn [Json.parseValue] in H. branches.
    all: repeat match goal with
                | E : Json.parseElements _ _ _ _ = Json.LOk _ _ _ |- _ =>
                    apply IHe in E; destruct E as [? ?]
                | E : Json.parseMembers _ _ _ _ = Json.LOk _ _ _ |- _ =>
                    apply IHm in E
                | E : Json.readString _ _ = Json.LOk _ _ _ |- _ =>
                    apply readString_leaves in E
                | E : Json.readNumber _ _ = Json.LOk _ _ _ |- _ =>
                    apply readNumber_leaves in E
                | E : (_ =? "}")%char = true |- _ => apply Ascii.eqb_eq in E
                end.
    all: (split; [chain|intros o Ho]).
    all: try match goal with
             | Hno : forall o', ?v <> JObj o', Ho : ?v = JObj _ |- _ =>
                 exfalso; exact (Hno _ Ho)
             end.
    all: try (chain; discriminate).
    all: chain.
  - intros s p acc v rest p' H. cbn [Json.parseElements] in H. branches.
    all: repeat match goal with
                | E : Json.parseElements _ _ _ _ = Json.LOk _ _ _ |- _ =>
                    apply IHe in E; destruct E as [? ?]
                | E : Json.parseValue _ _ _ = Json.LOk _ _ _ |- _ =>
                    apply IHv in E; destruct E as [? _]
                end.
    all: (split; [chain|intros o Ho; try intro]).
    all: try match goal with
             | Hno : forall o', ?v <> JObj o', Ho : ?v = JObj _ |- _ =>
                 exact (Hno _ Ho)
             end.
    all: injection H as <- _ _; discriminate.
  - intros s p acc v rest p' H. cbn [Json.parseMembers] in H. branches.
    all: repeat match goal with
                | E : Json.parseMembers _ _ _ _ = Json.LOk _ _ _ |- _ =>
                    apply IHm in E
                | E : Json.parseValue _ _ _ = Json.LOk _ _ _ |- _ =>
                    apply IHv in E; destruct E as [? _]
                | E : Json.readString _ _ = Json.LOk _ _ _ |- _ =>
                    apply readString_leaves in E
                | E : (_ =? "}")%char = true |- _ => apply Ascii.eqb_eq in E
                end.
    all: chain.
Qed.

Lemma append_last_inj a : forall b x y,
  (a ++ String x "" = b ++ String y "")%string -> x = y.
Proof.
  induction a as [|c a IH]; intros [|d b] x y H; cbn in H.
  - now injection H.
  - injection H as _ H. now destruct b.
  - injection H as _ H. now destruct a.
  - injection H as _ H. eapply IH, H.
Qed.

(** A text that ends with a double quote does not end with a closing brace
    and white space. *)
Lemma quote_is_not_brace rest : forall p p' a b d,
  Json.skipWs rest p = (""%string, p') ->
  d <> JS.dquote ->
  (a ++ String JS.dquote "" = b ++ String d rest)%string -> False.
Proof.
  induction rest as [|c r IH]; intros p p' a b d Hws Hd H.
  - apply append_last_inj in H. congruence.
  - cbn in Hws. destruct (Json.isJSONWhitespace c) eqn:Hc; [|discriminate].
    apply (IH _ _ a (b ++ String d "")%string c Hws).
    + intros ->. discriminate.
    + now rewrite append_assoc.
Qed.

(** [JSON.parse] of a text that ends with a double quote is no object. *)
Lemma parse_quoted_not_object line v :
  Json.parse (line ++ String JS.dquote "") = Parsed v -> forall o, v <> JObj o.
Proof.
  unfold Json.parse. intros H o ->.
  destruct (Json.parseValue _ _ 0) as [v rest pos|] eqn:E; [|discriminate].
  destruct (Json.skipWs rest pos) as [[|] p'] eqn:Hws; [|discriminate].
  injection H as ->.
  apply parse_leaves in E. destruct E as [_ E].
  destruct (E o eq_refl) as [read Hread].
  eapply quote_is_not_brace; [exact Hws| |exact Hread]. discriminate.
Qed.

(** The closing quote never recovers a frame: when the message of the
    [SyntaxError] sends the inner [try] to the repair for an unterminated
    string, the repaired line is parsed once and given up, whatever the
    line.  The repaired text ends with the quote, and no object does. *)
Theorem closing_quote_never_recovers (line msg : string) :
  JS.includes "column" msg = true ->
  JS.matchColumn msg <> None ->
  JS.includes "unterminated string" msg = true ->
  catchBlock Json.parse false line (ThrownSyntaxError msg)
  = (Continue, [RepairParse (line ++ String JS.dquote "")]).
Proof.
  intros Hcolumn Hmatch Hstring.
  unfold catchBlock, repairCandidate. rewrite Hcolumn.
  destruct (JS.matchColumn msg) as [digits|]; [|contradiction].
  rewrite Hstring.
  destruct (Json.parse _) as [data|] eqn:E; [|reflexivity].
  pose proof (parse_quoted_not_object _ _ E) as Hno.
  destruct data as [| | b | n | s | l | props]; try reflexivity.
  now destruct (Hno props).
Qed.

(** ** One turn in flight *)

Lemma processChat_gate snap query w :
  processingRef w = inFlight w ->
  processingRef (processChat snap query w) = inFlight (processChat snap query w).
Proof.
  unfold processChat. destruct (processingRef w) eqn:Hbusy; [now rewrite Hbusy|].
  reflexivity.
Qed.

Lemma addMessage_gate fr snap content sender type files hasCitations steps
    citations w w' :
  addMessage fr snap content sender type files hasCitations steps citations w
  = Some w' ->
  processingRef w = inFlight w -> processingRef w' = inFlight w'.
Proof.
  unfold addMessage. destruct (includesFence content); [|discriminate].
  intros H Hw. injection H as <-.
  destruct (_ && _); [apply processChat_gate|]; exact Hw.
Qed.

Lemma failTurn_gate fr snap error w :
  processingRef (failTurn fr snap error w) = inFlight (failTurn fr snap error w).
Proof. reflexivity. Qed.

Lemma afterLoop_gate fr snap l w :
  processingRef (afterLoop fr snap l w) = inFlight (afterLoop fr snap l w).
Proof.
  unfold afterLoop. destruct (truthy _); [destruct (hasCitationsOf _)|];
    reflexivity.
Qed.

Lemma fireTimer_gate fr d w :
  processingRef w = inFlight w ->
  processingRef (fireTimer fr d w) = inFlight (fireTimer fr d w).
Proof.
  unfold fireTimer. intros Hw.
  destruct (addMessage _ _ _ _ _ _ _ _ _ _) as [w'|] eqn:E; [|exact Hw].
  eapply addMessage_gate; [exact E|exact Hw].
Qed.

(** The flag of the gate says whether a turn is suspended: every event
    keeps the two in step. *)
Lemma step_gate JSON_parse fuel w e w' :
  step JSON_parse fuel w e = Some w' ->
  processingRef w = inFlight w -> processingRef w' = inFlight w'.
Proof.
  intros Hstep Hw. destruct e; cbn [step] in Hstep.
  - eapply addMessage_gate; [exact Hstep|exact Hw].
  - injection Hstep as <-. now apply processChat_gate.
  - injection Hstep as <-. unfold regenerateMessage.
    destruct (findIndex _ _); [|exact Hw].
    destruct (nth_error _ _); [|exact Hw].
    destruct (negb _); [exact Hw|]. now apply processChat_gate.
  - injection Hstep as <-. exact Hw.
  - injection Hstep as <-. exact Hw.
  - injection Hstep as <-. exact Hw.
  - injection Hstep as <-. exact Hw.
  - injection Hstep as <-. exact Hw.
  - destruct (active w) as [[snap [|collected buffer]]|] eqn:Ha;
      injection Hstep as <-; try exact Hw. apply failTurn_gate.
  - destruct (active w) as [[snap [|collected buffer]]|] eqn:Ha;
      [|injection Hstep as <-; exact Hw..].
    destruct (negb ok); [injection Hstep as <-; apply failTurn_gate|].
    destruct (negb hasBody); injection Hstep as <-; [apply failTurn_gate|].
    unfold inFlight in *. cbn. now rewrite Hw, Ha.
  - destruct (active w) as [[snap [|collected buffer]]|] eqn:Ha;
      [injection Hstep as <-; exact Hw| |injection Hstep as <-; exact Hw].
    destruct (processChunk _ _ _ _ _ _ _ _) as [[[l st] tr]|]; [|discriminate].
    destruct (isComplete l); injection Hstep as <-; [apply afterLoop_gate|].
    unfold inFlight in *. cbn. now rewrite Hw, Ha.
  - destruct (active w) as [[snap [|collected buffer]]|] eqn:Ha;
      injection Hstep as <-; try exact Hw. apply afterLoop_gate.
  - destruct (active w) as [[snap [|collected buffer]]|] eqn:Ha;
      injection Hstep as <-; try exact Hw. apply failTurn_gate.
  - destruct (timers w) as [|d later]; injection Hstep as <-; [exact Hw|].
    now apply fireTimer_gate.
Qed.

Lemma run_gate JSON_parse fuel es : forall w w',
  run JSON_parse fuel w es = Some w' ->
  processingRef w = inFlight w -> processingRef w' = inFlight w'.
Proof.
  induction es as [|e es IH]; cbn; intros w w' Hrun Hw.
  - now injection Hrun as <-.
  - destruct (step JSON_parse fuel w e) as [w1|] eqn:Hstep; [|discriminate].
    eapply IH; [exact Hrun|]. eapply step_gate; [exact Hstep|exact Hw].
Qed.

(** Whatever the page and the network do, the gate is closed exactly while
    a turn is suspended. *)
Theorem gate_closed_while_in_flight
    (JSON_parse : string -> ParseResult) (fuel : nat) (es : list Event)
    (w : World) :
  run JSON_parse fuel initial es = Some w ->
  processingRef w = inFlight w.
Proof. intros Hrun. now apply (run_gate _ _ _ _ _ Hrun). Qed.

Lemma processChat_sent snap query w :
  sent (processChat snap query w) = sent w
  \/ (processingRef w = false
      /\ processingRef (processChat snap query w) = true
      /\ sent (processChat snap query w) = sent w ++ [requestOf snap query]).
Proof.
  unfold processChat. destruct (processingRef w); [now left|]. right. auto.
Qed.

Lemma addMessage_sent fr snap content sender type files hasCitations steps
    citations w w' :
  addMessage fr snap content sender type files hasCitations steps citations w
  = Some w' ->
  sent w' = sent w
  \/ (processingRef w = false /\ processingRef w' = true
      /\ sent w' = sent w ++ [requestOf snap content]).
Proof.
  unfold addMessage. destruct (includesFence content); [|discriminate].
  intros H. injection H as <-.
  destruct (_ && _); [|now left].
  apply (processChat_sent snap content (setState _ w)).
Qed.

(** An event sends at most one request, and sends it only through the
    open gate, which it leaves closed. *)
Theorem request_only_through_the_gate
    (JSON_parse : string -> ParseResult) (fuel : nat) (w w' : World) (e : Event) :
  step JSON_parse fuel w e = Some w' ->
  sent w' = sent w
  \/ (processingRef w = false /\ processingRef w' = true
      /\ exists request, sent w' = sent w ++ [request]).
Proof.
  intros Hstep. destruct e; cbn [step] in Hstep.
  - apply addMessage_sent in Hstep. destruct Hstep as [H|(A & B & C)]; eauto.
  - injection Hstep as <-.
    destruct (processChat_sent (state w) (JStr query) w) as [H|(A & B & C)]; eauto.
  - injection Hstep as <-. unfold regenerateMessage.
    destruct (findIndex _ _); [|now left].
    destruct (nth_error _ _) as [m|]; [|now left].
    destruct (negb _); [now left|].
    destruct (processChat_sent (state w) (Message.content m)
                               (setState (Update.truncateMessages
                                            (firstn (n + 1) (ChatState.messages (state w)))) w))
      as [H|(A & B & C)]; eauto.
  - injection Hstep as <-. now left.
  - injection Hstep as <-. now left.
  - injection Hstep as <-. now left.
  - injection Hstep as <-. now left.
  - injection Hstep as <-. now left.
  - left. destruct (active w) as [[snap [|collected buffer]]|];
      injection Hstep as <-; first [reflexivity|apply failTurn_keeps].
  - left. destruct (active w) as [[snap [|collected buffer]]|];
      [|injection Hstep as <-; reflexivity..].
    destruct (negb ok); [injection Hstep as <-; first [reflexivity|apply failTurn_keeps]|].
    destruct (negb hasBody); injection Hstep as <-;
      first [reflexivity|apply failTurn_keeps].
  - left. destruct (active w) as [[snap [|collected buffer]]|];
      [injection Hstep as <-; reflexivity| |injection Hstep as <-; reflexivity].
    destruct (processChunk _ _ _ _ _ _ _ _) as [[[l st] tr]|]; [|discriminate].
    destruct (isComplete l); injection Hstep as <-; [|reflexivity].
    now rewrite (proj1 (proj2 (afterLoop_keeps _ _ _ _))).
  - left. destruct (active w) as [[snap [|collected buffer]]|];
      injection Hstep as <-; first [reflexivity|apply afterLoop_keeps].
  - left. destruct (active w) as [[snap [|collected buffer]]|];
      injection Hstep as <-; first [reflexivity|apply failTurn_keeps].
  - left. destruct (timers w) as [|d later]; injection Hstep as <-; [reflexivity|].
    unfold fireTimer.
    destruct (addMessage _ _ _ _ _ _ _ _ _ _) as [w1|] eqn:E; [|reflexivity].
    unfold addMessage in E. destruct (includesFence _); [|discriminate].
    now injection E as <-.
Qed.

(** ** The chunk loop ends *)

Lemma length_append (a b : string) :
  String.length (a ++ b) = String.length a + String.length b.
Proof. induction a as [|c a IH]; cbn; [reflexivity|now rewrite IH]. Qed.

Lemma length_substring : forall s n m,
  String.length (String.substring n m s) = Nat.min m (String.length s - n).
Proof.
  induction s as [|c s IH]; intros [|n] [|m]; cbn; try reflexivity.
  - now rewrite IH, Nat.sub_0_r.
  - apply IH.
  - apply IH.
Qed.

Lemma length_trimStart s : String.length (JS.trimStart s) <= String.length s.
Proof.
  induction s as [|c s IH]; cbn; [lia|]. destruct (JS.isWhiteSpace c); cbn; lia.
Qed.

Lemma length_trimEnd s : String.length (JS.trimEnd s) <= String.length s.
Proof.
  induction s as [|c s IH]; cbn; [lia|].
  destruct (JS.trimEnd s); [destruct (JS.isWhiteSpace c)|]; cbn in *; lia.
Qed.

Lemma length_trim s : String.length (JS.trim s) <= String.length s.
Proof.
  unfold JS.trim. pose proof (length_trimEnd (JS.trimStart s)).
  pose proof (length_trimStart s). lia.
Qed.

Lemma length_sanitizeLine s : String.length (sanitizeLine s) <= String.length s.
Proof.
  unfold sanitizeLine. destruct (negb _); [|lia].
  destruct (JS.indexOf _ _); [|lia].
  unfold JS.substringFrom. rewrite length_substring. lia.
Qed.

(** A repair that makes the loop run again has cut the line: the text that
    is processed again is shorter than the line that failed. *)
Lemma reprocess_shorter isLast line error fixedLine calls :
  catchBlock Json.parse isLast line error = (Reprocess fixedLine, calls) ->
  String.length fixedLine < String.length line.
Proof.
  unfold catchBlock. destruct isLast; [discriminate|].
  destruct error as [msg|]; [|discriminate].
  destruct (repairCandidate line msg) as [candidate|] eqn:Hcandidate;
    [|discriminate].
  destruct (Json.parse candidate) as [data|] eqn:Hparse; [|discriminate].
  destruct (recognized data) eqn:Hrecognized; [|discriminate].
  intros H. injection H as <- _.
  unfold repairCandidate in Hcandidate.
  destruct (JS.includes "column" msg); [|discriminate].
  destruct (JS.matchColumn msg) as [digits|]; [|discriminate].
  destruct (JS.includes "unterminated string" msg).
  - injection Hcandidate as <-. exfalso.
    pose proof (parse_quoted_not_object _ _ Hparse) as Hno.
    destruct data as [| | b | n | s | l | props]; try discriminate.
    now destruct (Hno props).
  - destruct (JS.includes "unexpected character" msg); [|discriminate].
    destruct (_ && _) eqn:Hbounds; [|discriminate].
    injection Hcandidate as <-.
    apply andb_prop in Hbounds. destruct Hbounds as [Hpos Hlt].
    apply Nat.ltb_lt in Hpos, Hlt.
    rewrite length_append. unfold JS.substring, JS.substringFrom.
    rewrite !length_substring. lia.
Qed.

(** With the fuel of [loopFuel] the loop over the lines of a chunk comes to
    its end, whatever the lines hold. *)
Lemma forLines_ends fuel : forall snap lines l st tr,
  loopFuel lines <= fuel ->
  exists r, forLines Json.parse fuel snap lines l st tr = Some r.
Proof.
  unfold loopFuel.
  induction fuel as [|fuel IH]; intros snap lines l st tr Hfuel; [lia|].
  cbn [forLines]. destruct lines as [|raw rest]; [eauto|].
  cbn [fold_right] in Hfuel.
  destruct (String.eqb _ _); [apply IH; lia|].
  destruct (tryBlock _ _ _ _ _) as [[l' st']|error]; [apply IH; lia|].
  destruct (catchBlock _ _ _ _) as [[| |fixedLine] calls] eqn:Hcatch;
    try (apply IH; lia).
  apply reprocess_shorter in Hcatch.
  pose proof (length_sanitizeLine (JS.trim raw)).
  pose proof (length_trim raw).
  apply IH. cbn [fold_right]. lia.
Qed.

(** ** What a chunk does to the turn *)

(** With the fuel of [loopFuel] a chunk is read to its end, whatever bytes
    it carries. *)
Theorem chunk_is_read_to_its_end
    (fuel : nat) (w : World) (fr : Fresh) (chunk : string)
    (snap : ChatState.t) (collected : list ProcessingStep.t) (buffer : string) :
  active w = Some {| snap := snap; phase := Reading collected buffer |} ->
  loopFuel (chunkLines buffer chunk) <= fuel ->
  exists w', step Json.parse fuel w (ReadChunk fr chunk) = Some w'.
Proof.
  intros Hactive Hfuel. cbn [step]. rewrite Hactive. unfold processChunk.
  destruct (forLines_ends fuel snap (chunkLines buffer chunk)
              {| isComplete := false; responseData := JNull;
                 collectedSteps := collected; currentBuffer := "" |}
              (state w) (parses w) Hfuel) as [[[l st] tr] ->].
  destruct (isComplete l); eauto.
Qed.

(** Reading a chunk sends nothing, and no line of it, however malformed,
    makes the turn fail.  The turn goes on reading; or the chunk brought
    the terminal frame and the turn has its answer: the gate opens, the
    typing indicator goes off and one timer is set for the response, the
    history as it was; or the chunk brought the terminal frame and the
    comparison [citation_array.length > 0] threw on it: then the turn ends
    with one bot message, the general error text, and no timer. *)
Theorem chunk_fails_on_its_citations_only
    (JSON_parse : string -> ParseResult) (fuel : nat) (w w' : World)
    (fr : Fresh) (chunk : string)
    (snap : ChatState.t) (collected : list ProcessingStep.t) (buffer : string) :
  active w = Some {| snap := snap; phase := Reading collected buffer |} ->
  step JSON_parse fuel w (ReadChunk fr chunk) = Some w' ->
  sent w' = sent w
  /\ exists l st tr,
       processChunk JSON_parse fuel snap collected buffer chunk (state w) (parses w)
       = Some (l, st, tr)
       /\ ((isComplete l = false
            /\ active w'
               = Some {| snap := snap;
                         phase := Reading (collectedSteps l) (currentBuffer l) |}
            /\ ChatState.messages (state w') = ChatState.messages (state w)
            /\ processingRef w' = processingRef w
            /\ ChatState.isTyping (state w') = ChatState.isTyping (state w)
            /\ timers w' = timers w)
           \/ (isComplete l = true
               /\ active w' = None
               /\ processingRef w' = false
               /\ ChatState.isTyping (state w') = false
               /\ truthy (responseData l) = true
               /\ ((exists hasCitations,
                      hasCitationsOf (responseData l) = Some hasCitations
                      /\ ChatState.messages (state w') = ChatState.messages (state w)
                      /\ timers w'
                         = timers w
                           ++ [{| Deferred.responseData := responseData l;
                                  Deferred.hasCitations := hasCitations;
                                  Deferred.collectedSteps :=
                                    markFinal (collectedSteps l) |}])
                   \/ (exists m,
                         hasCitationsOf (responseData l) = None
                         /\ ChatState.messages (state w')
                            = ChatState.messages (state w) ++ [m]
                         /\ Message.sender m = bot
                         /\ Message.content m = JStr Text.generic
                         /\ timers w' = timers w)))).
Proof.
  intros Hactive Hstep. cbn [step] in Hstep. rewrite Hactive in Hstep.
  destruct (processChunk _ _ _ _ _ _ _ _) as [[[l st] tr]|] eqn:E; [|discriminate].
  pose proof E as Heff. apply forLines_effect in Heff.
  destruct Heff as (_ & Hm & Ht & _ & _ & _ & _ & Htruthy). cbn in Htruthy.
  destruct (isComplete l) eqn:Hcomplete; injection Hstep as <-.
  - assert (Hdata : truthy (responseData l) = true)
      by (apply Htruthy; [discriminate|reflexivity]).
    match goal with |- context [afterLoop ?a ?b ?c ?d] =>
      destruct (afterLoop_keeps a b c d) as (_ & Asent & Aa) end.
    split; [exact Asent|].
    exists l, st, tr. split; [reflexivity|]. right.
    split; [exact Hcomplete|]. split; [exact Aa|].
    unfold afterLoop. rewrite Hdata.
    destruct (hasCitationsOf (responseData l)) as [h|] eqn:Hh.
    + match goal with |- context [finishTurn h l ?v] =>
        destruct (finishTurn_effect h l v) as (A & B & C & D) end.
      rewrite A, B, C, D. cbn.
      split; [reflexivity|]. split; [reflexivity|]. split; [reflexivity|].
      left. exists h. auto.
    + match goal with |- context [failTurn ?a ?b ?c ?d] =>
        destruct (failTurn_effect a b c d) as (A & B & C & D) end.
      rewrite A, B, C, D. cbn.
      split; [reflexivity|]. split; [reflexivity|]. split; [reflexivity|].
      right. eexists. split; [reflexivity|]. rewrite Hm.
      repeat split; reflexivity.
  - cbn. split; [reflexivity|]. exists l, st, tr. split; [reflexivity|]. left.
    split; [exact Hcomplete|]. auto.
Qed.

(** ** A turn that fails before the stream *)

(** A response that is not ok ends the turn with one bot message, the text
    for servers out of reach, whatever the status and whether or not there
    is a body; an ok response without a body ends it with the text for an
    empty response.  Either way the gate opens, the typing indicator goes
    off, the progress list is emptied and nothing more is sent. *)
Theorem response_without_stream_ends_the_turn
    (JSON_parse : string -> ParseResult) (fuel : nat) (w : World) (fr : Fresh)
    (ok : bool) (status : nat) (hasBody : bool) (snap : ChatState.t) :
  active w = Some {| snap := snap; phase := AwaitingResponse |} ->
  ok && hasBody = false ->
  exists w' m,
    step JSON_parse fuel w (FetchResolved fr ok status hasBody) = Some w'
    /\ ChatState.messages (state w') = ChatState.messages (state w) ++ [m]
    /\ Message.sender m = bot
    /\ Message.type m = markdown
    /\ Message.content m
       = JStr (if ok then Text.emptyBody else Text.unreachable)
    /\ Message.processingSteps m = None
    /\ ChatState.isTyping (state w') = false
    /\ ChatState.processingSteps (state w') = []
    /\ processingRef w' = false
    /\ active w' = None
    /\ timers w' = timers w
    /\ sent w' = sent w.
Proof.
  intros Hactive Hnone. cbn [step]. rewrite Hactive.
  destruct ok; cbn [negb].
  - destruct hasBody; [discriminate|]. cbn [negb].
    eexists. eexists. split; [reflexivity|]. cbn. repeat split; reflexivity.
  - eexists. eexists. split; [reflexivity|].
    unfold failTurn, addMessage. cbn -[errorMessageFor requestFailed].
    rewrite errorMessageFor_requestFailed. repeat split; reflexivity.
Qed.

(** ** The queue of files *)

(** Sending takes the queue along: the message carries the queued files in
    their order, or no [files] at all when the queue is empty, and the
    queue is empty afterwards, whether or not a request goes out. *)
Theorem send_takes_the_queued_files (fr : Fresh) (message : string) (w : World) :
  exists w' m,
    handleSendMessage fr message w = Some w'
    /\ ChatState.messages (state w') = ChatState.messages (state w) ++ [m]
    /\ Message.sender m = user
    /\ Message.type m = text
    /\ Message.content m = JStr message
    /\ Message.files m
       = match ChatState.files (state w) with
         | [] => None
         | queued => Some queued
         end
    /\ ChatState.files (state w') = [].
Proof.
  unfold handleSendMessage, addMessage, processChat. cbn.
  destruct (processingRef w); cbn; eexists; eexists;
    (split; [reflexivity|]); cbn; repeat split; reflexivity.
Qed.

(** Every message the hook appends empties the queue, the bot's too: files
    queued while the turn was in flight are gone once the answer or the
    error text of the turn is appended. *)
Theorem bot_message_empties_the_queue
    (JSON_parse : string -> ParseResult) (fuel : nat) (w w' : World) (e : Event) :
  turnEvent e = true ->
  step JSON_parse fuel w e = Some w' ->
  ChatState.messages (state w') <> ChatState.messages (state w) ->
  ChatState.files (state w') = [].
Proof.
  assert (Hfail : forall fr snap error v,
             ChatState.files (state (failTurn fr snap error v)) = [])
    by reflexivity.
  assert (Hfinish : forall h l v,
             ChatState.messages (state (finishTurn h l v))
             = ChatState.messages (state v))
    by (intros; unfold finishTurn; destruct (lastStep _); reflexivity).
  assert (Hafter : forall fr snap l v,
             ChatState.messages (state (afterLoop fr snap l v))
             = ChatState.messages (state v)
             \/ ChatState.files (state (afterLoop fr snap l v)) = []).
  { intros. unfold afterLoop.
    destruct (truthy _); [destruct (hasCitationsOf _)|];
      [left|right; reflexivity ..].
    now rewrite Hfinish. }
  destruct e; try discriminate; intros _; cbn [step].
  - destruct (active w) as [[snap [|c b]]|]; intros [= <-] H;
      first [now destruct H|apply Hfail].
  - destruct (active w) as [[snap [|c b]]|];
      [|intros [= <-] H; now destruct H..].
    destruct (negb ok); [intros [= <-] _; apply Hfail|].
    destruct (negb hasBody); intros [= <-] H; [apply Hfail|now destruct H].
  - destruct (active w) as [[snap [|c b]]|];
      [intros [= <-] H; now destruct H| |intros [= <-] H; now destruct H].
    destruct (processChunk _ _ _ _ _ _ _ _) as [[[l st] tr]|] eqn:E; [|discriminate].
    apply forLines_effect in E. destruct E as (_ & Hm & _).
    destruct (isComplete l); intros [= <-] H.
    + match goal with |- context [afterLoop fr snap l ?v] =>
        destruct (Hafter fr snap l v) as [Hsame|Hempty]
      end; [|exact Hempty].
      destruct H. rewrite Hsame. exact Hm.
    + destruct H. exact Hm.
  - destruct (active w) as [[snap [|c b]]|]; intros [= <-] H;
      try (now destruct H).
    match goal with |- context [afterLoop fr snap ?l ?v] =>
      destruct (Hafter fr snap l v) as [Hsame|Hempty]
    end; [now destruct H|exact Hempty].
  - destruct (active w) as [[snap [|c b]]|]; intros [= <-] H;
      first [now destruct H|apply Hfail].
  - destruct (timers w) as [|d later]; intros [= <-] H; [now destruct H|].
    unfold fireTimer in *.
    destruct (addMessage _ _ _ _ _ _ _ _ _ _) as [v|] eqn:E; [|now destruct H].
    unfold addMessage in E. destruct (includesFence _); [|discriminate].
    now injection E as <-.
Qed.

(** A file added under an id that is not in the queue is taken out again by
    [removeFile] with that id: the queue is as before. *)
Theorem added_file_is_removed_again
    (JSON_parse : string -> ParseResult) (fuel : nat) (w : World) (fr : Fresh)
    (name type url : string) :
  Forall (fun f => FileObject.id f <> newId fr) (ChatState.files (state w)) ->
  exists w',
    run JSON_parse fuel w [CallAddFile fr name type url; CallRemoveFile (newId fr)]
    = Some w'
    /\ ChatState.files (state w') = ChatState.files (state w)
    /\ ChatState.messages (state w') = ChatState.messages (state w).
Proof.
  intros Hfresh. eexists. split; [reflexivity|]. cbn.
  split; [|reflexivity].
  rewrite filter_app. cbn. rewrite String.eqb_refl. cbn. rewrite app_nil_r.
  induction Hfresh as [|f fs Hf _ IH]; cbn; [reflexivity|].
  apply String.eqb_neq in Hf. rewrite Hf. cbn. now rewrite IH.
Qed.

(** ** The typing indicator *)

Lemma step_typing JSON_parse fuel w e w' :
  step JSON_parse fuel w e = Some w' ->
  (ChatState.isTyping (state w) = true -> processingRef w = true) ->
  ChatState.isTyping (state w') = true -> processingRef w' = true.
Proof.
  assert (Hchat : forall snap query v,
             (ChatState.isTyping (state v) = true -> processingRef v = true) ->
             ChatState.isTyping (state (processChat snap query v)) = true ->
             processingRef (processChat snap query v) = true).
  { intros snap query v Hv. unfold processChat.
    destruct (processingRef v) eqn:Hbusy; [now rewrite Hbusy|reflexivity]. }
  assert (Hafter : forall fr snap l v,
             ChatState.isTyping (state (afterLoop fr snap l v)) = false).
  { intros. unfold afterLoop, finishTurn.
    destruct (truthy _); [destruct (hasCitationsOf _); [destruct (lastStep _)|]|];
      reflexivity. }
  intros Hstep Hw. destruct e; cbn [step] in Hstep.
  - unfold addMessage in Hstep. destruct (includesFence _); [|discriminate].
    injection Hstep as <-. destruct (_ && _); [apply Hchat|]; exact Hw.
  - injection Hstep as <-. now apply Hchat.
  - injection Hstep as <-. unfold regenerateMessage.
    destruct (findIndex _ _); [|exact Hw].
    destruct (nth_error _ _); [|exact Hw].
    destruct (negb _); [exact Hw|]. apply Hchat. exact Hw.
  - injection Hstep as <-. discriminate.
  - injection Hstep as <-. exact Hw.
  - injection Hstep as <-. exact Hw.
  - injection Hstep as <-. exact Hw.
  - injection Hstep as <-. exact Hw.
  - destruct (active w) as [[snap [|c b]]|]; injection Hstep as <-;
      first [exact Hw|discriminate].
  - destruct (active w) as [[snap [|c b]]|];
      [|injection Hstep as <-; exact Hw..].
    destruct (negb ok); [injection Hstep as <-; discriminate|].
    destruct (negb hasBody); injection Hstep as <-; [discriminate|exact Hw].
  - destruct (active w) as [[snap [|c b]]|];
      [injection Hstep as <-; exact Hw| |injection Hstep as <-; exact Hw].
    destruct (processChunk _ _ _ _ _ _ _ _) as [[[l st] tr]|] eqn:E; [|discriminate].
    apply forLines_effect in E. destruct E as (_ & _ & Ht & _).
    destruct (isComplete l); injection Hstep as <-.
    + rewrite Hafter. discriminate.
    + cbn. rewrite Ht. exact Hw.
  - destruct (active w) as [[snap [|c b]]|]; injection Hstep as <-;
      try exact Hw. rewrite Hafter. discriminate.
  - destruct (active w) as [[snap [|c b]]|]; injection Hstep as <-;
      first [exact Hw|discriminate].
  - destruct (timers w) as [|d later]; injection Hstep as <-; [exact Hw|].
    unfold fireTimer.
    destruct (addMessage _ _ _ _ _ _ _ _ _ _) as [v|] eqn:E; [|exact Hw].
    unfold addMessage in E. destruct (includesFence _); [|discriminate].
    injection E as <-. exact Hw.
Qed.

(** The typing indicator is shown only while a turn is in flight: in every
    world the hook reaches, [isTyping] implies that the gate is closed. *)
Theorem typing_indicator_only_in_flight
    (JSON_parse : string -> ParseResult) (fuel : nat) (es : list Event)
    (w : World) :
  run JSON_parse fuel initial es = Some w ->
  ChatState.isTyping (state w) = true -> processingRef w = true.
Proof.
  assert (H : forall es v v',
             run JSON_parse fuel v es = Some v' ->
             (ChatState.isTyping (state v) = true -> processingRef v = true) ->
             ChatState.isTyping (state v') = true -> processingRef v' = true).
  { clear. induction es as [|e es IH]; cbn; intros v v' Hrun Hv.
    - now injection Hrun as <-.
    - destruct (step JSON_parse fuel v e) as [v1|] eqn:Hstep; [|discriminate].
      eapply IH; [exact Hrun|]. eapply step_typing; [exact Hstep|exact Hv]. }
  intros Hrun. apply (H _ _ _ Hrun). discriminate.
Qed.

(** ** The cut at the first brace *)

Lemma substringFrom_0 s : JS.substringFrom 0 s = s.
Proof.
  unfold JS.substringFrom. rewrite Nat.sub_0_r. apply substring_all.
Qed.

Lemma substringFrom_S n c s :
  JS.substringFrom (S n) (String c s) = JS.substringFrom n s.
Proof. reflexivity. Qed.

(** [indexOf] finds the first occurrence: the text before it is free of the
    character and [substring] from it starts with the character. *)
Lemma indexOf_Some c s : forall n,
  JS.indexOf c s = Some n ->
  exists before after,
    s = (before ++ String c after)%string
    /\ JS.indexOf c before = None
    /\ JS.substringFrom n s = String c after.
Proof.
  induction s as [|d s IH]; cbn [JS.indexOf]; intros n H; [discriminate|].
  destruct (Ascii.eqb d c) eqn:Hd.
  - injection H as <-. apply Ascii.eqb_eq in Hd. subst d.
    exists ""%string, s. split; [reflexivity|]. split; [reflexivity|].
    apply substringFrom_0.
  - destruct (JS.indexOf c s) as [k|]; [|discriminate]. injection H as <-.
    destruct (IH k eq_refl) as (before & after & -> & Hnone & Hsub).
    exists (String d before), after. cbn [JS.indexOf append]. rewrite Hd, Hnone.
    split; [reflexivity|]. split; [reflexivity|].
    rewrite substringFrom_S. exact Hsub.
Qed.

(** [sanitizeLine] cuts the text before the first opening brace and nothing
    else: what is cut holds no brace, what is left starts with one, and a
    line without a brace is left as it is.  A second pass changes nothing. *)
Theorem sanitizeLine_cuts_to_the_first_brace (rawLine : string) :
  exists noise,
    rawLine = (noise ++ sanitizeLine rawLine)%string
    /\ JS.indexOf "{"%char noise = None
    /\ (JS.indexOf "{"%char rawLine = None -> sanitizeLine rawLine = rawLine)
    /\ (JS.indexOf "{"%char rawLine <> None ->
        JS.startsWith "{" (sanitizeLine rawLine) = true)
    /\ sanitizeLine (sanitizeLine rawLine) = sanitizeLine rawLine.
Proof.
  unfold sanitizeLine.
  destruct (JS.startsWith "{" rawLine) eqn:Hstarts; cbn [negb].
  - rewrite Hstarts. cbn [negb]. exists ""%string. auto.
  - destruct (JS.indexOf "{"%char rawLine) as [jsonStart|] eqn:Hindex.
    + destruct (indexOf_Some _ _ _ Hindex) as (before & after & Hline & Hnone & Hsub).
      assert (Hbrace : JS.startsWith "{" (String "{" after) = true)
        by (destruct after; reflexivity).
      rewrite Hsub, Hbrace. exists before. cbn [negb].
      split; [exact Hline|]. split; [exact Hnone|].
      split; [discriminate|]. split; reflexivity.
    + rewrite Hstarts, Hindex. cbn [negb]. exists ""%string.
      split; [reflexivity|]. split; [reflexivity|].
      split; [reflexivity|]. split; [congruence|reflexivity].
Qed.

(** ** Clearing the chat while a turn is in flight *)

(** [clearChat] has no guard and cancels nothing: the gate stays closed and
    the activation and the timers stay as they are.  A message sent right
    after it is appended to the emptied history and sends no request. *)
Theorem clear_keeps_the_turn_in_flight
    (JSON_parse : string -> ParseResult) (fuel : nat) (w : World) (fr : Fresh)
    (message : string) :
  processingRef w = true ->
  exists w1 w2 m,
    step JSON_parse fuel w CallClear = Some w1
    /\ state w1 = Update.cleared
    /\ processingRef w1 = true
    /\ active w1 = active w
    /\ timers w1 = timers w
    /\ handleSendMessage fr message w1 = Some w2
    /\ ChatState.messages (state w2) = [m]
    /\ Message.content m = JStr message
    /\ sent w2 = sent w
    /\ active w2 = active w.
Proof.
  intros Hbusy. eexists. eexists. eexists.
  split; [reflexivity|]. cbn.
  split; [reflexivity|]. split; [exact Hbusy|].
  split; [reflexivity|]. split; [reflexivity|].
  unfold handleSendMessage, addMessage. cbn. rewrite Hbusy. cbn.
  split; [reflexivity|]. cbn. repeat split; reflexivity.
Qed.

(** The answer of a turn that was cleared away still arrives: when the
    timer of the turn fires after [clearChat], its message is the only one
    in the history. *)
Theorem cleared_chat_still_gets_the_answer
    (JSON_parse : string -> ParseResult) (fuel : nat) (w : World) (fr : Fresh)
    (d : Deferred.t) (later : list Deferred.t) (response : string) :
  timers w = d :: later ->
  getProp "response" (Deferred.responseData d) = JStr response ->
  exists w' m,
    run JSON_parse fuel w [CallClear; TimerFired fr] = Some w'
    /\ ChatState.messages (state w') = [m]
    /\ Message.sender m = bot
    /\ Message.content m = JStr response
    /\ Message.processingSteps m = Some (Deferred.collectedSteps d)
    /\ timers w' = later.
Proof.
  intros Htimers Hresponse. cbn. rewrite Htimers.
  unfold fireTimer, addMessage. cbn. rewrite Hresponse. cbn.
  eexists. eexists. split; [reflexivity|]. cbn. repeat split; reflexivity.
Qed.

(** ** The answer *)

(** A terminal frame whose [response] is neither a string nor an array
    gives the user nothing: when the timer fires, building the message
    throws outside every handler of the hook, so no answer and no error
    text is appended; the progress list is emptied all the same. *)
Theorem answer_without_text_is_lost
    (JSON_parse : string -> ParseResult) (fuel : nat) (w : World) (fr : Fresh)
    (d : Deferred.t) (later : list Deferred.t) :
  timers w = d :: later ->
  match getProp "response" (Deferred.responseData d) with
  | JStr _ | JArr _ => False
  | _ => True
  end ->
  exists w',
    step JSON_parse fuel w (TimerFired fr) = Some w'
    /\ ChatState.messages (state w') = ChatState.messages (state w)
    /\ ChatState.processingSteps (state w') = []
    /\ ChatState.files (state w') = ChatState.files (state w)
    /\ timers w' = later
    /\ processingRef w' = processingRef w
    /\ sent w' = sent w.
Proof.
  intros Htimers Hresponse. cbn [step]. rewrite Htimers.
  unfold fireTimer, addMessage.
  destruct (getProp "response" (Deferred.responseData d)); try contradiction;
    cbn; eexists; (split; [reflexivity|]); cbn; repeat split; reflexivity.
Qed.

(** The chunk with the terminal frame and the timer behind it, when
    [hasCitations] is computed: the answer is appended with that value and,
    when it is truthy, with the frame's [citation_array]. *)
Lemma answer_after_terminal_frame
    (JSON_parse : string -> ParseResult) (fuel : nat) (w : World)
    (fr fr' : Fresh) (chunk : string) (snap : ChatState.t)
    (collected : list ProcessingStep.t) (buffer : string)
    (l : Loop) (st : ChatState.t) (tr : list Call) (response : string)
    (h : jsval) :
  active w = Some {| snap := snap; phase := Reading collected buffer |} ->
  timers w = [] ->
  processChunk JSON_parse fuel snap collected buffer chunk (state w) (parses w)
  = Some (l, st, tr) ->
  isComplete l = true ->
  getProp "response" (responseData l) = JStr response ->
  hasCitationsOf (responseData l) = Some h ->
  exists w' m,
    run JSON_parse fuel w [ReadChunk fr chunk; TimerFired fr'] = Some w'
    /\ ChatState.messages (state w') = ChatState.messages (state w) ++ [m]
    /\ Message.sender m = bot
    /\ Message.content m = JStr response
    /\ Message.hasCitations m = match h with JUndefined => JBool false | _ => h end
    /\ Message.citations m
       = if truthy h then getProp "citation_array" (responseData l)
         else JUndefined.
Proof.
  intros Hactive Htimers Hchunk Hcomplete Hresponse Hh.
  cbn [run step]. rewrite Hactive, Hchunk, Hcomplete.
  pose proof Hchunk as Heff. apply forLines_effect in Heff.
  destruct Heff as (_ & Hm & _ & _ & _ & _ & _ & Htruthy). cbn in Htruthy.
  assert (Hdata : truthy (responseData l) = true)
    by (apply Htruthy; [discriminate|exact Hcomplete]).
  unfold afterLoop. rewrite Hdata, Hh.
  set (v := setState Update.stopTyping _).
  destruct (finishTurn_effect h l v) as (Fm & _ & _ & Ftimers).
  cbn [step]. rewrite Ftimers. subst v. cbn [timers setState]. rewrite Htimers.
  cbn [app]. unfold fireTimer, addMessage. cbn [Deferred.responseData].
  rewrite Hresponse. cbn [includesFence].
  eexists. eexists. split; [reflexivity|]. cbn.
  split; [unfold finishTurn; destruct (lastStep _); cbn; now rewrite Hm|].
  repeat split; reflexivity.
Qed.

(** The same chunk when the comparison that computes [hasCitations]
    throws: the turn fails with the general error text, and no timer is
    set. *)
Lemma failure_after_terminal_frame
    (JSON_parse : string -> ParseResult) (fuel : nat) (w : World)
    (fr fr' : Fresh) (chunk : string) (snap : ChatState.t)
    (collected : list ProcessingStep.t) (buffer : string)
    (l : Loop) (st : ChatState.t) (tr : list Call) :
  active w = Some {| snap := snap; phase := Reading collected buffer |} ->
  timers w = [] ->
  processChunk JSON_parse fuel snap collected buffer chunk (state w) (parses w)
  = Some (l, st, tr) ->
  isComplete l = true ->
  hasCitationsOf (responseData l) = None ->
  exists w' m,
    run JSON_parse fuel w [ReadChunk fr chunk; TimerFired fr'] = Some w'
    /\ ChatState.messages (state w') = ChatState.messages (state w) ++ [m]
    /\ Message.sender m = bot
    /\ Message.content m = JStr Text.generic
    /\ Message.processingSteps m = None
    /\ ChatState.processingSteps (state w') = []
    /\ processingRef w' = false
    /\ timers w' = [].
Proof.
  intros Hactive Htimers Hchunk Hcomplete Hh.
  cbn [run step]. rewrite Hactive, Hchunk, Hcomplete.
  pose proof Hchunk as Heff. apply forLines_effect in Heff.
  destruct Heff as (_ & Hm & _ & _ & _ & _ & _ & Htruthy). cbn in Htruthy.
  assert (Hdata : truthy (responseData l) = true)
    by (apply Htruthy; [discriminate|exact Hcomplete]).
  unfold afterLoop. rewrite Hdata, Hh.
  match goal with |- context [failTurn ?a ?b ?c ?d] =>
    destruct (failTurn_effect a b c d) as (A & B & C & D);
    assert (Hsteps : ChatState.processingSteps (state (failTurn a b c d)) = [])
      by reflexivity
  end.
  cbn [step]. rewrite C. cbn [timers setState] in *.
  revert A C D Hsteps. rewrite Htimers. intros A C D Hsteps.
  eexists. eexists. split; [reflexivity|].
  rewrite A, C, D, Hsteps. cbn. rewrite Hm. repeat split; reflexivity.
Qed.

(** The citations of the answer, for every value the terminal frame can
    carry as [citation_array].  The answer has [hasCitations] true and the
    value attached exactly when it is an array that is not empty, a string
    that is not empty, or an object whose own [length] is above zero as a
    number.  For every other value nothing is attached, and [hasCitations]
    is [false], or the value itself when that is [null], zero or the empty
    string.  An object whose [length] has no primitive value gives no
    answer: the turn fails with the general error text. *)
Theorem citations_attached_by_length
    (JSON_parse : string -> ParseResult) (fuel : nat) (w : World)
    (fr fr' : Fresh) (chunk : string) (snap : ChatState.t)
    (collected : list ProcessingStep.t) (buffer : string)
    (l : Loop) (st : ChatState.t) (tr : list Call) (response : string) :
  active w = Some {| snap := snap; phase := Reading collected buffer |} ->
  timers w = [] ->
  processChunk JSON_parse fuel snap collected buffer chunk (state w) (parses w)
  = Some (l, st, tr) ->
  isComplete l = true ->
  getProp "response" (responseData l) = JStr response ->
  let answer (hasCitations citations : jsval) :=
    exists w' m,
      run JSON_parse fuel w [ReadChunk fr chunk; TimerFired fr'] = Some w'
      /\ ChatState.messages (state w') = ChatState.messages (state w) ++ [m]
      /\ Message.content m = JStr response
      /\ Message.hasCitations m = hasCitations
      /\ Message.citations m = citations in
  let failure :=
    exists w' m,
      run JSON_parse fuel w [ReadChunk fr chunk; TimerFired fr'] = Some w'
      /\ ChatState.messages (state w') = ChatState.messages (state w) ++ [m]
      /\ Message.content m = JStr Text.generic
      /\ timers w' = [] in
  match getProp "citation_array" (responseData l) with
  | JUndefined => answer (JBool false) JUndefined
  | JNull => answer JNull JUndefined
  | JBool _ => answer (JBool false) JUndefined
  | JNum n => answer (if Num.isZero n then JNum n else JBool false) JUndefined
  | JStr s =>
      if String.eqb s "" then answer (JStr "") JUndefined
      else answer (JBool true) (JStr s)
  | JArr [] => answer (JBool false) JUndefined
  | JArr (c :: cs) => answer (JBool true) (JArr (c :: cs))
  | JObj props =>
      let length := getProp "length" (JObj props) in
      if negb (convertible length) then failure
      else if above0 length then answer (JBool true) (JObj props)
      else answer (JBool false) JUndefined
  end.
Proof.
  intros Hactive Htimers Hchunk Hcomplete Hresponse answer failure.
  assert (Hanswer : forall h,
             hasCitationsOf (responseData l) = Some h ->
             answer (match h with JUndefined => JBool false | _ => h end)
                    (if truthy h then getProp "citation_array" (responseData l)
                     else JUndefined)).
  { intros h Hh.
    destruct (answer_after_terminal_frame
                JSON_parse fuel w fr fr' chunk snap collected buffer l st tr
                response h Hactive Htimers Hchunk Hcomplete Hresponse Hh)
      as (w' & m & Hrun & Hms & _ & Hc & Hhas & Hcit).
    exists w', m. auto. }
  assert (Hfailure : hasCitationsOf (responseData l) = None -> failure).
  { intros Hh.
    destruct (failure_after_terminal_frame
                JSON_parse fuel w fr fr' chunk snap collected buffer l st tr
                Hactive Htimers Hchunk Hcomplete Hh)
      as (w' & m & Hrun & Hms & _ & Hc & _ & _ & _ & Ht).
    exists w', m. auto. }
  clearbody answer failure.
  unfold hasCitationsOf in Hanswer, Hfailure.
  destruct (getProp "citation_array" (responseData l))
    as [| |b|n|s|[|c cs]|props];
    cbn -[getProp convertible above0] in Hanswer, Hfailure.
  - exact (Hanswer _ eq_refl).
  - exact (Hanswer _ eq_refl).
  - destruct b; exact (Hanswer _ eq_refl).
  - destruct (Num.isZero n) eqn:Hn; cbn in Hanswer.
    + generalize (Hanswer _ eq_refl). cbn. now rewrite Hn.
    + exact (Hanswer _ eq_refl).
  - destruct s as [|a s]; cbn in Hanswer |- *; exact (Hanswer _ eq_refl).
  - exact (Hanswer _ eq_refl).
  - exact (Hanswer _ eq_refl).
  - cbv zeta.
    destruct (convertible (getProp "length" (JObj props))); cbn [negb].
    + destruct (above0 (getProp "length" (JObj props)));
        exact (Hanswer _ eq_refl).
    + exact (Hfailure eq_refl).
Qed.

(** A terminal frame whose [citation_array] is an object with a [length]
    that has no primitive value (an object with a [toString] of its own,
    alone or in an array) ends the turn in failure although the response
    is there: the comparison throws before the timer is set, the outer
    [catch] appends the general error text, and the response is never
    shown. *)
Theorem unmeasurable_citations_fail_the_turn
    (JSON_parse : string -> ParseResult) (fuel : nat) (w : World)
    (fr fr' : Fresh) (chunk : string) (snap : ChatState.t)
    (collected : list ProcessingStep.t) (buffer : string)
    (l : Loop) (st : ChatState.t) (tr : list Call) (props : list (string * jsval)) :
  active w = Some {| snap := snap; phase := Reading collected buffer |} ->
  timers w = [] ->
  processChunk JSON_parse fuel snap collected buffer chunk (state w) (parses w)
  = Some (l, st, tr) ->
  isComplete l = true ->
  getProp "citation_array" (responseData l) = JObj props ->
  convertible (getProp "length" (JObj props)) = false ->
  exists w' m,
    run JSON_parse fuel w [ReadChunk fr chunk; TimerFired fr'] = Some w'
    /\ ChatState.messages (state w') = ChatState.messages (state w) ++ [m]
    /\ Message.sender m = bot
    /\ Message.content m = JStr Text.generic
    /\ Message.processingSteps m = None
    /\ ChatState.processingSteps (state w') = []
    /\ processingRef w' = false
    /\ timers w' = [].
Proof.
  intros Hactive Htimers Hchunk Hcomplete Hcitations Hlength.
  apply (failure_after_terminal_frame
           JSON_parse fuel w fr fr' chunk snap collected buffer l st tr);
    auto.
  unfold hasCitationsOf. rewrite Hcitations. cbn [truthy lengthPositive].
  now rewrite Hlength.
Qed.

(** ** The history only grows *)

Lemma step_appends JSON_parse fuel w e w' :
  keepsHistory e = true ->
  step JSON_parse fuel w e = Some w' ->
  exists new,
    ChatState.messages (state w') = ChatState.messages (state w) ++ new
    /\ List.length new <= 1.
Proof.
  assert (Hsame : forall (ms : list Message.t),
             exists new, ms = ms ++ new /\ List.length new <= 1)
    by (intros; exists []; rewrite app_nil_r; cbn; auto).
  assert (Hone : forall (ms : list Message.t) x,
             exists new, ms ++ [x] = ms ++ new /\ List.length new <= 1)
    by (intros; exists [x]; cbn; auto).
  assert (Hchat : forall snap query v,
             ChatState.messages (state (processChat snap query v))
             = ChatState.messages (state v))
    by (intros; unfold processChat; destruct (processingRef v); reflexivity).
  assert (Hfinish : forall h l v,
             ChatState.messages (state (finishTurn h l v))
             = ChatState.messages (state v))
    by (intros; unfold finishTurn; destruct (lastStep _); reflexivity).
  assert (Hafter : forall fr snap l v,
             exists new,
               ChatState.messages (state (afterLoop fr snap l v))
               = ChatState.messages (state v) ++ new
               /\ List.length new <= 1).
  { intros. unfold afterLoop.
    destruct (truthy _); [destruct (hasCitationsOf _); [rewrite Hfinish|]|];
      [apply Hsame|apply Hone ..]. }
  intros Hkeeps Hstep. destruct e; try discriminate; cbn [step] in Hstep.
  - unfold addMessage in Hstep. destruct (includesFence _); [|discriminate].
    injection Hstep as <-. destruct (_ && _); [rewrite Hchat|]; apply Hone.
  - injection Hstep as <-. rewrite Hchat. apply Hsame.
  - injection Hstep as <-. apply Hsame.
  - injection Hstep as <-. apply Hsame.
  - injection Hstep as <-. apply Hsame.
  - injection Hstep as <-. apply Hsame.
  - destruct (active w) as [[snap [|c b]]|]; injection Hstep as <-;
      first [apply Hsame|apply Hone].
  - destruct (active w) as [[snap [|c b]]|];
      [|injection Hstep as <-; apply Hsame..].
    destruct (negb ok); [injection Hstep as <-; apply Hone|].
    destruct (negb hasBody); injection Hstep as <-; [apply Hone|apply Hsame].
  - destruct (active w) as [[snap [|c b]]|];
      [injection Hstep as <-; apply Hsame| |injection Hstep as <-; apply Hsame].
    destruct (processChunk _ _ _ _ _ _ _ _) as [[[l st] tr]|] eqn:E; [|discriminate].
    apply forLines_effect in E. destruct E as (_ & Hm & _).
    destruct (isComplete l); injection Hstep as <-.
    + match goal with |- context [afterLoop fr snap l ?v] =>
        destruct (Hafter fr snap l v) as (new & Hnew & Hlen)
      end.
      exists new. rewrite Hnew. cbn. now rewrite Hm.
    + cbn. rewrite Hm. apply Hsame.
  - destruct (active w) as [[snap [|c b]]|]; injection Hstep as <-;
      first [apply Hsame|apply Hafter].
  - destruct (active w) as [[snap [|c b]]|]; injection Hstep as <-;
      first [apply Hsame|apply Hone].
  - destruct (timers w) as [|d later]; injection Hstep as <-; [apply Hsame|].
    unfold fireTimer.
    destruct (addMessage _ _ _ _ _ _ _ _ _ _) as [v|] eqn:E; [|apply Hsame].
    unfold addMessage in E. destruct (includesFence _); [|discriminate].
    injection E as <-. apply Hone.
Qed.

(** Without [clearChat] and [regenerateMessage] the history only grows:
    every event leaves the messages that are there in their places and
    appends one message at most. *)
Theorem history_is_append_only
    (JSON_parse : string -> ParseResult) (fuel : nat) (es : list Event)
    (w w' : World) :
  forallb keepsHistory es = true ->
  run JSON_parse fuel w es = Some w' ->
  exists new,
    ChatState.messages (state w') = ChatState.messages (state w) ++ new
    /\ List.length new <= List.length es.
Proof.
  revert w. induction es as [|e es IH]; cbn; intros w Hkeep Hrun.
  - injection Hrun as <-. exists []. rewrite app_nil_r. auto.
  - apply andb_prop in Hkeep. destruct Hkeep as [He Hes].
    destruct (step JSON_parse fuel w e) as [w1|] eqn:Hstep; [|discriminate].
    destruct (step_appends _ _ _ _ _ He Hstep) as (new1 & H1 & L1).
    destruct (IH w1 Hes Hrun) as (new2 & H2 & L2).
    exists (new1 ++ new2). rewrite H2, H1, <- app_assoc, length_app.
    split; [reflexivity|lia].
Qed.

(** ** A question during the settle delay *)

(** The answer of a turn is appended when its timer fires, after the gate
    has opened.  A question sent in between is admitted, and the answer
    then lands behind it: the history ends with the new question followed
    by the answer to the one before, and the new turn is in flight. *)
Theorem next_question_overtakes_the_answer
    (JSON_parse : string -> ParseResult) (fuel : nat) (w : World)
    (fr fr' : Fresh) (message : string)
    (d : Deferred.t) (later : list Deferred.t) (response : string) :
  timers w = d :: later ->
  processingRef w = false ->
  getProp "response" (Deferred.responseData d) = JStr response ->
  exists w1 w2 question answer,
    handleSendMessage fr message w = Some w1
    /\ step JSON_parse fuel w1 (TimerFired fr') = Some w2
    /\ ChatState.messages (state w2)
       = ChatState.messages (state w) ++ [question; answer]
    /\ Message.sender question = user
    /\ Message.content question = JStr message
    /\ Message.sender answer = bot
    /\ Message.content answer = JStr response
    /\ Message.processingSteps answer = Some (Deferred.collectedSteps d)
    /\ sent w2 = sent w ++ [requestOf (state w) (JStr message)]
    /\ processingRef w2 = true
    /\ ChatState.processingSteps (state w2) = [].
Proof.
  intros Htimers Hidle Hresponse.
  unfold handleSendMessage, addMessage, processChat. cbn. rewrite Hidle. cbn.
  eexists. eexists. eexists. eexists. split; [reflexivity|].
  cbn [step timers]. rewrite Htimers.
  unfold fireTimer, addMessage. cbn. rewrite Hresponse. cbn.
  split; [reflexivity|]. cbn. rewrite <- app_assoc.
  repeat split; reflexivity.
Qed.

(** ** Regenerating during the settle delay *)

(** The same holds for [regenerateMessage]: called between the terminal
    frame and the timer, it cuts the history behind the user's message and
    starts a new turn, and the timer then appends the old answer behind
    that message. *)
Theorem regenerate_brings_the_old_answer_back
    (JSON_parse : string -> ParseResult) (fuel : nat) (w : World) (fr : Fresh)
    (messageId : string) (index : nat) (question : Message.t)
    (d : Deferred.t) (later : list Deferred.t) (response : string) :
  timers w = d :: later ->
  processingRef w = false ->
  getProp "response" (Deferred.responseData d) = JStr response ->
  findIndex messageId (ChatState.messages (state w)) = Some index ->
  nth_error (ChatState.messages (state w)) index = Some question ->
  Message.sender question = user ->
  exists w' answer,
    run JSON_parse fuel w [CallRegenerate messageId; TimerFired fr] = Some w'
    /\ ChatState.messages (state w')
       = firstn (index + 1) (ChatState.messages (state w)) ++ [answer]
    /\ Message.sender answer = bot
    /\ Message.content answer = JStr response
    /\ sent w' = sent w ++ [requestOf (state w) (Message.content question)]
    /\ processingRef w' = true.
Proof.
  intros Htimers Hidle Hresponse Hindex Hquestion Huser.
  cbn [run step]. unfold regenerateMessage.
  rewrite Hindex, Hquestion, Huser. cbn [Sender_eqb negb].
  unfold processChat. cbn [processingRef setState]. rewrite Hidle.
  cbn -[getProp]. rewrite Htimers.
  unfold fireTimer, addMessage. cbn -[getProp]. rewrite Hresponse. cbn.
  eexists. eexists. split; [reflexivity|]. cbn. repeat split; reflexivity.
Qed.

(** ** The items of the page *)

Lemma messagesOf_app a b : messagesOf (a ++ b) = messagesOf a ++ messagesOf b.
Proof. unfold messagesOf. apply flat_map_app. Qed.

Lemma messagesOf_splice n it its :
  messagesOf [it] = [] -> messagesOf (splice n it its) = messagesOf its.
Proof.
  intros Hit. unfold splice.
  change (it :: skipn n its) with ([it] ++ skipn n its).
  rewrite !messagesOf_app, Hit. cbn [app].
  rewrite <- messagesOf_app. now rewrite firstn_skipn.
Qed.

Lemma length_splice n it its : List.length (splice n it its) = S (List.length its).
Proof.
  unfold splice. rewrite length_app. cbn [List.length].
  rewrite <- (firstn_skipn n its) at 3. rewrite length_app. lia.
Qed.

Lemma splice_end n it its :
  List.length its <= n -> splice n it its = its ++ [it].
Proof.
  intros Hn. unfold splice. rewrite firstn_all2, skipn_all2 by exact Hn.
  reflexivity.
Qed.

Lemma forallb_splice (p : Item -> bool) n it its :
  p it = true -> forallb p its = true -> forallb p (splice n it its) = true.
Proof.
  intros Hit Hits. unfold splice.
  rewrite <- (firstn_skipn n its), forallb_app in Hits.
  apply andb_prop in Hits. destruct Hits as [H1 H2].
  rewrite forallb_app. cbn. now rewrite H1, Hit, H2.
Qed.

(** What the first loop leaves: the items of the messages in their order,
    none of them a panel; whether the last message is the bot's; and the
    index of the last user message, which is the last item when the last
    message is the user's. *)
Lemma firstLoop_effect messages : forall acc first,
  firstLoop acc messages = Some first ->
  messagesOf (items first) = messagesOf (items acc) ++ messages
  /\ (forallb (fun it => negb (isLive it)) (items acc) = true ->
      forallb (fun it => negb (isLive it)) (items first) = true)
  /\ (messages = [] -> first = acc)
  /\ (forall before m,
        messages = before ++ [m] ->
        lastMessageIsBot first = negb (Sender_eqb (Message.sender m) user)
        /\ (Message.sender m = user ->
            lastUserMessageIndex first = Some (List.length (items first) - 1)
            /\ items first <> [])).
Proof.
  induction messages as [|m rest IH]; cbn [firstLoop]; intros acc first H.
  - injection H as <-. rewrite app_nil_r.
    split; [reflexivity|]. split; [auto|]. split; [reflexivity|].
    intros [|x before] m0 Hm; discriminate.
  - destruct (pushMessage acc m) as [acc1|] eqn:Hpush; [|discriminate].
    destruct (IH acc1 first H) as (Hm & Hlive & Hnone & Hlast).
    assert (Hacc1 : messagesOf (items acc1) = messagesOf (items acc) ++ [m]
                    /\ (forallb (fun it => negb (isLive it)) (items acc) = true ->
                        forallb (fun it => negb (isLive it)) (items acc1) = true)
                    /\ lastMessageIsBot acc1 = negb (Sender_eqb (Message.sender m) user)
                    /\ (Message.sender m = user ->
                        lastUserMessageIndex acc1
                        = Some (List.length (items acc1) - 1)
                        /\ items acc1 <> [])).
    { unfold pushMessage in Hpush.
      destruct (Sender_eqb (Message.sender m) user) eqn:Huser; cbn [negb andb] in Hpush.
      - injection Hpush as <-. cbn.
        rewrite messagesOf_app, forallb_app, length_app. cbn.
        split; [reflexivity|]. split; [intros ->; reflexivity|].
        split; [reflexivity|]. intros _. split; [f_equal; lia|].
        now destruct (items acc).
      - assert (Hbot : Message.sender m = user -> False)
          by (intros E; rewrite E in Huser; discriminate).
        destruct (truthy (Message.hasCitations m)).
        + destruct (renderCitationBadges m); [|discriminate].
          injection Hpush as <-. cbn.
          rewrite !messagesOf_app, !forallb_app. cbn. rewrite app_nil_r.
          split; [reflexivity|]. split; [intros ->; reflexivity|].
          split; [reflexivity|]. intros E. now destruct (Hbot E).
        + injection Hpush as <-. cbn.
          rewrite messagesOf_app, forallb_app. cbn.
          split; [reflexivity|]. split; [intros ->; reflexivity|].
          split; [reflexivity|]. intros E. now destruct (Hbot E). }
    destruct Hacc1 as (Hm1 & Hlive1 & Hbot1 & Huser1).
    split; [rewrite Hm, Hm1, <- app_assoc; reflexivity|].
    split; [auto|]. split; [discriminate|].
    intros before m0 Hsnoc.
    destruct rest as [|m' rest'].
    + rewrite (Hnone eq_refl).
      destruct before as [|x [|y before]]; try discriminate.
      injection Hsnoc as <-. auto.
    + destruct before as [|x before]; [discriminate|].
      injection Hsnoc as _ Hsnoc. exact (Hlast _ _ Hsnoc).
Qed.

(** What the second loop does to the items: it puts in panels that are not
    streaming, as many as it counts, and nothing else. *)
Lemma insertPanels_effect messages messageMap rest : forall i its count its' count',
  insertPanels messages messageMap i rest its count = (its', count') ->
  messagesOf its' = messagesOf its
  /\ List.length its' + count = List.length its + count'
  /\ (forallb (fun it => negb (isLive it)) its = true ->
      forallb (fun it => negb (isLive it)) its' = true).
Proof.
  induction rest as [|m rest IH]; cbn [insertPanels]; intros i its count its' count' H.
  - injection H as <- <-. auto.
  - destruct (_ && _); [|eapply IH; exact H].
    destruct (lastUserBefore messages i); [|eapply IH; exact H].
    destruct (nth_error messages _); [|eapply IH; exact H].
    destruct (mapGet _ _) as [userPos|]; [|eapply IH; exact H].
    apply IH in H. destruct H as (Hm & Hlen & Hlive).
    rewrite messagesOf_splice in Hm by reflexivity.
    rewrite length_splice in Hlen.
    split; [exact Hm|]. split; [lia|].
    intros Hits. apply Hlive. now apply forallb_splice.
Qed.

(** Every message of the history is shown once, in its place: the messages
    among the items are the messages of the state, in their order. *)
Theorem every_message_is_shown_once (st : ChatState.t) (its : list Item) :
  renderChatItems st = Some its ->
  messagesOf its = ChatState.messages st.
Proof.
  unfold renderChatItems.
  destruct (firstLoop _ _) as [first|] eqn:Hfirst; [|discriminate].
  destruct (insertPanels _ _ _ _ _ _) as [its1 count] eqn:Hpanels.
  intros H. injection H as <-.
  apply firstLoop_effect in Hfirst. destruct Hfirst as (Hm & _).
  apply insertPanels_effect in Hpanels. destruct Hpanels as (Hm1 & _).
  cbn in Hm.
  destruct (lastUserMessageIndex first); [|congruence].
  destruct (_ && _); [|congruence].
  rewrite messagesOf_splice by reflexivity. congruence.
Qed.

(** The panel of the turn in flight is shown when there are steps and the
    last message of the history is the user's, and it is then the last
    item; in every other case no item is shown as streaming. *)
Theorem live_panel_is_the_last_item (st : ChatState.t) (its : list Item) :
  renderChatItems st = Some its ->
  (forall before m,
      ChatState.messages st = before ++ [m] ->
      Message.sender m = user ->
      ChatState.processingSteps st <> [] ->
      exists shown,
        its = shown ++ [currentPanel st]
        /\ forallb (fun it => negb (isLive it)) shown = true)
  /\ (ChatState.processingSteps st = [] ->
      forallb (fun it => negb (isLive it)) its = true)
  /\ (forall before m,
        ChatState.messages st = before ++ [m] ->
        Message.sender m = bot ->
        forallb (fun it => negb (isLive it)) its = true)
  /\ (ChatState.messages st = [] -> its = []).
Proof.
  unfold renderChatItems.
  destruct (firstLoop _ _) as [first|] eqn:Hfirst; [|discriminate].
  destruct (insertPanels _ _ _ _ _ _) as [its1 count] eqn:Hpanels.
  intros H. injection H as <-.
  apply firstLoop_effect in Hfirst.
  destruct Hfirst as (_ & Hlive & Hnone & Hlast).
  pose proof Hpanels as Hrun.
  apply insertPanels_effect in Hpanels. destruct Hpanels as (_ & Hlen & Hlive1).
  specialize (Hlive eq_refl). specialize (Hlive1 Hlive).
  split; [|split; [|split]].
  - intros before m Hms Huser Hsteps.
    destruct (Hlast _ _ Hms) as (Hbot & Hindex).
    destruct (Hindex Huser) as (-> & Hne).
    rewrite Hbot, Huser. cbn [Sender_eqb negb].
    destruct (ChatState.processingSteps st) as [|s ss] eqn:Hs; [now destruct Hsteps|].
    cbn [List.length Nat.ltb Nat.leb andb negb].
    exists its1. split; [|exact Hlive1].
    apply splice_end.
    destruct (items first); [now destruct Hne|]. cbn in *. lia.
  - intros Hsteps. rewrite Hsteps. cbn.
    destruct (lastUserMessageIndex first); exact Hlive1.
  - intros before m Hms Hbot.
    destruct (Hlast _ _ Hms) as (-> & _). rewrite Hbot. cbn [Sender_eqb negb].
    rewrite andb_false_r.
    destruct (lastUserMessageIndex first); exact Hlive1.
  - intros Hempty. rewrite (Hnone Hempty) in *. rewrite Hempty in Hrun.
    cbn in *. now injection Hrun as <- _.
Qed.

(** ** Where the panels of the history stand *)

Ltac reassoc :=
  repeat first [rewrite <- app_assoc | progress cbn [app]]; reflexivity.

Lemma panelsOfRun_user before u after :
  Message.sender u = user ->
  panelsOfRun (before ++ u :: after) = panelsOfRun before.
Proof.
  intros Hu. induction before as [|m before IH]; cbn.
  - now rewrite Hu.
  - destruct (Sender_eqb _ _); [reflexivity|]. now rewrite IH.
Qed.

Lemma panelsOfRun_bots run after :
  Forall (fun m => Message.sender m = bot) run ->
  panelsOfRun (run ++ after) = panelsOfRun run ++ panelsOfRun after.
Proof.
  induction 1 as [|m run Hm _ IH]; cbn; [reflexivity|].
  rewrite Hm. cbn. now rewrite IH, app_assoc.
Qed.

Lemma layout_bots run :
  Forall (fun m => Message.sender m = bot) run ->
  layout run = flat_map blockOf run.
Proof.
  induction 1 as [|m run Hm _ IH]; cbn; [reflexivity|].
  rewrite Hm. cbn. now rewrite IH.
Qed.

Lemma layout_user before u after :
  Message.sender u = user ->
  layout (before ++ u :: after) = layout before ++ layout (u :: after).
Proof.
  intros Hu. induction before as [|m before IH]; [reflexivity|].
  cbn [app layout]. rewrite IH, (panelsOfRun_user _ _ _ Hu).
  destruct (Sender_eqb _ _); now rewrite <- !app_assoc.
Qed.

(** The layout of a history that ends with a message of the user and the
    answers [run] behind it, and of the same with [after] behind. *)
Lemma layout_run before u run after :
  Message.sender u = user ->
  Forall (fun m => Message.sender m = bot) run ->
  layout (before ++ u :: run ++ after)
  = layout before
    ++ blockOf u ++ (panelsOfRun run ++ panelsOfRun after)
    ++ flat_map blockOf run ++ layout after.
Proof.
  intros Hu Hrun. rewrite (layout_user _ _ _ Hu). f_equal.
  cbn [layout]. rewrite Hu. cbn [Sender_eqb].
  rewrite (panelsOfRun_bots _ _ Hrun). f_equal. f_equal.
  clear Hu. induction Hrun as [|m run Hm _ IH]; cbn; [reflexivity|].
  rewrite Hm. cbn. now rewrite IH, <- app_assoc.
Qed.

Lemma sender_cases (m : Message.t) :
  Message.sender m = user \/ Message.sender m = bot.
Proof. destruct (Message.sender m); auto. Qed.

(** A history has no message of the user, or a last one with answers only
    behind it. *)
Lemma last_user_or_none (messages : list Message.t) :
  Forall (fun m => Message.sender m = bot) messages
  \/ exists before u run,
       messages = before ++ u :: run
       /\ Message.sender u = user
       /\ Forall (fun m => Message.sender m = bot) run.
Proof.
  induction messages as [|m rest IH]; [left; constructor|].
  destruct IH as [Hbots|(before & u & run & -> & Hu & Hrun)].
  - destruct (sender_cases m) as [Hm|Hm].
    + right. exists [], m, rest. auto.
    + left. now constructor.
  - right. exists (m :: before), u, run. auto.
Qed.

Lemma lastUserBefore_none run : forall after,
  Forall (fun m => Message.sender m = bot) run ->
  lastUserBefore (run ++ after) (List.length run) = None.
Proof.
  induction run as [|m run IH] using rev_ind; intros after Hrun; [reflexivity|].
  apply Forall_app in Hrun. destruct Hrun as [Hrun Hm].
  rewrite length_app, Nat.add_comm. cbn [List.length Nat.add lastUserBefore].
  rewrite <- app_assoc. rewrite nth_error_app2 by lia.
  rewrite Nat.sub_diag. cbn [app nth_error].
  inversion Hm as [|? ? Hbot _]; subst. rewrite Hbot. cbn [Sender_eqb].
  exact (IH _ Hrun).
Qed.

Lemma lastUserBefore_run before u run : forall after,
  Message.sender u = user ->
  Forall (fun m => Message.sender m = bot) run ->
  lastUserBefore (before ++ u :: run ++ after) (List.length (before ++ u :: run))
  = Some (List.length before).
Proof.
  induction run as [|m run IH] using rev_ind; intros after Hu Hrun.
  - rewrite length_app, Nat.add_comm. cbn [List.length Nat.add lastUserBefore].
    rewrite nth_error_app2 by lia. rewrite Nat.sub_diag. cbn [nth_error].
    now rewrite Hu.
  - apply Forall_app in Hrun. destruct Hrun as [Hrun Hm].
    replace (List.length (before ++ u :: run ++ [m]))
      with (S (List.length (before ++ u :: run)))
      by (rewrite !length_app; cbn; rewrite length_app; cbn; lia).
    cbn [lastUserBefore].
    replace (before ++ u :: (run ++ [m]) ++ after)
      with ((before ++ u :: run) ++ m :: after)
      by reassoc.
    rewrite nth_error_app2 by lia. rewrite Nat.sub_diag. cbn [nth_error].
    inversion Hm as [|? ? Hbot _]; subst. rewrite Hbot. cbn [Sender_eqb].
    replace ((before ++ u :: run) ++ m :: after)
      with (before ++ u :: run ++ m :: after)
      by reassoc.
    exact (IH _ Hu Hrun).
Qed.

Lemma pushMessage_effect acc m acc' :
  pushMessage acc m = Some acc' ->
  items acc' = items acc ++ blockOf m
  /\ messageMap acc' = (Message.id m, List.length (items acc)) :: messageMap acc.
Proof.
  unfold pushMessage, blockOf.
  destruct (negb _ && _).
  - destruct (renderCitationBadges m); [|discriminate].
    intros [= <-]. cbn. rewrite <- app_assoc, length_app. cbn.
    split; [reflexivity|]. do 2 f_equal. lia.
  - intros [= <-]. cbn. rewrite length_app. cbn.
    split; [reflexivity|]. do 2 f_equal. lia.
Qed.

Lemma firstLoop_other_key messages : forall acc first id,
  firstLoop acc messages = Some first ->
  ~ In id (map Message.id messages) ->
  mapGet id (messageMap first) = mapGet id (messageMap acc).
Proof.
  induction messages as [|m rest IH]; cbn [firstLoop]; intros acc first id H Hid.
  - now injection H as <-.
  - destruct (pushMessage acc m) as [acc1|] eqn:Hpush; [|discriminate].
    apply pushMessage_effect in Hpush. destruct Hpush as (_ & Hmap).
    rewrite (IH _ _ id H) by (intros E; apply Hid; now right).
    rewrite Hmap. cbn [mapGet].
    destruct (String.eqb (Message.id m) id) eqn:E; [|reflexivity].
    apply String.eqb_eq in E. destruct Hid. now left.
Qed.

(** The items the first loop collects are the blocks of the messages, and
    the map leads from the id of a message to the place of its item, when
    no later message has the same id. *)
Lemma firstLoop_places messages : forall acc first,
  firstLoop acc messages = Some first ->
  items first = items acc ++ flat_map blockOf messages
  /\ forall before m after,
       messages = before ++ m :: after ->
       ~ In (Message.id m) (map Message.id after) ->
       mapGet (Message.id m) (messageMap first)
       = Some (List.length (items acc) + List.length (flat_map blockOf before)).
Proof.
  induction messages as [|m rest IH]; cbn [firstLoop]; intros acc first H.
  - injection H as <-. rewrite app_nil_r. split; [reflexivity|].
    intros [|x before] m after E; discriminate.
  - destruct (pushMessage acc m) as [acc1|] eqn:Hpush; [|discriminate].
    apply pushMessage_effect in Hpush. destruct Hpush as (Hitems & Hmap).
    destruct (IH _ _ H) as (Hi & Hplaces).
    split; [rewrite Hi, Hitems, <- app_assoc; reflexivity|].
    intros [|x before] m0 after E Hlater; injection E as E1 E2; subst.
    + rewrite (firstLoop_other_key _ _ _ _ H Hlater), Hmap. cbn.
      rewrite String.eqb_refl. f_equal. lia.
    + rewrite (Hplaces _ _ _ eq_refl Hlater), Hitems, length_app.
      cbn [flat_map]. rewrite length_app. f_equal. lia.
Qed.

Lemma splice_at (before after : list Item) it :
  splice (List.length before) it (before ++ after) = before ++ it :: after.
Proof.
  unfold splice. rewrite firstn_app, skipn_app, Nat.sub_diag.
  rewrite firstn_all, skipn_all. cbn. now rewrite app_nil_r.
Qed.

Lemma blockOf_user u : Message.sender u = user -> List.length (blockOf u) = 1.
Proof. intros Hu. unfold blockOf. now rewrite Hu. Qed.

Lemma NoDup_later (messages before : list Message.t) m after :
  NoDup (map Message.id messages) ->
  messages = before ++ m :: after ->
  ~ In (Message.id m) (map Message.id after).
Proof.
  intros Hnodup ->. rewrite map_app in Hnodup. cbn in Hnodup.
  apply NoDup_remove_2 in Hnodup. intros E. apply Hnodup.
  apply in_or_app. now right.
Qed.

(** The second loop, after the messages [done], has laid out [done] and
    left the blocks of the messages to come as the first loop put them. *)
Lemma insertPanels_layout messages first : forall todo done count,
  firstLoop {| items := []; messageMap := [];
               lastUserMessageIndex := None; lastMessageIsBot := false |}
            messages = Some first ->
  NoDup (map Message.id messages) ->
  messages = done ++ todo ->
  count + List.length (flat_map blockOf done) = List.length (layout done) ->
  fst (insertPanels messages (messageMap first) (List.length done) todo
                    (layout done ++ flat_map blockOf todo) count)
  = layout messages.
Proof.
  intros todo done count Hfirst Hnodup. revert done count.
  destruct (firstLoop_places _ _ _ Hfirst) as (_ & Hplaces). cbn in Hplaces.
  induction todo as [|m todo IH]; intros done count Hms Hcount.
  - cbn. rewrite !app_nil_r in *. now subst.
  - cbn [insertPanels].
    assert (Hnext : messages = (done ++ [m]) ++ todo)
      by (rewrite <- app_assoc; exact Hms).
    assert (Hlen : S (List.length done) = List.length (done ++ [m]))
      by (rewrite length_app; cbn; lia).
    (* the message gets no panel: its block stays where it is *)
    assert (Hskip : layout (done ++ [m]) = layout done ++ blockOf m ->
                    fst (insertPanels messages (messageMap first)
                                      (S (List.length done)) todo
                                      (layout done ++ flat_map blockOf (m :: todo))
                                      count)
                    = layout messages).
    { intros Hlay. rewrite Hlen.
      replace (layout done ++ flat_map blockOf (m :: todo))
        with (layout (done ++ [m]) ++ flat_map blockOf todo)
        by (rewrite Hlay, <- app_assoc; reflexivity).
      apply IH; [exact Hnext|].
      rewrite Hlay, flat_map_app, !length_app. cbn. rewrite app_nil_r. lia. }
    destruct (sender_cases m) as [Hm|Hm].
    { rewrite Hm. cbn [Sender_eqb negb andb]. apply Hskip.
      rewrite (layout_user _ _ _ Hm). f_equal.
      cbn [layout panelsOfRun]. rewrite Hm. cbn [Sender_eqb].
      now rewrite !app_nil_r. }
    rewrite Hm. cbn [Sender_eqb negb andb].
    destruct (last_user_or_none done) as [Hbots|(before & u & run & Hdone & Hu & Hrun)].
    { (* no message of the user so far *)
      assert (Hlay : layout (done ++ [m]) = layout done ++ blockOf m).
      { rewrite !layout_bots; [|exact Hbots|].
        - rewrite flat_map_app. cbn. now rewrite app_nil_r.
        - apply Forall_app. split; [exact Hbots|]. now constructor. }
      destruct (hasSteps m && _); [|exact (Hskip Hlay)].
      rewrite Hms, (lastUserBefore_none _ _ Hbots). rewrite <- Hms.
      exact (Hskip Hlay). }
    subst done.
    assert (Hlayout : layout (before ++ u :: run)
                      = layout before ++ blockOf u ++ panelsOfRun run
                        ++ flat_map blockOf run).
    { pose proof (layout_run before u run [] Hu Hrun) as E.
      cbn [panelsOfRun layout] in E. rewrite !app_nil_r in E. exact E. }
    assert (Hsnoc : layout ((before ++ u :: run) ++ [m])
                    = layout before ++ blockOf u
                      ++ (panelsOfRun run
                          ++ (if hasSteps m then [attachedPanel m] else []))
                      ++ flat_map blockOf run ++ blockOf m).
    { rewrite <- app_assoc. cbn [app].
      rewrite (layout_run before u run [m] Hu Hrun).
      cbn [panelsOfRun layout]. rewrite Hm. cbn [Sender_eqb app].
      now rewrite !app_nil_r. }
    destruct (hasSteps m) eqn:Hsteps; cbn [andb].
    2:{ apply Hskip. rewrite Hsnoc, Hlayout, app_nil_r.
        now rewrite <- !app_assoc. }
    assert (Hpos : (0 <? List.length (before ++ u :: run)) = true)
      by (apply Nat.ltb_lt; rewrite length_app; cbn; lia).
    rewrite Hpos.
    replace (lastUserBefore messages (List.length (before ++ u :: run)))
      with (Some (List.length before))
      by (rewrite Hms, <- app_assoc; cbn [app]; symmetry;
          apply (lastUserBefore_run before u run (m :: todo) Hu Hrun)).
    replace (nth_error messages (List.length before)) with (Some u)
      by (rewrite Hms, <- app_assoc, nth_error_app2, Nat.sub_diag by lia;
          reflexivity).
    rewrite (Hplaces before u (run ++ m :: todo))
      by (first [ rewrite Hms, <- app_assoc; reflexivity
                | eapply NoDup_later; [exact Hnodup|];
                  rewrite Hms, <- app_assoc; reflexivity ]).
    rewrite Hlen.
    pose proof (blockOf_user u Hu) as Hone.
    rewrite Hlayout, flat_map_app in Hcount. cbn [flat_map] in Hcount.
    repeat rewrite length_app in Hcount.
    replace (layout (before ++ u :: run) ++ flat_map blockOf (m :: todo))
      with ((layout before ++ blockOf u ++ panelsOfRun run)
            ++ (flat_map blockOf run ++ blockOf m ++ flat_map blockOf todo))
      by (rewrite Hlayout; cbn [flat_map]; now rewrite <- !app_assoc).
    replace (List.length (flat_map blockOf before) + 1 + count)
      with (List.length (layout before ++ blockOf u ++ panelsOfRun run))
      by (rewrite !length_app; lia).
    rewrite splice_at.
    replace ((layout before ++ blockOf u ++ panelsOfRun run)
             ++ attachedPanel m
                :: flat_map blockOf run ++ blockOf m ++ flat_map blockOf todo)
      with (layout ((before ++ u :: run) ++ [m]) ++ flat_map blockOf todo)
      by (rewrite Hsnoc; now rewrite <- !app_assoc).
    apply IH; [exact Hnext|].
    rewrite Hsnoc, !flat_map_app. cbn [flat_map].
    repeat first [rewrite length_app | progress cbn [List.length]]. lia.
Qed.

(** With ids that differ, the items are the history laid out: the panel of
    an answer's steps stands behind the last message of the user before
    the answer, after the panels of the answers before it; the panel of the
    turn in flight, when it is shown, comes last. *)
Theorem panels_stand_behind_the_question (st : ChatState.t) (its : list Item) :
  renderChatItems st = Some its ->
  NoDup (map Message.id (ChatState.messages st)) ->
  its = layout (ChatState.messages st)
  \/ its = layout (ChatState.messages st) ++ [currentPanel st].
Proof.
  unfold renderChatItems.
  destruct (firstLoop _ _) as [first|] eqn:Hfirst; [|discriminate].
  destruct (insertPanels _ _ _ _ _ _) as [its1 count] eqn:Hpanels.
  intros H Hnodup. injection H as <-.
  pose proof (insertPanels_layout (ChatState.messages st) first
                (ChatState.messages st) [] 0 Hfirst Hnodup eq_refl eq_refl) as Hlay.
  destruct (firstLoop_places _ _ _ Hfirst) as (Hitems & _). cbn in Hitems, Hlay.
  rewrite <- Hitems, Hpanels in Hlay. cbn in Hlay. subst its1.
  destruct (firstLoop_effect _ _ _ Hfirst) as (_ & _ & _ & Hlast).
  apply insertPanels_effect in Hpanels. destruct Hpanels as (_ & Hlen & _).
  destruct (lastUserMessageIndex first) as [lastUser|] eqn:Hindex; [|now left].
  destruct (_ && _) eqn:Hshown; [|now left].
  right. apply splice_end.
  apply andb_prop in Hshown. destruct Hshown as [_ Hbot].
  destruct (ChatState.messages st) as [|x xs] eqn:Hms.
  - cbn in Hfirst. injection Hfirst as <-. discriminate.
  - destruct (@exists_last _ (x :: xs)) as (before & m0 & Hsnoc); [discriminate|].
    destruct (Hlast _ _ Hsnoc) as (Hb & Huser).
    destruct (sender_cases m0) as [Hm0|Hm0];
      [|rewrite Hb, Hm0 in Hbot; discriminate].
    destruct (Huser Hm0) as (Hi & Hne). injection Hi as ->.
    destruct (items first); [now destruct Hne|]. cbn in *. lia.
Qed.

(** ** When the page throws *)

Lemma firstLoop_throws messages : forall acc,
  firstLoop acc messages = None
  <-> Exists (fun m => Message.sender m = bot
                       /\ truthy (Message.hasCitations m) = true
                       /\ renderCitationBadges m = None) messages.
Proof.
  induction messages as [|m rest IH]; cbn [firstLoop]; intros acc.
  - split; [discriminate|]. intros H. inversion H.
  - destruct (pushMessage acc m) as [acc1|] eqn:Hpush.
    + rewrite IH. split; [now right|].
      intros H. inversion H as [? ? (Hbot & Hcit & Hnone)|]; subst; [|assumption].
      unfold pushMessage in Hpush. rewrite Hbot, Hcit, Hnone in Hpush.
      discriminate.
    + split; [|reflexivity]. intros _. left.
      unfold pushMessage in Hpush.
      destruct (Message.sender m); cbn in Hpush; [discriminate|].
      destruct (truthy (Message.hasCitations m)); [|discriminate].
      destruct (renderCitationBadges m); [discriminate|]. auto.
Qed.

(** Rendering the items throws exactly when the history holds a message of
    the bot with citations that cannot be drawn: [hasCitations] is truthy
    and [citations] is a truthy value that is no array, or an array with a
    [null] in it. *)
Theorem page_throws_on_citations_only (st : ChatState.t) :
  renderChatItems st = None
  <-> Exists (fun m => Message.sender m = bot
                       /\ truthy (Message.hasCitations m) = true
                       /\ truthy (Message.citations m) = true
                       /\ match Message.citations m with
                          | JArr citations => companyNames citations = None
                          | _ => True
                          end) (ChatState.messages st).
Proof.
  unfold renderChatItems.
  assert (Hbadges : forall m,
             truthy (Message.hasCitations m) = true ->
             (renderCitationBadges m = None
              <-> truthy (Message.citations m) = true
                  /\ match Message.citations m with
                     | JArr citations => companyNames citations = None
                     | _ => True
                     end)).
  { intros m Hcit. unfold renderCitationBadges. rewrite Hcit. cbn [negb].
    destruct (truthy (Message.citations m)) eqn:Htruthy; cbn [negb].
    - destruct (Message.citations m) as [| | | | |citations|];
        try (split; [auto|reflexivity]).
      destruct (companyNames citations); split; try discriminate; auto.
      intros [_ H]. discriminate.
    - split; [discriminate|]. intros [H _]. discriminate. }
  destruct (firstLoop _ _) as [first|] eqn:Hfirst.
  - destruct (insertPanels _ _ _ _ _ _). split; [discriminate|].
    intros H. exfalso.
    assert (Hnone : firstLoop {| items := []; messageMap := [];
                                 lastUserMessageIndex := None;
                                 lastMessageIsBot := false |}
                              (ChatState.messages st) = None).
    { apply firstLoop_throws. eapply Exists_impl; [|exact H].
      intros m (Hbot & Hcit & Hrest). split; [exact Hbot|].
      split; [exact Hcit|]. now apply Hbadges. }
    congruence.
  - split; [|reflexivity]. intros _. apply firstLoop_throws in Hfirst.
    eapply Exists_impl; [|exact Hfirst].
    intros m (Hbot & Hcit & Hnone). split; [exact Hbot|].
    split; [exact Hcit|]. now apply Hbadges.
Qed.

(** A terminal frame whose [citation_array] is a string that is not empty
    breaks the page: the answer is appended with the string for its
    citations, and from then on rendering the items throws. *)
Theorem citations_of_a_wrong_shape_break_the_page
    (JSON_parse : string -> ParseResult) (fuel : nat) (w : World) (fr : Fresh)
    (d : Deferred.t) (later : list Deferred.t) (response citations : string) :
  timers w = d :: later ->
  hasCitationsOf (Deferred.responseData d) = Some (Deferred.hasCitations d) ->
  getProp "response" (Deferred.responseData d) = JStr response ->
  getProp "citation_array" (Deferred.responseData d) = JStr citations ->
  citations <> ""%string ->
  exists w' m,
    step JSON_parse fuel w (TimerFired fr) = Some w'
    /\ ChatState.messages (state w') = ChatState.messages (state w) ++ [m]
    /\ Message.content m = JStr response
    /\ Message.citations m = JStr citations
    /\ renderChatItems (state w') = None.
Proof.
  intros Htimers Hhas Hresponse Hcitations Hne.
  assert (Htruthy : truthy (JStr citations) = true).
  { cbn. destruct citations; [now destruct Hne|reflexivity]. }
  assert (Hh : Deferred.hasCitations d = JBool true).
  { unfold hasCitationsOf in Hhas. rewrite Hcitations in Hhas.
    cbv zeta in Hhas. rewrite Htruthy in Hhas. cbn in Hhas.
    injection Hhas as <-. destruct citations; [now destruct Hne|reflexivity]. }
  cbn [step]. rewrite Htimers. unfold fireTimer, addMessage.
  rewrite Hresponse, Hh, Hcitations. cbn [includesFence truthy].
  eexists. eexists. split; [reflexivity|]. cbn.
  split; [reflexivity|]. split; [reflexivity|]. split; [reflexivity|].
  apply page_throws_on_citations_only. cbn [ChatState.messages].
  apply Exists_app. right. left.
  split; [reflexivity|]. split; [reflexivity|]. split; [exact Htruthy|exact I].
Qed.

(** ** The check mark *)

Lemma in_removelast (A : Type) (x : A) (l : list A) :
  In x (removelast l) -> In x l.
Proof.
  induction l as [|a l IH]; [easy|]. cbn.
  destruct l as [|b l]; [easy|]. cbn in *. intros [H|H]; auto.
Qed.

Lemma lastStep_In steps s : lastStep steps = Some s -> In s steps.
Proof.
  induction steps as [|a rest IH]; cbn; [discriminate|].
  destruct rest as [|b rest]; [intros [= <-]; now left|].
  intros H. right. exact (IH H).
Qed.

Lemma markedLast_nil : markedLast [].
Proof. exists []. split; [constructor|reflexivity]. Qed.

Lemma stepsKept_with w v :
  stepsKept w ->
  (forall m steps,
      In m (ChatState.messages (state v)) ->
      Message.processingSteps m = Some steps -> markedLast steps) ->
  Forall (fun d => markedLast (Deferred.collectedSteps d)) (timers v) ->
  active v = active w ->
  (ChatState.processingSteps (state v) = ChatState.processingSteps (state w)
   \/ ChatState.processingSteps (state v) = []) ->
  stepsKept v.
Proof.
  intros (_ & _ & Hlive) Hm Ht Ha Hs. split; [exact Hm|]. split; [exact Ht|].
  rewrite Ha. destruct Hs as [-> | ->]; [exact Hlive|].
  destruct (active w) as [[snap [|c b]]|].
  - reflexivity.
  - destruct Hlive as [Hf _]. split; [exact Hf|]. exists c. now rewrite app_nil_r.
  - apply markedLast_nil.
Qed.

Lemma stepsKept_processChat snap query w :
  stepsKept w -> stepsKept (processChat snap query w).
Proof.
  intros (Hm & Htimers & Hlive). unfold processChat.
  destruct (processingRef w); [now repeat split|].
  split; [exact Hm|]. split; [exact Htimers|]. reflexivity.
Qed.

Lemma stepsKept_addMessage fr snap content sender type files h steps c w w' :
  addMessage fr snap content sender type files h steps c w = Some w' ->
  (forall xs, steps = Some xs -> markedLast xs) ->
  stepsKept w -> stepsKept w'.
Proof.
  unfold addMessage. destruct (includesFence content); [|discriminate].
  intros H Hsteps Hw. injection H as <-.
  assert (Hkept : stepsKept
                    (setState (Update.appendMessage
                                 (newMessage fr content b sender type files h steps c)) w)).
  { pose proof Hw as (Hm & Ht & _).
    apply (stepsKept_with w); [exact Hw| |exact Ht|reflexivity|now left].
    cbn. intros m xs Hin Hxs. apply in_app_or in Hin.
    destruct Hin as [Hin|[<-|[]]]; [exact (Hm _ _ Hin Hxs)|].
    cbn in Hxs. exact (Hsteps _ Hxs). }
  destruct (_ && _); [now apply stepsKept_processChat|exact Hkept].
Qed.

Lemma stepsKept_failTurn' fr snap error w :
  (forall m steps,
      In m (ChatState.messages (state w)) ->
      Message.processingSteps m = Some steps -> markedLast steps) ->
  Forall (fun d => markedLast (Deferred.collectedSteps d)) (timers w) ->
  stepsKept (failTurn fr snap error w).
Proof.
  intros Hm Htimers. unfold failTurn, addMessage. cbn.
  split; [|split; [exact Htimers|apply markedLast_nil]].
  cbn. intros m xs Hin Hxs. apply in_app_or in Hin.
  destruct Hin as [Hin|[<-|[]]]; [exact (Hm _ _ Hin Hxs)|discriminate].
Qed.

Lemma stepsKept_failTurn fr snap error w :
  stepsKept w -> stepsKept (failTurn fr snap error w).
Proof. intros (Hm & Htimers & _). now apply stepsKept_failTurn'. Qed.

Lemma lastStep_snoc before final : lastStep (before ++ [final]) = Some final.
Proof.
  induction before as [|s rest IH]; [reflexivity|].
  cbn [app lastStep]. rewrite IH. now destruct rest.
Qed.

(** The progress list when the turn finishes: its last entry gives way to
    the last step collected, marked. *)
Lemma finishTurn_steps h l w :
  ChatState.processingSteps (state (finishTurn h l w))
  = match lastStep (collectedSteps l) with
    | None => ChatState.processingSteps (state w)
    | Some finalStep =>
        removelast (ChatState.processingSteps (state w)) ++ [complete finalStep]
    end.
Proof. unfold finishTurn. now destruct (lastStep _). Qed.

Lemma finishTurn_live h l w earlier before final :
  collectedSteps l = earlier ++ ChatState.processingSteps (state w) ->
  collectedSteps l = before ++ [final] ->
  exists shown kept,
    ChatState.processingSteps (state (finishTurn h l w))
    = shown ++ [complete final]
    /\ before = kept ++ shown.
Proof.
  intros Hlive Hlast. rewrite finishTurn_steps, Hlast, lastStep_snoc.
  exists (removelast (ChatState.processingSteps (state w))).
  rewrite Hlast in Hlive.
  destruct (ChatState.processingSteps (state w)) as [|x xs] eqn:Hsteps.
  - exists before. now rewrite app_nil_r.
  - destruct (@exists_last _ (x :: xs)) as (live & y & Hy); [discriminate|].
    rewrite Hy in *. rewrite removelast_last.
    rewrite app_assoc in Hlive. apply app_inj_tail in Hlive.
    destruct Hlive as [-> _]. exists earlier. split; reflexivity.
Qed.

Lemma stepsKept_finishTurn h l w earlier :
  (forall m steps,
      In m (ChatState.messages (state w)) ->
      Message.processingSteps m = Some steps -> markedLast steps) ->
  Forall (fun d => markedLast (Deferred.collectedSteps d)) (timers w) ->
  Forall fresh (collectedSteps l) ->
  collectedSteps l = earlier ++ ChatState.processingSteps (state w) ->
  stepsKept (finishTurn h l w).
Proof.
  intros Hm Htimers Hfresh Hlive.
  assert (Hd : markedLast (markFinal (collectedSteps l)))
    by (exists (collectedSteps l); auto).
  split; [|split].
  - destruct (finishTurn_effect h l w) as (-> & _). exact Hm.
  - destruct (finishTurn_effect h l w) as (_ & _ & _ & ->).
    apply Forall_app. split; [exact Htimers|]. now constructor.
  - destruct (finishTurn_keeps h l w) as (_ & _ & ->).
    destruct (collectedSteps l) as [|x xs] eqn:Hcollected.
    + rewrite finishTurn_steps, Hcollected. cbn.
      symmetry in Hlive. apply app_eq_nil in Hlive. destruct Hlive as [_ ->].
      apply markedLast_nil.
    + destruct (@exists_last _ (x :: xs)) as (before & final & Hlast);
        [discriminate|].
      rewrite <- Hcollected in Hlive, Hfresh. rewrite Hlast in Hcollected.
      destruct (finishTurn_live h l w earlier before final Hlive Hcollected)
        as (shown & kept & -> & Hbefore).
      rewrite Hcollected in Hfresh. apply Forall_app in Hfresh.
      destruct Hfresh as [Hb Hf]. rewrite Hbefore in Hb.
      apply Forall_app in Hb. destruct Hb as [_ Hshown].
      exists (shown ++ [final]). split; [|now rewrite markFinal_snoc].
      apply Forall_app. now split.
Qed.

Lemma stepsKept_afterLoop fr snap l w earlier :
  (forall m steps,
      In m (ChatState.messages (state w)) ->
      Message.processingSteps m = Some steps -> markedLast steps) ->
  Forall (fun d => markedLast (Deferred.collectedSteps d)) (timers w) ->
  Forall fresh (collectedSteps l) ->
  collectedSteps l = earlier ++ ChatState.processingSteps (state w) ->
  stepsKept (afterLoop fr snap l w).
Proof.
  intros Hm Htimers Hfresh Hlive. unfold afterLoop.
  destruct (truthy _); [destruct (hasCitationsOf _)|].
  - now apply (stepsKept_finishTurn _ _ _ earlier).
  - now apply stepsKept_failTurn'.
  - now apply stepsKept_failTurn'.
Qed.

Lemma stepsKept_step JSON_parse fuel w e w' :
  fromPage e = true ->
  step JSON_parse fuel w e = Some w' ->
  stepsKept w -> stepsKept w'.
Proof.
  intros Hpage Hstep Hw. pose proof Hw as (Hm & Ht & Hl).
  destruct e; cbn [step] in Hstep.
  - eapply stepsKept_addMessage; [exact Hstep| |exact Hw].
    cbn in Hpage. destruct hasCitations; try discriminate.
    destruct steps; [discriminate|]. discriminate.
  - injection Hstep as <-. now apply stepsKept_processChat.
  - injection Hstep as <-. unfold regenerateMessage.
    destruct (findIndex _ _) as [i|]; [|exact Hw].
    destruct (nth_error _ _); [|exact Hw].
    destruct (negb _); [exact Hw|]. apply stepsKept_processChat.
    apply (stepsKept_with w); [exact Hw| |exact Ht|reflexivity|now right].
    cbn. intros m xs Hin. apply (Hm m xs).
    rewrite <- (firstn_skipn (i + 1) (ChatState.messages (state w))).
    apply in_or_app. now left.
  - injection Hstep as <-.
    apply (stepsKept_with w); [exact Hw| |exact Ht|reflexivity|now right].
    intros ? ? [].
  - injection Hstep as <-. apply (stepsKept_with w); auto.
  - injection Hstep as <-. apply (stepsKept_with w); auto.
  - injection Hstep as <-. apply (stepsKept_with w); auto.
  - injection Hstep as <-. apply (stepsKept_with w); auto.
  - destruct (active w) as [[snap [|c b]]|]; injection Hstep as <-;
      first [exact Hw|now apply stepsKept_failTurn].
  - destruct (active w) as [[snap [|c b]]|] eqn:Hactive;
      [|injection Hstep as <-; exact Hw..].
    destruct (negb ok); [injection Hstep as <-; now apply stepsKept_failTurn|].
    destruct (negb hasBody); injection Hstep as <-;
      [now apply stepsKept_failTurn|].
    split; [exact Hm|]. split; [exact Ht|]. cbn.
    split; [constructor|]. exists []. now rewrite Hl.
  - destruct (active w) as [[snap [|c b]]|] eqn:Hactive;
      [injection Hstep as <-; exact Hw| |injection Hstep as <-; exact Hw].
    destruct (processChunk _ _ _ _ _ _ _ _) as [[[l st] tr]|] eqn:E; [|discriminate].
    apply forLines_effect in E.
    destruct E as (_ & Hmsgs & _ & _ & _ & _ & (new & Hnew & Hsteps & Hfresh) & _).
    cbn in Hnew. destruct Hl as (Hc & earlier & Hearlier).
    assert (Hcollected : Forall fresh (collectedSteps l)).
    { rewrite Hnew. apply Forall_app. now split. }
    assert (Hlive : collectedSteps l = earlier ++ ChatState.processingSteps st).
    { rewrite Hnew, Hsteps, Hearlier. now rewrite app_assoc. }
    destruct (isComplete l); injection Hstep as <-.
    + apply (stepsKept_afterLoop _ _ _ _ earlier); auto.
      cbn. now rewrite Hmsgs.
    + split; [cbn; now rewrite Hmsgs|]. split; [exact Ht|].
      cbn. split; [exact Hcollected|]. now exists earlier.
  - destruct (active w) as [[snap [|c b]]|] eqn:Hactive;
      injection Hstep as <-; try exact Hw.
    destruct Hl as (Hc & earlier & Hearlier).
    now apply (stepsKept_afterLoop _ _ _ _ earlier).
  - destruct (active w) as [[snap [|c b]]|]; injection Hstep as <-;
      first [exact Hw|now apply stepsKept_failTurn].
  - destruct (timers w) as [|d later] eqn:Htimers; injection Hstep as <-;
      [exact Hw|].
    inversion Ht as [|? ? Hd Hlater]; subst.
    assert (Hcleared : stepsKept
                         (setState Update.clearSteps
                            {| state := state w; processingRef := processingRef w;
                               active := active w; timers := later;
                               sent := sent w; parses := parses w |})).
    { apply (stepsKept_with w); [exact Hw|exact Hm|exact Hlater|reflexivity|
                                  now right]. }
    unfold fireTimer.
    destruct (addMessage _ _ _ _ _ _ _ _ _ _) as [v|] eqn:E; [|exact Hcleared].
    eapply stepsKept_addMessage; [exact E| |exact Hcleared].
    intros xs [= <-]. exact Hd.
Qed.

Lemma run_stepsKept JSON_parse fuel es : forall w w',
  run JSON_parse fuel w es = Some w' ->
  forallb fromPage es = true -> stepsKept w -> stepsKept w'.
Proof.
  induction es as [|e es IH]; cbn; intros v v' Hrun Hpage Hv.
  - now injection Hrun as <-.
  - apply andb_prop in Hpage. destruct Hpage as [He Hes].
    destruct (step JSON_parse fuel v e) as [v1|] eqn:Hstep; [|discriminate].
    eapply IH; [exact Hrun|exact Hes|].
    eapply stepsKept_step; [exact He|exact Hstep|exact Hv].
Qed.

Lemma stepsKept_initial : stepsKept initial.
Proof.
  split; [intros ? ? []|]. split; [constructor|]. apply markedLast_nil.
Qed.

Lemma looksFrom_app isStreaming count steps : forall index more,
  looksFrom isStreaming count index (steps ++ more)
  = looksFrom isStreaming count index steps
    ++ looksFrom isStreaming count (index + List.length steps) more.
Proof.
  induction steps as [|s steps IH]; intros index more; cbn.
  - now rewrite Nat.add_0_r.
  - rewrite IH. do 3 f_equal. lia.
Qed.

(** Steps without a flag are drawn plain, all but the last of a streaming
    panel. *)
Lemma looksFrom_fresh isStreaming count steps : forall index,
  Forall fresh steps ->
  index + List.length steps < count ->
  looksFrom isStreaming count index steps = repeat Plain (List.length steps).
Proof.
  induction steps as [|s steps IH]; intros index Hfresh Hcount; [reflexivity|].
  inversion Hfresh as [|? ? Hs Hrest]; subst. cbn in *.
  rewrite IH by (auto; lia). f_equal.
  unfold stepLook. unfold fresh in Hs. rewrite Hs. cbn.
  replace (index =? count - 1) with false by (symmetry; apply Nat.eqb_neq; lia).
  now rewrite andb_false_r.
Qed.

Lemma drawable_complete before final :
  drawable (before ++ [complete final]) = drawable (before ++ [final]).
Proof. unfold drawable. now rewrite !forallb_app. Qed.

(** A list marked at its end is drawn plain with the last step checked,
    streaming or not. *)
Lemma stepLooks_marked isStreaming before final :
  Forall fresh before ->
  stepLooks isStreaming (before ++ [complete final])
  = if drawable (before ++ [final])
    then Some (repeat Plain (List.length before) ++ [Checked])
    else None.
Proof.
  intros Hfresh. unfold stepLooks. rewrite drawable_complete.
  destruct (drawable _); [|reflexivity]. f_equal.
  rewrite looksFrom_app, length_app. cbn.
  rewrite looksFrom_fresh by (auto; lia). reflexivity.
Qed.

Lemma stepLooks_markedLast isStreaming before final :
  markedLast (before ++ [final]) ->
  stepLooks isStreaming (before ++ [final])
  = if drawable (before ++ [final])
    then Some (repeat Plain (List.length before) ++ [Checked])
    else None.
Proof.
  intros (collected & Hfresh & Hsteps).
  destruct collected as [|s collected] using rev_ind; [now destruct before|].
  clear IHcollected. rewrite markFinal_snoc in Hsteps.
  apply app_inj_tail in Hsteps. destruct Hsteps as [-> ->].
  apply Forall_app in Hfresh. destruct Hfresh as [Hfresh _].
  rewrite stepLooks_marked by exact Hfresh. now rewrite drawable_complete.
Qed.

(** A list without a flag is drawn plain in a streaming panel, the last
    step as the one that streams. *)
Lemma stepLooks_fresh_live before s :
  Forall fresh (before ++ [s]) ->
  stepLooks true (before ++ [s])
  = if drawable (before ++ [s])
    then Some (repeat Plain (List.length before) ++ [Streamed])
    else None.
Proof.
  intros Hfresh. apply Forall_app in Hfresh. destruct Hfresh as [Hfresh Hs].
  unfold stepLooks. destruct (drawable _); [|reflexivity]. f_equal.
  rewrite looksFrom_app, length_app. cbn.
  rewrite looksFrom_fresh by (auto; lia).
  inversion Hs as [|? ? Hf _]; subst. unfold stepLook, fresh in *. rewrite Hf.
  cbn. replace (List.length before =? List.length before + 1 - 1) with true
    by (symmetry; apply Nat.eqb_eq; lia).
  reflexivity.
Qed.

(** The check mark stands on the last step and nowhere else, and it is the
    terminal frame that sets it.  In every world the hook reaches under the
    page: the open panel of a message of the history draws all its steps
    plain and the last one checked; while a turn is in flight the panel of
    the progress list draws all its steps plain and the last one as
    streaming; when the chunk with the terminal frame has been read, the
    progress list ends with the last step collected, now marked, behind
    steps of the turn that are not, and for as long as the list stays its
    panel draws that last step checked.  A panel with a step whose message
    is an object is not drawn at all: rendering it throws. *)
Theorem terminal_frame_checks_the_last_step
    (JSON_parse : string -> ParseResult) (fuel : nat) (es : list Event)
    (w : World) :
  run JSON_parse fuel initial es = Some w ->
  forallb fromPage es = true ->
  (forall m before final,
      In m (ChatState.messages (state w)) ->
      Message.processingSteps m = Some (before ++ [final]) ->
      stepLooks false (before ++ [final])
      = if drawable (before ++ [final])
        then Some (repeat Plain (List.length before) ++ [Checked])
        else None)
  /\ (forall before final,
        active w <> None ->
        ChatState.processingSteps (state w) = before ++ [final] ->
        stepLooks true (before ++ [final])
        = if drawable (before ++ [final])
          then Some (repeat Plain (List.length before) ++ [Streamed])
          else None)
  /\ (forall before final,
        active w = None ->
        ChatState.processingSteps (state w) = before ++ [final] ->
        stepLooks true (before ++ [final])
        = if drawable (before ++ [final])
          then Some (repeat Plain (List.length before) ++ [Checked])
          else None)
  /\ (forall fr chunk snap collected buffer l st tr hasCitations before final,
        active w = Some {| snap := snap; phase := Reading collected buffer |} ->
        processChunk JSON_parse fuel snap collected buffer chunk
                     (state w) (parses w) = Some (l, st, tr) ->
        isComplete l = true ->
        hasCitationsOf (responseData l) = Some hasCitations ->
        collectedSteps l = before ++ [final] ->
        exists w' kept shown,
          step JSON_parse fuel w (ReadChunk fr chunk) = Some w'
          /\ active w' = None
          /\ before = kept ++ shown
          /\ ChatState.processingSteps (state w') = shown ++ [complete final]
          /\ stepLooks true (shown ++ [complete final])
             = if drawable (shown ++ [final])
               then Some (repeat Plain (List.length shown) ++ [Checked])
               else None).
Proof.
  intros Hrun Hpage.
  assert (Hkept : stepsKept w)
    by (apply (run_stepsKept _ _ _ _ _ Hrun Hpage), stepsKept_initial).
  destruct Hkept as (Hm & Ht & Hlive).
  split; [|split; [|split]].
  - intros m before final Hin Hsteps.
    apply stepLooks_markedLast. exact (Hm _ _ Hin Hsteps).
  - intros before final Hactive Hsteps.
    apply stepLooks_fresh_live. rewrite <- Hsteps.
    destruct (active w) as [[snap [|c b]]|]; [| |now destruct Hactive].
    + rewrite Hlive in Hsteps. now destruct before.
    + destruct Hlive as (Hc & earlier & ->).
      apply Forall_app in Hc. apply Hc.
  - intros before final Hactive Hsteps. rewrite Hactive in Hlive.
    apply stepLooks_markedLast. now rewrite <- Hsteps.
  - intros fr chunk snap collected buffer l st tr h before final
           Hactive Hchunk Hcomplete Hh Hlast.
    rewrite Hactive in Hlive. destruct Hlive as (Hc & earlier & Hearlier).
    cbn [step]. rewrite Hactive, Hchunk, Hcomplete.
    pose proof Hchunk as Heff. apply forLines_effect in Heff.
    destruct Heff as (_ & _ & _ & _ & _ & _ & (new & Hnew & Hsteps & Hfresh) & Htruthy).
    cbn in Hnew, Htruthy.
    assert (Hdata : truthy (responseData l) = true)
      by (apply Htruthy; [discriminate|exact Hcomplete]).
    unfold afterLoop. rewrite Hdata, Hh.
    set (v := setState Update.stopTyping _).
    assert (Hv : collectedSteps l = earlier ++ ChatState.processingSteps (state v)).
    { subst v. cbn. rewrite Hnew, Hsteps, Hearlier. now rewrite app_assoc. }
    destruct (finishTurn_live h l v earlier before final Hv Hlast)
      as (shown & kept & Hshown & Hbefore).
    exists (finishTurn h l v), kept, shown.
    split; [reflexivity|].
    split; [apply finishTurn_keeps|].
    split; [exact Hbefore|]. split; [exact Hshown|].
    apply stepLooks_marked.
    assert (Hall : Forall fresh (before ++ [final])).
    { rewrite <- Hlast, Hnew. apply Forall_app. now split. }
    apply Forall_app in Hall. destruct Hall as [Hb _].
    rewrite Hbefore in Hb. apply Forall_app in Hb. apply Hb.
Qed.

(** ** The draft *)

(** A draft of white space only is not sent and stays in the box.  Any
    other draft is sent as it was typed, white space around it included:
    it is the content of the message appended and, when the gate is open,
    the query of the request; the box is then empty. *)
Theorem draft_is_sent_as_typed (fr : Fresh) (draft : string) (w : World) :
  (JS.trim draft = ""%string -> submitDraft fr draft w = Some (w, draft))
  /\ (JS.trim draft <> ""%string ->
      exists w' m,
        submitDraft fr draft w = Some (w', ""%string)
        /\ ChatState.messages (state w') = ChatState.messages (state w) ++ [m]
        /\ Message.content m = JStr draft
        /\ sent w'
           = if processingRef w then sent w
             else sent w ++ [requestOf (state w) (JStr draft)]).
Proof.
  unfold submitDraft, ChatInput.handleSubmit. split.
  - intros ->. reflexivity.
  - intros Hdraft. apply String.eqb_neq in Hdraft. rewrite Hdraft. cbn [negb].
    unfold handleSendMessage, addMessage, processChat. cbn.
    destruct (processingRef w); cbn; eexists; eexists;
      (split; [reflexivity|]); cbn; repeat split; reflexivity.
Qed.

(** ** Questions as plain text, answers as markdown *)

Lemma typed_processChat snap query w :
  Forall typedBySender (ChatState.messages (state w)) ->
  Forall typedBySender (ChatState.messages (state (processChat snap query w))).
Proof. unfold processChat. now destruct (processingRef w). Qed.

Lemma typed_addMessage fr snap content sender type files h steps c w w' :
  addMessage fr snap content sender type files h steps c w = Some w' ->
  type = match sender with user => text | bot => markdown end ->
  Forall typedBySender (ChatState.messages (state w)) ->
  Forall typedBySender (ChatState.messages (state w')).
Proof.
  unfold addMessage. destruct (includesFence content); [|discriminate].
  intros H Htype Hw. injection H as <-.
  assert (Hkept : Forall typedBySender
                    (ChatState.messages
                       (state (setState
                                 (Update.appendMessage
                                    (newMessage fr content b sender type files h
                                                steps c)) w)))).
  { cbn. apply Forall_app. split; [exact Hw|]. constructor; [|constructor].
    exact Htype. }
  destruct (_ && _); [now apply typed_processChat|exact Hkept].
Qed.

Lemma typed_failTurn fr snap error w :
  Forall typedBySender (ChatState.messages (state w)) ->
  Forall typedBySender (ChatState.messages (state (failTurn fr snap error w))).
Proof.
  intros Hw. unfold failTurn, addMessage. cbn.
  apply Forall_app. split; [exact Hw|]. now repeat constructor.
Qed.

Lemma typed_afterLoop fr snap l w :
  Forall typedBySender (ChatState.messages (state w)) ->
  Forall typedBySender (ChatState.messages (state (afterLoop fr snap l w))).
Proof.
  intros Hw. unfold afterLoop.
  destruct (truthy _); [destruct (hasCitationsOf _)|].
  - unfold finishTurn. now destruct (lastStep _).
  - now apply typed_failTurn.
  - now apply typed_failTurn.
Qed.

Lemma typed_step JSON_parse fuel w e w' :
  fromPage e = true ->
  step JSON_parse fuel w e = Some w' ->
  Forall typedBySender (ChatState.messages (state w)) ->
  Forall typedBySender (ChatState.messages (state w')).
Proof.
  intros Hpage Hstep Hw. destruct e; cbn [step] in Hstep.
  - eapply typed_addMessage; [exact Hstep| |exact Hw].
    cbn in Hpage. destruct hasCitations; try discriminate.
    destruct steps; [discriminate|]. destruct citations; try discriminate.
    destruct sender, type; try discriminate; reflexivity.
  - injection Hstep as <-. now apply typed_processChat.
  - injection Hstep as <-. unfold regenerateMessage.
    destruct (findIndex _ _) as [i|]; [|exact Hw].
    destruct (nth_error _ _); [|exact Hw].
    destruct (negb _); [exact Hw|]. apply typed_processChat. cbn.
    rewrite <- (firstn_skipn (i + 1)) in Hw. apply Forall_app in Hw.
    now destruct Hw.
  - injection Hstep as <-. constructor.
  - injection Hstep as <-. exact Hw.
  - injection Hstep as <-. exact Hw.
  - injection Hstep as <-. exact Hw.
  - injection Hstep as <-. exact Hw.
  - destruct (active w) as [[snap [|c b]]|]; injection Hstep as <-;
      first [exact Hw|now apply typed_failTurn].
  - destruct (active w) as [[snap [|c b]]|];
      [|injection Hstep as <-; exact Hw..].
    destruct (negb ok); [injection Hstep as <-; now apply typed_failTurn|].
    destruct (negb hasBody); injection Hstep as <-;
      [now apply typed_failTurn|exact Hw].
  - destruct (active w) as [[snap [|c b]]|];
      [injection Hstep as <-; exact Hw| |injection Hstep as <-; exact Hw].
    destruct (processChunk _ _ _ _ _ _ _ _) as [[[l st] tr]|] eqn:E; [|discriminate].
    apply forLines_effect in E. destruct E as (_ & Hm & _).
    destruct (isComplete l); injection Hstep as <-.
    + apply typed_afterLoop. cbn. now rewrite Hm.
    + cbn. now rewrite Hm.
  - destruct (active w) as [[snap [|c b]]|]; injection Hstep as <-;
      first [exact Hw|now apply typed_afterLoop].
  - destruct (active w) as [[snap [|c b]]|]; injection Hstep as <-;
      first [exact Hw|now apply typed_failTurn].
  - destruct (timers w) as [|d later]; injection Hstep as <-; [exact Hw|].
    unfold fireTimer.
    destruct (addMessage _ _ _ _ _ _ _ _ _ _) as [v|] eqn:E; [|exact Hw].
    eapply typed_addMessage; [exact E|reflexivity|exact Hw].
Qed.

(** Under the page every message of the user has the type [text] and every
    message of the bot the type [markdown], the error texts included: so
    [ChatMessage] draws what the user typed as plain text and what the bot
    says through the markdown renderer. *)
Theorem questions_plain_answers_markdown
    (JSON_parse : string -> ParseResult) (fuel : nat) (es : list Event)
    (w : World) (m : Message.t) :
  run JSON_parse fuel initial es = Some w ->
  forallb fromPage es = true ->
  In m (ChatState.messages (state w)) ->
  renderContent m = match Message.sender m with
                    | user => PlainText
                    | bot => Markdown
                    end.
Proof.
  intros Hrun Hpage Hin.
  assert (H : forall es v v',
             run JSON_parse fuel v es = Some v' ->
             forallb fromPage es = true ->
             Forall typedBySender (ChatState.messages (state v)) ->
             Forall typedBySender (ChatState.messages (state v'))).
  { clear. induction es as [|e es IH]; cbn; intros v v' Hrun Hpage Hv.
    - now injection Hrun as <-.
    - apply andb_prop in Hpage. destruct Hpage as [He Hes].
      destruct (step JSON_parse fuel v e) as [v1|] eqn:Hstep; [|discriminate].
      eapply IH; [exact Hrun|exact Hes|].
      eapply typed_step; [exact He|exact Hstep|exact Hv]. }
  specialize (H _ _ _ Hrun Hpage (Forall_nil _)).
  rewrite Forall_forall in H. specialize (H m Hin).
  unfold renderContent. rewrite H. now destruct (Message.sender m).
Qed.

(** ** The claims on concrete runs *)

(** C1. A chunk boundary after a space inside a string literal changes the
    frame that is decoded: the line kept in the buffer is the trimmed one,
    so the space is lost when the next chunk is joined to it.  The whole
    stream in one chunk yields the answer as sent; the same text in two
    chunks yields another answer.  (A boundary inside a word, as in the
    frame cut after the letters comple of its type, is joined as sent.) *)
Example C1_split_after_space_changes_the_frame :
  let part1 := "{'type':'complete','response':'Here is " in
  let part2 := "the answer'}$" in
  exists whole split inWord,
    run Json.parse 9 Scenario.reading
        [Scenario.chunk (part1 ++ part2); Scenario.timer "b1"] = Some whole
    /\ run Json.parse 9 Scenario.reading
           [Scenario.chunk part1; Scenario.chunk part2; Scenario.timer "b1"]
       = Some split
    /\ shown whole = [(JStr "hi", None); (JStr "Here is the answer", Some [])]
    /\ shown split = [(JStr "hi", None); (JStr "Here isthe answer", Some [])]
    /\ parses split =
       [StrictParse (Json.wire "{'type':'complete','response':'Here is");
        StrictParse (Json.wire "{'type':'complete','response':'Here isthe answer'}")]
    /\ run Json.parse 9 Scenario.reading
           [Scenario.chunk "{'type':'comple"; Scenario.chunk "te','response':'ok'}$";
            Scenario.timer "b1"] = Some inWord
    /\ shown inWord = [(JStr "hi", None); (JStr "ok", Some [])].
Proof.
  cbv zeta. eexists. eexists. eexists.
  split; [vm_compute; reflexivity|].
  split; [vm_compute; reflexivity|].
  split; [vm_compute; reflexivity|].
  split; [vm_compute; reflexivity|].
  split; [vm_compute; reflexivity|].
  split; vm_compute; reflexivity.
Qed.

(** C2. A frame whose last string lacks its closing quote is not
    recovered.  The repair appends a quote to the end of the line, behind
    the closing brace; the result is no object, and the frame is dropped
    with its type and its message.  The frame after it is read. *)
Example C2_missing_quote_frame_is_lost :
  exists w,
    run Json.parse 9 Scenario.reading
        [Scenario.chunk (Scenario.missingQuote ++ "$" ++ Scenario.ok ++ "$");
         Scenario.timer "b1"] = Some w
    /\ shown w = [(JStr "hi", None); (JStr "ok", Some [])]
    /\ parses w =
       [StrictParse (Json.wire Scenario.missingQuote);
        RepairParse (Json.wire (Scenario.missingQuote ++ "'"));
        StrictParse (Json.wire Scenario.ok)]
    /\ Json.parse (Json.wire Scenario.missingQuote)
       = SyntaxError "JSON.parse: unterminated string at line 1 column 48 of the JSON data"
    /\ Json.parse (Json.wire (Scenario.missingQuote ++ "'"))
       = SyntaxError "JSON.parse: end of data after property value in object at line 1 column 49 of the JSON data".
Proof.
  eexists. split; [vm_compute; reflexivity|].
  repeat split; vm_compute; reflexivity.
Qed.



Lemma C4_witness :
  exists w' m,
    step Json.parse 9 Scenario.twoSteps Scenario.done = Some w'
    /\ ChatState.messages (state w') =
       ChatState.messages (state Scenario.twoSteps) ++ [m]
    /\ Message.content m = JStr Text.incomplete
    /\ Message.processingSteps m = None
    /\ ChatState.processingSteps (state w') = [].
Proof.
  destruct (C4_stream_end_without_terminal_frame
              Json.parse 9 Scenario.twoSteps (Scenario.fresh "e") _ _ _ eq_refl)
    as (w' & m & H1 & H2 & _ & H4 & H5 & _ & H7 & _).
  exists w', m. auto.
Defined.

(** C5, as stated, fails: text left in the buffer gets no parse attempt when
    the stream ends.  It was parsed when its chunk arrived, and once more
    with every empty chunk after it: here twice, and the end of the stream
    adds no call. *)
Lemma C5_counterexample :
  let partial := Json.wire "{'type':'comple" in
  exists w w',
    run Json.parse 9 Scenario.reading
        [Scenario.chunk "{'type':'comple"; Scenario.chunk ""] = Some w
    /\ active w = Some {| snap := Update.cleared; phase := Reading [] partial |}
    /\ step Json.parse 9 w Scenario.done = Some w'
    /\ parses w = [StrictParse partial; StrictParse partial]
    /\ parses w' = parses w.
Proof.
  cbv zeta. eexists. eexists.
  split; [vm_compute; reflexivity|].
  split; [vm_compute; reflexivity|].
  split; [vm_compute; reflexivity|].
  split; vm_compute; reflexivity.
Qed.

Lemma C5_witness :
  let partial := Json.wire "{'type':'comple" in
  throws Json.parse partial
  /\ exists w1 w2,
       step Json.parse 9 Scenario.twoSteps (Scenario.chunk "{'type':'comple") = Some w1
       /\ step Json.parse 9 w1 Scenario.done = Some w2
       /\ parses w2 = parses w1.
Proof.
  cbv zeta.
  destruct (C5_buffer_dropped_at_stream_end
              Json.parse 9 Scenario.twoSteps
              (Scenario.world [Scenario.send "u1" "hi"; Scenario.resolved;
                               Scenario.chunk (Scenario.searching ++ "$"
                                               ++ Scenario.readingDocs ++ "$");
                               Scenario.chunk "{'type':'comple"])
              (Scenario.fresh "e") (Scenario.fresh "e") (Json.wire "{'type':'comple")
              Update.cleared
              (match active Scenario.twoSteps with
               | Some {| phase := Reading c _ |} => c
               | _ => []
               end)
              (Json.wire "{'type':'comple"))
    as (_ & Hthrows & w2 & m & Hdone & Hparses & _).
  - vm_compute. reflexivity.
  - vm_compute. reflexivity.
  - vm_compute. discriminate.
  - split; [exact Hthrows|]. eexists. eexists.
    split; [vm_compute; reflexivity|]. split; [exact Hdone|exact Hparses].
Defined.



Lemma session_token_is_kept_witness :
  let other := "{'type':'complete','response':'b','session_id':'other'}$" in
  holdsToken (JStr "abc123") Scenario.answered
  /\ exists w',
       run Json.parse 9 Scenario.answered
           [Scenario.send "u2" "again"; Scenario.resolved; Scenario.chunk other;
            Scenario.timer "b2"] = Some w'
       /\ ChatState.currentSession (state w') = JStr "abc123"
       /\ exists new, sent w' = sent Scenario.answered ++ new
                      /\ Forall (fun r => session_id r = Some (JStr "abc123")) new.
Proof.
  cbv zeta.
  assert (Hold : holdsToken (JStr "abc123") Scenario.answered).
  { split; [reflexivity|]. intros a Ha. discriminate Ha. }
  split; [exact Hold|].
  eexists. split; [vm_compute; reflexivity|].
  match goal with
  | |- ChatState.currentSession (state ?w) = _ /\ _ =>
      destruct (session_token_is_kept
                  Json.parse 9 (JStr "abc123") Scenario.answered w
                  [Scenario.send "u2" "again"; Scenario.resolved;
                   Scenario.chunk "{'type':'complete','response':'b','session_id':'other'}$";
                   Scenario.timer "b2"]
                  eq_refl Hold eq_refl)
        as ([Htoken _] & Hsent & _)
  end.
  - vm_compute. reflexivity.
  - split; [exact Htoken|exact Hsent].
Defined.

(** C8, as stated, fails: of the two steps attached to the answer only the
    last is marked completed. *)
Lemma C8_counterexample :
  exists m steps,
    ChatState.messages (state Scenario.answered) =
    [newMessage (Scenario.fresh "u1") (JStr "hi") false user text None
                JUndefined None JUndefined; m]
    /\ Message.content m = JStr "Here is the answer"
    /\ Message.processingSteps m = Some steps
    /\ map ProcessingStep.message steps = [JStr "Searching"; JStr "Reading docs"]
    /\ map ProcessingStep.completed steps = [None; Some true]
    /\ ~ Forall (fun s => ProcessingStep.completed s = Some true) steps.
Proof.
  eexists. eexists. split; [vm_compute; reflexivity|].
  repeat split; try reflexivity.
  intros H. inversion H as [|s rest Hs _]. discriminate Hs.
Qed.

Lemma C8_witness :
  let stream := (Scenario.searching ++ "$" ++ Scenario.readingDocs ++ "$"
                 ++ Scenario.answer ++ "$")%string in
  exists w1 w2 m,
    step Json.parse 9 Scenario.reading (Scenario.chunk stream) = Some w1
    /\ step Json.parse 9 w1 (Scenario.timer "b1") = Some w2
    /\ ChatState.messages (state w2) =
       ChatState.messages (state Scenario.reading) ++ [m]
    /\ Message.content m = JStr "Here is the answer"
    /\ option_map (map ProcessingStep.completed) (Message.processingSteps m)
       = Some [None; Some true]
    /\ ChatState.currentSession (state w1) = JStr "abc123".
Proof.
  cbv zeta.
  pose (chunk := Json.wire (Scenario.searching ++ "$" ++ Scenario.readingDocs
                            ++ "$" ++ Scenario.answer ++ "$")).
  destruct (processChunk Json.parse 9 Update.cleared [] "" chunk
                         (state Scenario.reading) (parses Scenario.reading))
    as [[[l st] tr]|] eqn:E; [|vm_compute in E; discriminate E].
  assert (Hl : l = {| isComplete := true;
                      responseData :=
                        JObj [("type", JStr "complete");
                              ("response", JStr "Here is the answer");
                              ("session_id", JStr "abc123")];
                      collectedSteps :=
                        [newStep (JObj [("type", JStr "processing_step");
                                        ("message", JStr "Searching")]);
                         newStep (JObj [("type", JStr "processing_step");
                                        ("message", JStr "Reading docs")])];
                      currentBuffer := "" |}
               /\ ChatState.currentSession st = JStr "abc123").
  { vm_compute in E. injection E as <- <- _. split; reflexivity. }
  destruct Hl as [-> Hst].
  destruct (C8_terminal_frame_marks_last_step
              Json.parse 9 Scenario.reading (Scenario.fresh "e") (Scenario.fresh "b1")
              chunk Update.cleared [] "" _ st tr eq_refl eq_refl E eq_refl)
    as (w1 & Hstep & _ & _ & _ & Hsession & _ & _ & _ & Htimer).
  destruct (Htimer "Here is the answer" JUndefined eq_refl eq_refl)
    as (w2 & m & Hfire & Hm & _ & Hcontent & Hsteps & _).
  exists w1, w2, m.
  split; [exact Hstep|]. split; [exact Hfire|]. split; [exact Hm|].
  split; [exact Hcontent|]. split; [now rewrite Hsteps|].
  now rewrite Hsession.
Defined.

(** C9, as stated, fails: while a turn is in flight, regenerating the user's
    message empties the progress list of that turn and sends nothing. *)
Lemma C9_counterexample :
  exists w',
    processingRef Scenario.twoSteps = true
    /\ findIndex "u1" (ChatState.messages (state Scenario.twoSteps)) = Some 0
    /\ step Json.parse 9 Scenario.twoSteps (CallRegenerate "u1") = Some w'
    /\ sent w' = sent Scenario.twoSteps
    /\ List.length (ChatState.processingSteps (state Scenario.twoSteps)) = 2
    /\ ChatState.processingSteps (state w') = [].
Proof.
  eexists. split; [reflexivity|]. split; [reflexivity|].
  split; [vm_compute; reflexivity|]. repeat split; reflexivity.
Qed.

Lemma C9_witness :
  exists w',
    step Json.parse 9 Scenario.answered (CallRegenerate "u1") = Some w'
    /\ shown w' = [(JStr "hi", None)]
    /\ sent w' = sent Scenario.answered
                 ++ [{| user_query := JStr "hi"; session_id := Some (JStr "abc123") |}]
    /\ step Json.parse 9 Scenario.answered (CallRegenerate "b1") = Some Scenario.answered
    /\ step Json.parse 9 Scenario.answered (CallRegenerate "zz") = Some Scenario.answered.
Proof.
  pose proof (C9_regenerate_when_idle Json.parse 9 Scenario.answered "u1") as Huser.
  pose proof (C9_regenerate_when_idle Json.parse 9 Scenario.answered "b1") as Hbot.
  pose proof (C9_regenerate_when_idle Json.parse 9 Scenario.answered "zz") as Hnone.
  cbn in Huser, Hbot, Hnone.
  destruct Huser as (m & Hm & _ & Huser). injection Hm as <-.
  destruct (Huser eq_refl) as (w' & Hstep & Hmsgs & _ & _ & Hsent & _).
  destruct Hbot as (m & Hm & _ & Hbot). injection Hm as <-.
  exists w'. split; [exact Hstep|].
  split; [unfold shown; rewrite Hmsgs; reflexivity|].
  split; [rewrite Hsent; reflexivity|].
  split; [exact Hbot|exact Hnone].
Defined.

Lemma split_chunk_rejoined_witness :
  exists w2 tr,
    run Json.parse 9 Scenario.reading
        [Scenario.chunk "{'type':'comple"; Scenario.chunk "te','response':'ok'}$"]
    = Some w2
    /\ step Json.parse 18 Scenario.reading
            (Scenario.chunk "{'type':'complete','response':'ok'}$")
       = Some (withParses tr w2).
Proof.
  pose (w1 := Scenario.world [Scenario.send "u1" "hi"; Scenario.resolved;
                              Scenario.chunk "{'type':'comple"]).
  pose (w2 := Scenario.world [Scenario.send "u1" "hi"; Scenario.resolved;
                              Scenario.chunk "{'type':'comple";
                              Scenario.chunk "te','response':'ok'}$"]).
  destruct (split_chunk_rejoined
              Json.parse 9 Scenario.reading w1 w2 (Scenario.fresh "e")
              (Json.wire "{'type':'comple") (Json.wire "te','response':'ok'}$")
              Update.cleared [] [])
    as [tr Hstep].
  - reflexivity.
  - vm_compute. reflexivity.
  - vm_compute. reflexivity.
  - vm_compute. discriminate.
  - vm_compute. reflexivity.
  - exists w2, tr. split; [vm_compute; reflexivity|]. exact Hstep.
Defined.

Lemma closing_quote_never_recovers_witness :
  catchBlock Json.parse false (Json.wire Scenario.missingQuote)
             (ThrownSyntaxError
                "JSON.parse: unterminated string at line 1 column 48 of the JSON data")
  = (Continue, [RepairParse (Json.wire Scenario.missingQuote ++ String JS.dquote "")]).
Proof.
  apply closing_quote_never_recovers; vm_compute; congruence.
Defined.

Lemma gate_closed_while_in_flight_witness :
  processingRef Scenario.reading = inFlight Scenario.reading
  /\ processingRef Scenario.answered = inFlight Scenario.answered.
Proof.
  split.
  - apply (gate_closed_while_in_flight
             Json.parse 9 [Scenario.send "u1" "hi"; Scenario.resolved]).
    vm_compute. reflexivity.
  - apply (gate_closed_while_in_flight
             Json.parse 9
             [Scenario.send "u1" "hi"; Scenario.resolved;
              Scenario.chunk (Scenario.searching ++ "$" ++ Scenario.readingDocs
                              ++ "$" ++ Scenario.answer ++ "$");
              Scenario.timer "b1"]).
    vm_compute. reflexivity.
Defined.

Lemma request_only_through_the_gate_witness :
  exists w',
    step Json.parse 9 initial (Scenario.send "u1" "hi") = Some w'
    /\ (sent w' = sent initial
        \/ (processingRef initial = false /\ processingRef w' = true
            /\ exists request, sent w' = sent initial ++ [request])).
Proof.
  exists (Scenario.world [Scenario.send "u1" "hi"]).
  split; [vm_compute; reflexivity|].
  apply (request_only_through_the_gate
           Json.parse 9 initial _ (Scenario.send "u1" "hi")).
  vm_compute. reflexivity.
Defined.

Lemma chunk_is_read_to_its_end_witness :
  exists w',
    step Json.parse 100 Scenario.reading
         (Scenario.chunk (Scenario.missingQuote ++ "$" ++ Scenario.ok ++ "$"))
    = Some w'.
Proof.
  apply (chunk_is_read_to_its_end
           100 Scenario.reading (Scenario.fresh "e")
           (Json.wire (Scenario.missingQuote ++ "$" ++ Scenario.ok ++ "$"))
           Update.cleared [] "").
  - reflexivity.
  - apply Nat.leb_le. vm_compute. reflexivity.
Defined.

Lemma chunk_fails_on_its_citations_only_witness :
  sent Cases.failedOnCitations = sent Scenario.reading
  /\ exists l st tr,
       processChunk Json.parse 9 Update.cleared [] ""
                    (Json.wire (Cases.unmeasurable ++ "$"))
                    (state Scenario.reading) (parses Scenario.reading)
       = Some (l, st, tr).
Proof.
  destruct (chunk_fails_on_its_citations_only
              Json.parse 9 Scenario.reading Cases.failedOnCitations
              (Scenario.fresh "e") (Json.wire (Cases.unmeasurable ++ "$"))
              Update.cleared [] "")
    as (Hsent & l & st & tr & Hchunk & _).
  - reflexivity.
  - vm_compute. reflexivity.
  - split; [exact Hsent|]. exists l, st, tr. exact Hchunk.
Defined.

Lemma response_without_stream_ends_the_turn_witness :
  exists w' m,
    step Json.parse 9 Cases.awaiting
         (FetchResolved (Scenario.fresh "b1") false 503 true) = Some w'
    /\ ChatState.messages (state w')
       = ChatState.messages (state Cases.awaiting) ++ [m]
    /\ Message.content m = JStr Text.unreachable
    /\ processingRef w' = false.
Proof.
  destruct (response_without_stream_ends_the_turn
              Json.parse 9 Cases.awaiting (Scenario.fresh "b1") false 503 true
              Update.cleared eq_refl eq_refl)
    as (w' & m & Hstep & Hm & _ & _ & Hcontent & _ & _ & _ & Hgate & _).
  exists w', m. auto.
Defined.

Lemma bot_message_empties_the_queue_witness :
  ChatState.files (state Cases.readingWithFile) <> []
  /\ exists w',
       step Json.parse 9 Cases.readingWithFile Scenario.done = Some w'
       /\ ChatState.files (state w') = [].
Proof.
  split; [discriminate|].
  destruct (step Json.parse 9 Cases.readingWithFile Scenario.done) as [w'|] eqn:E;
    [|vm_compute in E; discriminate E].
  exists w'. split; [reflexivity|].
  apply (bot_message_empties_the_queue
           Json.parse 9 Cases.readingWithFile w' Scenario.done eq_refl E).
  vm_compute in E. injection E as <-. discriminate.
Defined.

Lemma added_file_is_removed_again_witness :
  exists w',
    run Json.parse 9 Cases.readingWithFile
        [Cases.addFile "f2" "more.txt"; CallRemoveFile "f2"] = Some w'
    /\ ChatState.files (state w') = ChatState.files (state Cases.readingWithFile).
Proof.
  destruct (added_file_is_removed_again
              Json.parse 9 Cases.readingWithFile (Scenario.fresh "f2")
              "more.txt" "text/plain" "blob:1")
    as (w' & Hrun & Hfiles & _).
  - repeat constructor. discriminate.
  - exists w'. split; [exact Hrun|exact Hfiles].
Defined.

Lemma typing_indicator_only_in_flight_witness :
  ChatState.isTyping (state Scenario.reading) = true
  /\ processingRef Scenario.reading = true.
Proof.
  split; [reflexivity|].
  apply (typing_indicator_only_in_flight
           Json.parse 9 [Scenario.send "u1" "hi"; Scenario.resolved]
           Scenario.reading).
  - vm_compute. reflexivity.
  - reflexivity.
Defined.

Lemma clear_keeps_the_turn_in_flight_witness :
  exists w1 w2,
    step Json.parse 9 Scenario.reading CallClear = Some w1
    /\ processingRef w1 = true
    /\ active w1 = active Scenario.reading
    /\ handleSendMessage (Scenario.fresh "u2") "again" w1 = Some w2
    /\ sent w2 = sent Scenario.reading.
Proof.
  destruct (clear_keeps_the_turn_in_flight
              Json.parse 9 Scenario.reading (Scenario.fresh "u2") "again" eq_refl)
    as (w1 & w2 & m & H1 & _ & H2 & H3 & _ & H4 & _ & _ & H5 & _).
  exists w1, w2. auto.
Defined.

Lemma cleared_chat_still_gets_the_answer_witness :
  exists w' m,
    run Json.parse 9 Cases.finished [CallClear; Scenario.timer "b1"] = Some w'
    /\ ChatState.messages (state w') = [m]
    /\ Message.content m = JStr "Here is the answer".
Proof.
  destruct (timers Cases.finished) as [|d later] eqn:Htimers;
    [discriminate Htimers|].
  destruct (cleared_chat_still_gets_the_answer
              Json.parse 9 Cases.finished (Scenario.fresh "b1") d later
              "Here is the answer" Htimers)
    as (w' & m & Hrun & Hm & _ & Hcontent & _).
  - injection Htimers as <- _. reflexivity.
  - exists w', m. auto.
Defined.

Lemma answer_without_text_is_lost_witness :
  exists w',
    step Json.parse 9 Cases.finishedWithoutText (Scenario.timer "b1") = Some w'
    /\ ChatState.messages (state w')
       = ChatState.messages (state Cases.finishedWithoutText)
    /\ timers w' = [].
Proof.
  destruct (timers Cases.finishedWithoutText) as [|d later] eqn:Htimers;
    [discriminate Htimers|].
  destruct (answer_without_text_is_lost
              Json.parse 9 Cases.finishedWithoutText (Scenario.fresh "b1") d later
              Htimers)
    as (w' & Hstep & Hm & _ & _ & Hlater & _).
  - injection Htimers as <- _. exact I.
  - exists w'. split; [exact Hstep|]. split; [exact Hm|].
    rewrite Hlater. now injection Htimers as _ <-.
Defined.

Lemma citations_attached_by_length_witness :
  exists w' m,
    run Json.parse 9 Scenario.reading
        [Scenario.chunk (Cases.lengthAsText ++ "$"); Scenario.timer "b1"] = Some w'
    /\ ChatState.messages (state w')
       = ChatState.messages (state Scenario.reading) ++ [m]
    /\ Message.hasCitations m = JBool true
    /\ Message.citations m = JObj [("length", JStr "2")].
Proof.
  pose (chunk := Json.wire (Cases.lengthAsText ++ "$")).
  destruct (processChunk Json.parse 9 Update.cleared [] "" chunk
                         (state Scenario.reading) (parses Scenario.reading))
    as [[[l st] tr]|] eqn:E; [|vm_compute in E; discriminate E].
  assert (Hl : isComplete l = true
               /\ getProp "response" (responseData l) = JStr "ok"
               /\ getProp "citation_array" (responseData l)
                  = JObj [("length", JStr "2")]).
  { vm_compute in E. injection E as <- _ _. repeat split; reflexivity. }
  destruct Hl as (Hcomplete & Hresponse & Hcited).
  pose proof (citations_attached_by_length
                Json.parse 9 Scenario.reading (Scenario.fresh "e")
                (Scenario.fresh "b1") chunk Update.cleared [] "" l st tr "ok"
                eq_refl eq_refl E Hcomplete Hresponse) as H.
  cbv zeta in H. rewrite Hcited in H.
  assert (Hconv : convertible (getProp "length" (JObj [("length", JStr "2")]))
                  = true) by reflexivity.
  assert (Habove : above0 (getProp "length" (JObj [("length", JStr "2")]))
                   = true) by (vm_compute; reflexivity).
  rewrite Hconv, Habove in H. cbn [negb] in H.
  destruct H as (w' & m & Hrun & Hm & _ & Hhas & Hattached).
  exists w', m. auto.
Defined.

Lemma unmeasurable_citations_fail_the_turn_witness :
  exists w' m,
    run Json.parse 9 Scenario.reading
        [Scenario.chunk (Cases.unmeasurable ++ "$"); Scenario.timer "b1"] = Some w'
    /\ ChatState.messages (state w')
       = ChatState.messages (state Scenario.reading) ++ [m]
    /\ Message.content m = JStr Text.generic
    /\ timers w' = [].
Proof.
  pose (chunk := Json.wire (Cases.unmeasurable ++ "$")).
  destruct (processChunk Json.parse 9 Update.cleared [] "" chunk
                         (state Scenario.reading) (parses Scenario.reading))
    as [[[l st] tr]|] eqn:E; [|vm_compute in E; discriminate E].
  assert (Hl : isComplete l = true
               /\ getProp "citation_array" (responseData l)
                  = JObj [("length", JObj [("toString", JNum "1")])]).
  { vm_compute in E. injection E as <- _ _. repeat split; reflexivity. }
  destruct Hl as (Hcomplete & Hcited).
  destruct (unmeasurable_citations_fail_the_turn
              Json.parse 9 Scenario.reading (Scenario.fresh "e")
              (Scenario.fresh "b1") chunk Update.cleared [] "" l st tr
              [("length", JObj [("toString", JNum "1")])]
              eq_refl eq_refl E Hcomplete Hcited eq_refl)
    as (w' & m & Hrun & Hm & _ & Hcontent & _ & _ & _ & Htimers).
  exists w', m. auto.
Defined.

Lemma history_is_append_only_witness :
  exists new,
    ChatState.messages (state Scenario.answered)
    = ChatState.messages (state initial) ++ new
    /\ List.length new <= 4.
Proof.
  apply (history_is_append_only
           Json.parse 9
           [Scenario.send "u1" "hi"; Scenario.resolved;
            Scenario.chunk Cases.stream; Scenario.timer "b1"]
           initial Scenario.answered).
  - reflexivity.
  - vm_compute. reflexivity.
Defined.

Lemma every_message_is_shown_once_witness :
  exists its,
    renderChatItems (state Scenario.answered) = Some its
    /\ messagesOf its = ChatState.messages (state Scenario.answered).
Proof.
  destruct (renderChatItems (state Scenario.answered)) as [its|] eqn:E;
    [|vm_compute in E; discriminate E].
  exists its. split; [reflexivity|].
  exact (every_message_is_shown_once _ _ E).
Defined.

Lemma live_panel_is_the_last_item_witness :
  exists its shown,
    renderChatItems (state Scenario.twoSteps) = Some its
    /\ its = shown ++ [currentPanel (state Scenario.twoSteps)].
Proof.
  destruct (renderChatItems (state Scenario.twoSteps)) as [its|] eqn:E;
    [|vm_compute in E; discriminate E].
  destruct (live_panel_is_the_last_item _ _ E) as (Hlive & _).
  destruct (Hlive [] (newMessage (Scenario.fresh "u1") (JStr "hi") false user text
                                 None JUndefined None JUndefined))
    as (shown & Hits & _); [reflexivity|reflexivity|discriminate|].
  exists its, shown. split; [reflexivity|exact Hits].
Defined.

Lemma panels_stand_behind_the_question_witness :
  exists its question answer,
    ChatState.messages (state Scenario.answered) = [question; answer]
    /\ renderChatItems (state Scenario.answered) = Some its
    /\ its = [ChatMessageItem "user-u1" question; attachedPanel answer;
              ChatMessageItem "bot-b1" answer].
Proof.
  destruct (renderChatItems (state Scenario.answered)) as [its|] eqn:E;
    [|vm_compute in E; discriminate E].
  destruct (ChatState.messages (state Scenario.answered))
    as [|question [|answer [|]]] eqn:Hms; try discriminate Hms.
  exists its, question, answer. split; [reflexivity|]. split; [reflexivity|].
  destruct (panels_stand_behind_the_question _ _ E) as [Hits|Hits].
  - rewrite Hms. injection Hms as <- <-.
    repeat constructor; cbn; intuition discriminate.
  - rewrite Hits, Hms. injection Hms as <- <-. reflexivity.
  - exfalso. vm_compute in E. injection E as <-.
    rewrite Hms in Hits. injection Hms as <- <-. discriminate Hits.
Defined.

Lemma citations_of_a_wrong_shape_break_the_page_witness :
  exists w',
    step Json.parse 9 Cases.finishedWithWrongCitations (Scenario.timer "b1")
    = Some w'
    /\ renderChatItems (state Cases.finishedWithWrongCitations) <> None
    /\ renderChatItems (state w') = None.
Proof.
  destruct (timers Cases.finishedWithWrongCitations) as [|d later] eqn:Htimers;
    [discriminate Htimers|].
  destruct (citations_of_a_wrong_shape_break_the_page
              Json.parse 9 Cases.finishedWithWrongCitations (Scenario.fresh "b1")
              d later "ok" "x" Htimers)
    as (w' & m & Hstep & _ & _ & _ & Hthrows);
    try (injection Htimers as <- _; reflexivity); [discriminate|].
  exists w'. split; [exact Hstep|]. split; [discriminate|exact Hthrows].
Defined.

Lemma terminal_frame_checks_the_last_step_witness :
  exists w',
    step Json.parse 9 Scenario.twoSteps (Scenario.chunk (Scenario.answer ++ "$"))
    = Some w'
    /\ stepLooks true (ChatState.processingSteps (state Scenario.twoSteps))
       = Some [Plain; Streamed]
    /\ stepLooks true (ChatState.processingSteps (state w'))
       = Some [Plain; Checked]
    /\ List.length (ChatState.processingSteps (state Cases.objectStep)) = 1
    /\ stepLooks true (ChatState.processingSteps (state Cases.objectStep)) = None.
Proof.
  assert (Hobject :
            stepLooks true (ChatState.processingSteps (state Cases.objectStep))
            = None).
  { destruct (terminal_frame_checks_the_last_step
                Json.parse 9
                [Scenario.send "u1" "hi"; Scenario.resolved;
                 Scenario.chunk (Cases.objectMessage ++ "$")]
                Cases.objectStep)
      as (_ & Hflight & _); [vm_compute; reflexivity|reflexivity|].
    exact (Hflight [] (newStep (JObj [("type", JStr "processing_step");
                                      ("message", JObj [("a", JNum "1")])]))
                   ltac:(discriminate) eq_refl). }
  destruct (terminal_frame_checks_the_last_step
              Json.parse 9
              [Scenario.send "u1" "hi"; Scenario.resolved;
               Scenario.chunk (Scenario.searching ++ "$" ++ Scenario.readingDocs
                               ++ "$")]
              Scenario.twoSteps)
    as (_ & Hflight & _ & Hterminal); [vm_compute; reflexivity|reflexivity|].
  pose (searching := newStep (JObj [("type", JStr "processing_step");
                                    ("message", JStr "Searching")])).
  pose (readingDocs := newStep (JObj [("type", JStr "processing_step");
                                      ("message", JStr "Reading docs")])).
  pose (chunk := Json.wire (Scenario.answer ++ "$")).
  destruct (processChunk Json.parse 9 Update.cleared [searching; readingDocs] ""
                         chunk (state Scenario.twoSteps) (parses Scenario.twoSteps))
    as [[[l st] tr]|] eqn:E; [|vm_compute in E; discriminate E].
  assert (Hl : isComplete l = true
               /\ hasCitationsOf (responseData l) = Some JUndefined
               /\ collectedSteps l = [searching] ++ [readingDocs]).
  { vm_compute in E. injection E as <- _ _. repeat split; reflexivity. }
  destruct Hl as (Hcomplete & Hcitations & Hcollected).
  destruct (Hterminal (Scenario.fresh "e") chunk Update.cleared
                      [searching; readingDocs] "" l st tr JUndefined
                      [searching] readingDocs eq_refl E Hcomplete Hcitations
                      Hcollected)
    as (w' & kept & shown & Hstep & _ & Hkept & Hsteps & Hlooks).
  exists w'. split; [exact Hstep|]. split; [|split; [|split]].
  - exact (Hflight [searching] readingDocs ltac:(discriminate) eq_refl).
  - rewrite Hsteps, Hlooks.
    destruct kept as [|k kept].
    + cbn in Hkept. subst shown. reflexivity.
    + destruct kept; [|destruct kept; discriminate Hkept].
      cbn in Hkept. injection Hkept as <- <-.
      exfalso. vm_compute in Hstep. injection Hstep as <-.
      discriminate Hsteps.
  - reflexivity.
  - exact Hobject.
Defined.

Lemma next_question_overtakes_the_answer_witness :
  exists w1 w2 question answer,
    handleSendMessage (Scenario.fresh "u2") "and then?" Cases.finished = Some w1
    /\ step Json.parse 9 w1 (Scenario.timer "b1") = Some w2
    /\ ChatState.messages (state w2)
       = ChatState.messages (state Cases.finished) ++ [question; answer]
    /\ Message.content question = JStr "and then?"
    /\ Message.content answer = JStr "Here is the answer".
Proof.
  destruct (timers Cases.finished) as [|d later] eqn:Htimers;
    [discriminate Htimers|].
  destruct (next_question_overtakes_the_answer
              Json.parse 9 Cases.finished (Scenario.fresh "u2") (Scenario.fresh "b1")
              "and then?" d later "Here is the answer" Htimers eq_refl)
    as (w1 & w2 & question & answer & H1 & H2 & H3 & _ & H4 & _ & H5 & _).
  - injection Htimers as <- _. reflexivity.
  - exists w1, w2, question, answer. auto.
Defined.

Lemma questions_plain_answers_markdown_witness :
  Forall (fun m => renderContent m = match Message.sender m with
                                     | user => PlainText
                                     | bot => Markdown
                                     end)
         (ChatState.messages (state Scenario.answered)).
Proof.
  apply Forall_forall. intros m Hin.
  apply (questions_plain_answers_markdown
           Json.parse 9
           [Scenario.send "u1" "hi"; Scenario.resolved;
            Scenario.chunk Cases.stream; Scenario.timer "b1"]
           Scenario.answered m).
  - vm_compute. reflexivity.
  - reflexivity.
  - exact Hin.
Defined.

Lemma regenerate_brings_the_old_answer_back_witness :
  exists w' question answer,
    run Json.parse 9 Cases.finished [CallRegenerate "u1"; Scenario.timer "b1"]
    = Some w'
    /\ ChatState.messages (state w') = [question; answer]
    /\ Message.content question = JStr "hi"
    /\ Message.content answer = JStr "Here is the answer"
    /\ List.length (sent w') = 2.
Proof.
  destruct (timers Cases.finished) as [|d later] eqn:Htimers;
    [discriminate Htimers|].
  destruct (ChatState.messages (state Cases.finished)) as [|question [|]] eqn:Hms;
    try discriminate Hms.
  destruct (regenerate_brings_the_old_answer_back
              Json.parse 9 Cases.finished (Scenario.fresh "b1") "u1" 0 question
              d later "Here is the answer" Htimers eq_refl)
    as (w' & answer & Hrun & Hm & _ & Hcontent & Hsent & _).
  - injection Htimers as <- _. reflexivity.
  - rewrite Hms. injection Hms as <-. reflexivity.
  - rewrite Hms. reflexivity.
  - injection Hms as <-. reflexivity.
  - exists w', question, answer. split; [exact Hrun|].
    split; [rewrite Hm, Hms; reflexivity|].
    split; [injection Hms as <-; reflexivity|].
    split; [exact Hcontent|]. rewrite Hsent, length_app. reflexivity.
Defined.
